(** * Calendar booking backend: a shallow embedding of [backend/server.js]
    over the schema of [backend/db.sql].

    The two tables with a primary key are finite maps from the key to the
    remaining columns.  Every handler is a program over the SQL statements
    and [io.emit] calls it performs; the programs are run sequentially on one
    connection, or interleaved statement by statement under the row locks
    taken by [SELECT ... FOR UPDATE]. *)

From Stdlib Require Import String Ascii ZArith Bool List.
From stdpp Require Import gmap strings list fin_maps sorting.

Local Open Scope string_scope.

(** ** TEXT comparison

    All columns are TEXT; [<], [>] and [ORDER BY] are modelled by the
    lexicographic order on the bytes of the strings. *)

Definition text_lt (a b : string) : bool := String.ltb a b.
Definition text_le (a b : string) : bool := String.leb a b.

(** ** Schema (db.sql) *)

(** A row of [timeslots]; the primary key [timeslot_id] is the map key. *)
Record timeslot := Timeslot {
  slot_date : string;
  start_time : string;
  end_time : string;
  is_booked : bool
}.

(** A row of [bookings]; the primary key [booking_id] is the map key.
    [phone] and [appointment_notes] are nullable. *)
Record booking := Booking {
  b_timeslot_id : string;
  full_name : string;
  email : string;
  phone : option string;
  appointment_notes : option string;
  booking_status : string;
  created_at : string
}.

Record db := Db {
  timeslots : gmap string timeslot;
  bookings : gmap string booking
}.

(** The seed rows inserted by db.sql. *)
Definition seed_timeslots : gmap string timeslot :=
  list_to_map [
    ("ts1", Timeslot "2023-10-15" "09:00" "09:30" true);
    ("ts2", Timeslot "2023-10-15" "09:30" "10:00" false);
    ("ts3", Timeslot "2023-10-15" "10:00" "10:30" true);
    ("ts4", Timeslot "2023-10-15" "10:30" "11:00" false);
    ("ts5", Timeslot "2023-10-16" "11:00" "11:30" false);
    ("ts6", Timeslot "2023-10-16" "11:30" "12:00" false);
    ("ts7", Timeslot "2023-10-16" "12:00" "12:30" false) ].

Definition seed_bookings : gmap string booking :=
  list_to_map [
    ("booking1", Booking "ts1" "Alice Johnson" "alice.johnson@gmail.com"
       (Some "555-1234") (Some "Consultation appointment") "active"
       "2023-10-15 08:55:00");
    ("booking2", Booking "ts3" "Bob Smith" "bob.smith@gmail.com"
       None (Some "Follow up consultation") "active" "2023-10-15 09:55:00");
    ("booking3", Booking "ts7" "Charlie Davis" "charlie.davis@example.net"
       (Some "555-5678") (Some "Initial appointment request") "canceled"
       "2023-10-16 11:55:00") ].

Definition seed_db : db := Db seed_timeslots seed_bookings.

(** ** The overlap predicate of the two admin queries

    [start_time < $new_end AND end_time > $new_start], where [x > y] is
    [y < x]. *)
Definition overlaps (new_start new_end : string) (t : timeslot) : bool :=
  text_lt (start_time t) new_end && text_lt new_start (end_time t).

(** WHERE clause of the overlap query of POST /api/admin/timeslots:
    [slot_date = $1 AND (start_time < $3 AND end_time > $2)]. *)
Definition create_conflict (date new_start new_end : string)
    (row : string * timeslot) : bool :=
  bool_decide (slot_date row.2 = date) && overlaps new_start new_end row.2.

(** WHERE clause of the overlap query of PUT /api/admin/timeslots/:id:
    [slot_date = $1 AND timeslot_id != $2 AND
     (start_time < $4 AND end_time > $3)]. *)
Definition edit_conflict (date id new_start new_end : string)
    (row : string * timeslot) : bool :=
  bool_decide (slot_date row.2 = date) && bool_decide (row.1 ≠ id)
  && overlaps new_start new_end row.2.

(** ** Values read from a request

    A field of [req.body], [req.query] is a string or absent.  [truthy] is
    the JavaScript test [if (x)]: absent and the empty string are falsy. *)
Definition truthy (v : option string) : bool :=
  match v with
  | Some s => negb (String.eqb s "")
  | None => false
  end.

(** [x || d] for a string default [d]. *)
Definition or_else (v : option string) (d : string) : string :=
  match v with
  | Some s => if String.eqb s "" then d else s
  | None => d
  end.

(** [x || null]. *)
Definition or_null (v : option string) : option string :=
  if truthy v then v else None.

(** The string held by a field that passed the [truthy] test. *)
Definition text (v : option string) : string := or_else v "".

(** ** TEXT parameters

    A string stands for the UTF-8 bytes that node-postgres sends for a
    JavaScript string.  PostgreSQL refuses a text parameter that holds the
    character U+0000, so a statement given such a parameter raises whatever
    the tables hold.  The statements below are those of well-formed
    parameters; a theorem that states the answer to a request takes
    [valid_text] of the strings the handler passes to the database as a
    hypothesis.  The last part of the file adds the refusal, and calls
    that are rejected, to the run of a handler and relates the two. *)
Fixpoint valid_text (s : string) : bool :=
  match s with
  | EmptyString => true
  | String c s' => negb (Ascii.eqb c Ascii.zero) && valid_text s'
  end.

(** An optional request field: absent and empty fields are not sent as
    text. *)
Definition valid_field (v : option string) : bool := valid_text (text v).

(** A continuation byte [10xxxxxx] of a UTF-8 sequence, and the lead byte
    [11110xxx] of a four-byte sequence (a character outside the basic
    plane, two code units in JavaScript). *)
Definition utf8_continuation (c : ascii) : bool :=
  (128 <=? nat_of_ascii c)%nat && (nat_of_ascii c <? 192)%nat.

Definition utf8_lead4 (c : ascii) : bool := (240 <=? nat_of_ascii c)%nat.

(** [s.length]: the number of UTF-16 code units of the string. *)
Fixpoint utf16_length (s : string) : nat :=
  match s with
  | EmptyString => 0
  | String c s' =>
    ((if utf8_continuation c then 0 else if utf8_lead4 c then 2 else 1)
     + utf16_length s')%nat
  end.

(** The rest of [s] after the continuation bytes it starts with. *)
Fixpoint drop_continuation (s : string) : string :=
  match s with
  | EmptyString => EmptyString
  | String c s' => if utf8_continuation c then drop_continuation s' else s
  end.

(** Every byte is below 128: one byte per character and per code unit. *)
Fixpoint ascii_only (s : string) : bool :=
  match s with
  | EmptyString => true
  | String c s' => (nat_of_ascii c <? 128)%nat && ascii_only s'
  end.

(** ** Realtime events and HTTP responses *)

Inductive event :=
| timeslot_update (timeslot_id : string) (row : timeslot)
| timeslot_deleted (timeslot_id : string)
| booking_update (booking_id timeslot_id status : string).

Record booking_details := BookingDetails {
  bd_timeslot_id : string;
  bd_full_name : string;
  bd_email : string;
  bd_slot_date : string;
  bd_start_time : string;
  bd_end_time : string
}.

Record calendar_entry := CalendarEntry {
  ce_slot_date : string;
  total_slots : nat;
  booked_slots : nat;
  available : bool
}.

Inductive body :=
| Message (message : string)
| BookingConfirmed (booking_id : string) (details : booking_details)
| TimeslotAdded (timeslot_id : string)
| Calendar (entries : list calendar_entry).

Record response := Response { status : nat; payload : body }.

(** ** SQL statements on a database value

    A statement that violates a constraint of db.sql (primary key, foreign
    key [fk_timeslot]) raises: the functions return [None]. *)

Definition set_booked (b : bool) (t : timeslot) : timeslot :=
  Timeslot (slot_date t) (start_time t) (end_time t) b.

Definition set_times (s e : string) (t : timeslot) : timeslot :=
  Timeslot (slot_date t) s e (is_booked t).

Definition set_status (st : string) (b : booking) : booking :=
  Booking (b_timeslot_id b) (full_name b) (email b) (phone b)
    (appointment_notes b) st (created_at b).

(** UPDATE timeslots SET is_booked = b WHERE timeslot_id = id *)
Definition update_is_booked (id : string) (b : bool) (d : db) : db :=
  Db (alter (set_booked b) id (timeslots d)) (bookings d).

(** UPDATE timeslots SET start_time = s, end_time = e WHERE timeslot_id = id *)
Definition update_times (id s e : string) (d : db) : db :=
  Db (alter (set_times s e) id (timeslots d)) (bookings d).

(** UPDATE bookings SET booking_status = st WHERE booking_id = id *)
Definition update_status (id st : string) (d : db) : db :=
  Db (timeslots d) (alter (set_status st) id (bookings d)).

(** INSERT INTO bookings: the key must be new and [fk_timeslot] must find
    the referenced slot. *)
Definition insert_booking (id : string) (b : booking) (d : db) : option db :=
  match bookings d !! id, timeslots d !! b_timeslot_id b with
  | None, Some _ => Some (Db (timeslots d) (<[id := b]> (bookings d)))
  | _, _ => None
  end.

(** INSERT INTO timeslots: the key must be new. *)
Definition insert_timeslot (id : string) (t : timeslot) (d : db) : option db :=
  match timeslots d !! id with
  | None => Some (Db (<[id := t]> (timeslots d)) (bookings d))
  | Some _ => None
  end.

(** Rows of bookings that reference slot [id], whatever their status. *)
Definition referencing (id : string) (d : db) : gmap string booking :=
  filter (λ row, b_timeslot_id row.2 = id) (bookings d).

(** DELETE FROM timeslots WHERE timeslot_id = id.  [fk_timeslot] has no
    ON DELETE action, so the statement raises while any booking row still
    references the slot. *)
Definition delete_timeslot (id : string) (d : db) : option db :=
  if decide (referencing id d = ∅)
  then Some (Db (delete id (timeslots d)) (bookings d))
  else None.

(** rowCount of the overlap query of slot creation. *)
Definition count_create_conflicts (date s e : string) (d : db) : nat :=
  size (filter (λ row, create_conflict date s e row) (timeslots d)).

(** rowCount of the overlap query of slot editing. *)
Definition count_edit_conflicts (date id s e : string) (d : db) : nat :=
  size (filter (λ row, edit_conflict date id s e row) (timeslots d)).

(** rowCount of
    SELECT * FROM bookings WHERE timeslot_id = $1 AND booking_status = $2 *)
Definition count_bookings (id st : string) (d : db) : nat :=
  size (filter (λ row, b_timeslot_id row.2 = id ∧ booking_status row.2 = st)
          (bookings d)).

(** ** The calendar query

    [slot_date LIKE $1]: [%] matches any run of characters, [_] any one
    character (in a UTF8 database: a byte and the continuation bytes that
    follow it) and a backslash makes the next pattern character literal.
    (PostgreSQL rejects a pattern that ends in the escape character; the
    handler's patterns end in ["-%"], the case is answered [false] here.) *)
Fixpoint like (p s : string) {struct p} : bool :=
  match p with
  | EmptyString => match s with EmptyString => true | _ => false end
  | String c p' =>
    if Ascii.eqb c "%" then
      (fix skip (s : string) : bool :=
         like p' s || match s with
                      | String _ s' => skip s'
                      | EmptyString => false
                      end) s
    else if Ascii.eqb c "_" then
      match s with
      | String _ s' => like p' (drop_continuation s')
      | EmptyString => false
      end
    else if Ascii.eqb c "\" then
      match p' with
      | String c' p'' =>
        match s with
        | String a s' => Ascii.eqb a c' && like p'' s'
        | EmptyString => false
        end
      | EmptyString => false
      end
    else
      match s with
      | String a s' => Ascii.eqb a c && like p' s'
      | EmptyString => false
      end
  end.

Fixpoint pad_chars (k : nat) (c : ascii) (s : string) : string :=
  match k with
  | O => s
  | S k' => String c (pad_chars k' c s)
  end.

(** [s.padStart(n, c)] for a one-character pad string: [c] is repeated
    until the string has [n] UTF-16 code units. *)
Definition padStart (n : nat) (c : ascii) (s : string) : string :=
  pad_chars (n - utf16_length s) c s.

(** Rows kept by [WHERE slot_date LIKE pattern]. *)
Definition like_rows (pattern : string) (d : db) : gmap string timeslot :=
  filter (λ row, like pattern (slot_date row.2)) (timeslots d).

(** One group of [GROUP BY slot_date]. *)
Definition date_group (date : string) (m : gmap string timeslot)
    : gmap string timeslot :=
  filter (λ row, slot_date row.2 = date) m.

(** The keys of [GROUP BY slot_date] in the order of [ORDER BY slot_date]. *)
Definition group_keys (m : gmap string timeslot) : list string :=
  merge_sort (λ a b : string, Is_true (text_le a b))
    (elements (map_to_set (λ _ t, slot_date t) m : gset string)).

(** [COUNT( * )] of a group. *)
Definition count_star (g : gmap string timeslot) : nat := size g.

(** [SUM(CASE WHEN is_booked THEN 1 ELSE 0 END)] of a group. *)
Definition sum_booked (g : gmap string timeslot) : nat :=
  sum_list_with (λ row : string * timeslot, if is_booked row.2 then 1 else 0)
    (map_to_list g).

(** Result rows [(slot_date, total_slots, booked_slots)] of the query. *)
Definition calendar_query (pattern : string) (d : db)
    : list (string * nat * nat) :=
  let m := like_rows pattern d in
  (λ date, (date, count_star (date_group date m),
                  sum_booked (date_group date m))) <$> group_keys m.

(** ** Handler programs

    A command is one awaited call of the source: a SQL statement sent with
    [client.query] or [pool.query], or an [io.emit].  [for_update] records
    the [FOR UPDATE] suffix of a SELECT. *)
Inductive cmd : Type → Type :=
| Begin : cmd unit
| Commit : cmd unit
| Rollback : cmd unit
| SelectTimeslot (for_update : bool) (id : string) : cmd (option timeslot)
| SelectBooking (for_update : bool) (id : string) : cmd (option booking)
| UpdateIsBooked (id : string) (b : bool) : cmd unit
| UpdateStatus (st id : string) : cmd unit
| InsertBooking (id : string) (b : booking) : cmd unit
| CountCreateConflicts (date s e : string) : cmd nat
| CountEditConflicts (date id s e : string) : cmd nat
| InsertTimeslot (id : string) (t : timeslot) : cmd unit
| UpdateTimes (s e id : string) : cmd unit
| CountBookings (id st : string) : cmd nat
| DeleteTimeslot (id : string) : cmd unit
| CalendarQuery (pattern : string) : cmd (list (string * nat * nat))
| Emit (e : event) : cmd unit.

(** A program: return a response, perform a command and continue with its
    result, or run a body under [try { } catch { }]. *)
Inductive prog (R : Type) : Type :=
| Ret (r : R)
| Op {X : Type} (c : cmd X) (k : X → prog R)
| Try (body : prog R) (handler : prog R).

Arguments Ret {R} r.
Arguments Op {R X} c k.
Arguments Try {R} body handler.

Declare Scope prog_scope.
Delimit Scope prog_scope with prog.
Bind Scope prog_scope with prog.
Notation "x <~ c ;; k" := (Op c (λ x, k))
  (at level 100, c at next level, right associativity) : prog_scope.
Notation "c ;; k" := (Op c (λ _, k))
  (at level 100, right associativity) : prog_scope.

(** ** One connection, statements run one after the other

    [store] is what the connection reads and writes, [snapshot] the state
    saved by BEGIN (restored by ROLLBACK, dropped by COMMIT) and [log] the
    transaction boundaries and emitted events in the order they happened. *)
Inductive effect :=
| Began
| Committed
| RolledBack
| Emitted (e : event).

Record conn := Conn {
  store : db;
  snapshot : option db;
  log : list effect
}.

Definition fresh_conn (d : db) : conn := Conn d None [].

Definition write (f : db → option db) (w : conn) : option (unit * conn) :=
  match f (store w) with
  | Some d => Some (tt, Conn d (snapshot w) (log w))
  | None => None
  end.

Definition read {X} (q : db → X) (w : conn) : option (X * conn) :=
  Some (q (store w), w).

(** The effect of one command; [None] when the statement raises. *)
Definition exec {X} (c : cmd X) (w : conn) : option (X * conn) :=
  match c in cmd X return option (X * conn) with
  | Begin => Some (tt, Conn (store w) (Some (store w)) (log w ++ [Began]))
  | Commit => Some (tt, Conn (store w) None (log w ++ [Committed]))
  | Rollback =>
    Some (tt, Conn (default (store w) (snapshot w)) None
                (log w ++ [RolledBack]))
  | SelectTimeslot _ id => read (λ d, timeslots d !! id) w
  | SelectBooking _ id => read (λ d, bookings d !! id) w
  | UpdateIsBooked id b => write (λ d, Some (update_is_booked id b d)) w
  | UpdateStatus st id => write (λ d, Some (update_status id st d)) w
  | InsertBooking id b => write (insert_booking id b) w
  | CountCreateConflicts date s e => read (count_create_conflicts date s e) w
  | CountEditConflicts date id s e => read (count_edit_conflicts date id s e) w
  | InsertTimeslot id t => write (insert_timeslot id t) w
  | UpdateTimes s e id => write (λ d, Some (update_times id s e d)) w
  | CountBookings id st => read (count_bookings id st) w
  | DeleteTimeslot id => write (delete_timeslot id) w
  | CalendarQuery pattern => read (calendar_query pattern) w
  | Emit e => Some (tt, Conn (store w) (snapshot w) (log w ++ [Emitted e]))
  end.

(** Run a program; the first component is [None] when an exception
    escapes. *)
Fixpoint run {R} (p : prog R) (w : conn) : option R * conn :=
  match p with
  | Ret r => (Some r, w)
  | Op c k =>
    match exec c w with
    | Some (x, w') => run (k x) w'
    | None => (None, w)
    end
  | Try body handler =>
    match run body w with
    | (Some r, w') => (Some r, w')
    | (None, w') => run handler w'
    end
  end.

(** ** The handlers of server.js

    Admin handlers are modelled past the [authenticateAdmin] middleware.
    The values drawn by [crypto.randomUUID()] and
    [new Date().toISOString()] are arguments; [console.error] and
    [client.release()] have no effect on the database or the channel. *)

Definition reply (st : nat) (m : string) : response := Response st (Message m).

Definition internal_error : response := reply 500 "Internal server error".

Record booking_request := BookingRequest {
  rq_timeslot_id : option string;
  rq_full_name : option string;
  rq_email : option string;
  rq_phone : option string;
  rq_appointment_notes : option string
}.

(** The strings of a booking request that reach the database, with the
    id and the time the handler draws. *)
Definition valid_booking_request (rq : booking_request) (uuid now : string)
    : bool :=
  valid_field (rq_timeslot_id rq) && valid_field (rq_full_name rq)
  && valid_field (rq_email rq) && valid_field (rq_phone rq)
  && valid_field (rq_appointment_notes rq)
  && valid_text uuid && valid_text now.

(** POST /api/bookings *)
Definition post_bookings (rq : booking_request) (uuid now : string)
    : prog response :=
  if negb (truthy (rq_timeslot_id rq)) || negb (truthy (rq_full_name rq))
     || negb (truthy (rq_email rq))
  then Ret (reply 400 "Missing required fields: timeslot_id, full_name, email")
  else
    let timeslot_id := text (rq_timeslot_id rq) in
    let full_name := text (rq_full_name rq) in
    let email := text (rq_email rq) in
    Try
      (Begin ;;
       timeslotResult <~ SelectTimeslot true timeslot_id ;;
       match timeslotResult with
       | None => Rollback ;; Ret (reply 400 "Invalid timeslot_id")
       | Some timeslot =>
         if is_booked timeslot
         then Rollback ;; Ret (reply 400 "Timeslot already booked")
         else
           UpdateIsBooked timeslot_id true ;;
           InsertBooking uuid
             (Booking timeslot_id full_name email (or_null (rq_phone rq))
                (or_null (rq_appointment_notes rq)) "active" now) ;;
           Commit ;;
           Emit (timeslot_update timeslot_id
                   (Timeslot (slot_date timeslot) (start_time timeslot)
                      (end_time timeslot) true)) ;;
           Emit (booking_update uuid timeslot_id "active") ;;
           Ret (Response 200
                  (BookingConfirmed uuid
                     (BookingDetails timeslot_id full_name email
                        (slot_date timeslot) (start_time timeslot)
                        (end_time timeslot))))
       end)%prog
      (Rollback ;; Ret internal_error)%prog.

Record timeslot_request := TimeslotRequest {
  rq_slot_date : option string;
  rq_start_time : option string;
  rq_end_time : option string
}.

Definition valid_timeslot_request (rq : timeslot_request) : bool :=
  valid_field (rq_slot_date rq) && valid_field (rq_start_time rq)
  && valid_field (rq_end_time rq).

(** POST /api/admin/timeslots *)
Definition post_admin_timeslots (rq : timeslot_request) (uuid : string)
    : prog response :=
  if negb (truthy (rq_slot_date rq)) || negb (truthy (rq_start_time rq))
     || negb (truthy (rq_end_time rq))
  then Ret (reply 400
              "Missing required fields: slot_date, start_time, end_time")
  else
    let slot_date := text (rq_slot_date rq) in
    let start_time := text (rq_start_time rq) in
    let end_time := text (rq_end_time rq) in
    Try
      (rowCount <~ CountCreateConflicts slot_date start_time end_time ;;
       if (0 <? rowCount)%nat
       then Ret (reply 400 "Overlapping timeslot exists")
       else
         InsertTimeslot uuid (Timeslot slot_date start_time end_time false) ;;
         Emit (timeslot_update uuid
                 (Timeslot slot_date start_time end_time false)) ;;
         Ret (Response 200 (TimeslotAdded uuid)))%prog
      (Ret internal_error).

(** PUT /api/admin/timeslots/:timeslot_id; the date of the request record
    is not read. *)
Definition put_admin_timeslots (timeslot_id : string) (rq : timeslot_request)
    : prog response :=
  if negb (truthy (rq_start_time rq)) && negb (truthy (rq_end_time rq))
  then Ret (reply 400
         "At least one field (start_time or end_time) is required to update")
  else
    Try
      (result <~ SelectTimeslot false timeslot_id ;;
       match result with
       | None => Ret (reply 400 "Timeslot not found")
       | Some currentTimeslot =>
         let new_start_time :=
           or_else (rq_start_time rq) (start_time currentTimeslot) in
         let new_end_time :=
           or_else (rq_end_time rq) (end_time currentTimeslot) in
         rowCount <~ CountEditConflicts (slot_date currentTimeslot)
                       timeslot_id new_start_time new_end_time ;;
         if (0 <? rowCount)%nat
         then Ret (reply 400 "Overlapping timeslot exists")
         else
           UpdateTimes new_start_time new_end_time timeslot_id ;;
           Emit (timeslot_update timeslot_id
                   (Timeslot (slot_date currentTimeslot) new_start_time
                      new_end_time (is_booked currentTimeslot))) ;;
           Ret (reply 200 "Timeslot updated successfully")
       end)%prog
      (Ret internal_error).

(** DELETE /api/admin/timeslots/:timeslot_id *)
Definition delete_admin_timeslots (timeslot_id : string) : prog response :=
  Try
    (rowCount <~ CountBookings timeslot_id "active" ;;
     if (0 <? rowCount)%nat
     then Ret (reply 400 "Cannot delete timeslot with active booking")
     else
       DeleteTimeslot timeslot_id ;;
       Emit (timeslot_deleted timeslot_id) ;;
       Ret (reply 200 "Timeslot deleted successfully"))%prog
    (Ret internal_error).

(** PUT /api/admin/bookings/:booking_id/cancel *)
Definition put_cancel (booking_id : string) : prog response :=
  Try
    (Begin ;;
     bookingResult <~ SelectBooking true booking_id ;;
     match bookingResult with
     | None => Rollback ;; Ret (reply 400 "Booking not found")
     | Some booking =>
       if String.eqb (booking_status booking) "canceled"
       then Rollback ;; Ret (reply 400 "Booking is already canceled")
       else
         UpdateStatus "canceled" booking_id ;;
         UpdateIsBooked (b_timeslot_id booking) false ;;
         Commit ;;
         Emit (booking_update booking_id (b_timeslot_id booking)
                 "canceled") ;;
         timeslotResult <~ SelectTimeslot false (b_timeslot_id booking) ;;
         match timeslotResult with
         | Some row =>
           Emit (timeslot_update (b_timeslot_id booking) row) ;;
           Ret (reply 200
                  "Booking canceled and timeslot updated successfully")
         | None =>
           Ret (reply 200
                  "Booking canceled and timeslot updated successfully")
         end
     end)%prog
    (Rollback ;; Ret internal_error)%prog.

(** GET /api/calendar *)
Definition get_calendar (month year : option string) : prog response :=
  if negb (truthy month) || negb (truthy year)
  then Ret (reply 400 "Missing month or year query parameter")
  else
    let pattern :=
      text year ++ "-" ++ padStart 2 "0" (text month) ++ "-%" in
    Try
      (rows <~ CalendarQuery pattern ;;
       Ret (Response 200 (Calendar
              ((λ row : string * nat * nat,
                  let '(slot_date, total_slots, booked_slots) := row in
                  CalendarEntry slot_date total_slots booked_slots
                    (0 <? Z.of_nat total_slots - Z.of_nat booked_slots)%Z)
                 <$> rows))))%prog
      (Ret internal_error).

(** ** Requests served one at a time *)

Inductive request :=
| CreateBooking (rq : booking_request) (uuid now : string)
| CancelBooking (booking_id : string)
| CreateSlot (rq : timeslot_request) (uuid : string)
| EditSlot (timeslot_id : string) (rq : timeslot_request)
| DeleteSlot (timeslot_id : string)
| GetCalendar (month year : option string).

Definition handler (r : request) : prog response :=
  match r with
  | CreateBooking rq uuid now => post_bookings rq uuid now
  | CancelBooking id => put_cancel id
  | CreateSlot rq uuid => post_admin_timeslots rq uuid
  | EditSlot id rq => put_admin_timeslots id rq
  | DeleteSlot id => delete_admin_timeslots id
  | GetCalendar month year => get_calendar month year
  end.

(** Serve a request on a fresh connection to database [d]. *)
Definition serve (r : request) (d : db) : option response * conn :=
  run (handler r) (fresh_conn d).

Definition response_of (r : request) (d : db) : option response :=
  (serve r d).1.

Definition db_after (r : request) (d : db) : db := store (serve r d).2.

Definition events_of (r : request) (d : db) : list effect :=
  log (serve r d).2.

Definition jane : booking_request :=
  BookingRequest (Some "ts2") (Some "Jane Doe") (Some "jane@x.com") None None.


(** ** The booked-flag invariant *)

(** Booking row [b] is an active booking of slot [id]. *)
Definition active_for (id : string) (b : booking) : Prop :=
  b_timeslot_id b = id ∧ booking_status b = "active".

Definition has_active_booking (d : db) (id : string) : Prop :=
  map_Exists (λ _ b, active_for id b) (bookings d).

(** [slot.booked] holds exactly for the slots with an active booking. *)
Definition booked_iff_active (d : db) : Prop :=
  map_Forall (λ id t, is_booked t = true ↔ has_active_booking d id)
    (timeslots d).

(** No slot has two active bookings. *)
Definition one_active_per_slot (d : db) : Prop :=
  map_Forall (λ k1 b1,
    map_Forall (λ k2 b2,
      booking_status b1 = "active" → booking_status b2 = "active" →
      b_timeslot_id b1 = b_timeslot_id b2 → k1 = k2) (bookings d))
    (bookings d).

(** [fk_timeslot]: every booking references an existing slot. *)
Definition fk_timeslot (d : db) : Prop :=
  map_Forall (λ _ b, is_Some (timeslots d !! b_timeslot_id b)) (bookings d).

(** Every status is one of the two the handlers write. *)
Definition status_domain (d : db) : Prop :=
  map_Forall (λ _ b, booking_status b = "active"
                     ∨ booking_status b = "canceled") (bookings d).

Record consistent (d : db) : Prop := Consistent {
  c_flag : booked_iff_active d;
  c_one : one_active_per_slot d;
  c_fk : fk_timeslot d;
  c_status : status_domain d
}.

Global Instance booked_iff_active_dec d : Decision (booked_iff_active d).
Proof. unfold booked_iff_active, has_active_booking, active_for. apply _. Defined.
Global Instance one_active_per_slot_dec d : Decision (one_active_per_slot d).
Proof. unfold one_active_per_slot. apply _. Defined.
Global Instance fk_timeslot_dec d : Decision (fk_timeslot d).
Proof. unfold fk_timeslot. apply _. Defined.
Global Instance status_domain_dec d : Decision (status_domain d).
Proof. unfold status_domain. apply _. Defined.

(** States at a commit boundary: the seeded database, and the database
    left by serving any request in such a state. *)
Inductive reachable : db → Prop :=
| reach_seed : reachable seed_db
| reach_serve r d : reachable d → reachable (db_after r d).

(** Serve a list of requests one after the other. *)
Definition serve_all (rs : list request) (d : db) : db :=
  foldl (λ d r, db_after r d) d rs.

(** ** Properties of a connection's log *)

(** Every emission is preceded by a COMMIT. *)
Definition emitted_after_commit (l : list effect) : Prop :=
  ∀ i e, l !! i = Some (Emitted e) → ∃ j, j < i ∧ l !! j = Some Committed.

Definition nothing_emitted (l : list effect) : Prop :=
  ∀ e, Emitted e ∉ l.

(** Every slot-update event comes before every booking-update event. *)
Definition slot_update_first (l : list effect) : Prop :=
  ∀ i j bid sid st sid' row,
    l !! i = Some (Emitted (booking_update bid sid st)) →
    l !! j = Some (Emitted (timeslot_update sid' row)) →
    j < i.

Definition succeeded (r : option response) : bool :=
  match r with
  | Some (Response 200 _) => true
  | _ => false
  end.

(** ** Dates of a month

    A pattern character that LIKE reads literally. *)
Definition literal_char (c : ascii) : bool :=
  negb (Ascii.eqb c "%") && negb (Ascii.eqb c "_") && negb (Ascii.eqb c "\").

Fixpoint literal (p : string) : bool :=
  match p with
  | EmptyString => true
  | String c p' => literal_char c && literal p'
  end.

(** The requested month written with two digits: a month of one character
    gets a leading zero. *)
Definition two_digits (month : string) : string :=
  match month with
  | String c EmptyString => String "0" (String c EmptyString)
  | _ => month
  end.

(** [date] starts with [YYYY-MM-]. *)
Definition in_month (year month date : string) : bool :=
  String.prefix (year ++ "-" ++ two_digits month ++ "-") date.

(** ** Booking transactions interleaved under row locks

    Several connections run their handlers at once; the scheduler picks a
    session and lets it perform its next command.  The semantics covers the
    statements of the booking transaction and of slot creation as
    PostgreSQL runs them at its default isolation level:
    - the statements of an open transaction are kept aside and reach the
      committed database at COMMIT; the transaction itself reads the
      committed database with its own statements applied;
    - [SELECT ... FOR UPDATE] and [UPDATE] of a timeslot row wait while
      another session holds the lock of that row, then read the latest
      committed row and take the lock, which COMMIT and ROLLBACK release;
    - the overlap query and the INSERT of slot creation take no row lock:
      outside a transaction the query reads the committed database and the
      INSERT is applied to it at once.
    A session whose next statement waits, or is not one of those statements,
    cannot move. *)

Definition pending := list (db → option db).

Definition replay (ws : pending) (d : db) : option db :=
  foldl (λ acc w, acc ≫= w) (Some d) ws.

Record shared := Shared {
  committed : db;
  slot_locks : gmap string nat;
  channel : list event
}.

Inductive outcome (X : Type) : Type :=
| Done (x : X) (g : shared) (txn : option pending)
| Raise
| Blocked.

Arguments Done {X} x g txn.
Arguments Raise {X}.
Arguments Blocked {X}.

Definition own_or_free (i : nat) (id : string) (g : shared) : bool :=
  match slot_locks g !! id with
  | Some j => bool_decide (j = i)
  | None => true
  end.

(** Take the lock of row [id]; outside a transaction the lock is given
    back at once. *)
Definition lock_row (i : nat) (id : string) (txn : option pending)
    (g : shared) : shared :=
  match txn with
  | Some _ => Shared (committed g) (<[id := i]> (slot_locks g)) (channel g)
  | None => g
  end.

Definition release (i : nat) (locks : gmap string nat) : gmap string nat :=
  filter (λ kv, kv.2 ≠ i) locks.

(** What the session reads. *)
Definition view (txn : option pending) (g : shared) : option db :=
  replay (default [] txn) (committed g).

(** A write statement: kept aside inside a transaction, applied at once
    outside; raises when it violates a constraint on what the session
    reads. *)
Definition buffer (w : db → option db) (txn : option pending) (g : shared)
    : outcome unit :=
  match txn with
  | Some ws =>
    match view txn g ≫= w with
    | Some _ => Done tt g (Some (ws ++ [w])%list)
    | None => Raise
    end
  | None =>
    match w (committed g) with
    | Some d' => Done tt (Shared d' (slot_locks g) (channel g)) None
    | None => Raise
    end
  end.

Definition cexec {X} (i : nat) (c : cmd X) (g : shared) (txn : option pending)
    : outcome X :=
  match c in cmd X return outcome X with
  | Begin => Done tt g (Some (default [] txn))
  | Commit =>
    match view txn g with
    | Some d' => Done tt (Shared d' (release i (slot_locks g)) (channel g)) None
    | None => Raise
    end
  | Rollback =>
    Done tt (Shared (committed g) (release i (slot_locks g)) (channel g)) None
  | SelectTimeslot true id =>
    if own_or_free i id g then
      match view txn g with
      | Some v =>
        match timeslots v !! id with
        | Some t => Done (Some t) (lock_row i id txn g) txn
        | None => Done None g txn
        end
      | None => Raise
      end
    else Blocked
  | UpdateIsBooked id b =>
    if own_or_free i id g then
      match view txn g with
      | Some v =>
        match timeslots v !! id with
        | Some _ =>
          match buffer (λ d, Some (update_is_booked id b d)) txn g with
          | Done x g' txn' => Done x (lock_row i id txn g') txn'
          | Raise => Raise
          | Blocked => Blocked
          end
        | None => Done tt g txn
        end
      | None => Raise
      end
    else Blocked
  | InsertBooking id b => buffer (insert_booking id b) txn g
  | CountCreateConflicts date s e =>
    match view txn g with
    | Some v => Done (count_create_conflicts date s e v) g txn
    | None => Raise
    end
  | InsertTimeslot id t => buffer (insert_timeslot id t) txn g
  | Emit e =>
    Done tt (Shared (committed g) (slot_locks g) (channel g ++ [e])%list) txn
  | _ => Blocked
  end.

(** A session: the rest of its handler ([Ret r] once it has answered [r]),
    the catch blocks around it, and its open transaction. *)
Record session := Session {
  s_code : prog response;
  s_catch : list (prog response);
  s_txn : option pending
}.

Definition session_step (i : nat) (g : shared) (s : session)
    : option (shared * session) :=
  match s_code s with
  | Ret _ => None
  | Try body handler => Some (g, Session body (handler :: s_catch s) (s_txn s))
  | Op c k =>
    match cexec i c g (s_txn s) with
    | Done x g' txn' => Some (g', Session (k x) (s_catch s) txn')
    | Raise =>
      match s_catch s with
      | h :: hs => Some (g, Session h hs (s_txn s))
      | [] => None
      end
    | Blocked => None
    end
  end.

Record system := System {
  sh : shared;
  sessions : list session
}.

(** Let session [i] perform its next command. *)
Definition system_step (i : nat) (st : system) : option system :=
  match sessions st !! i with
  | Some s =>
    match session_step i (sh st) s with
    | Some (g', s') => Some (System g' (<[i := s']> (sessions st)))
    | None => None
    end
  | None => None
  end.

(** Any interleaving: [steps sch st st'] when the sessions picked in the
    order [sch], each able to move when picked, lead from [st] to [st']. *)
Inductive steps : list nat → system → system → Prop :=
| steps_refl st : steps [] st st
| steps_next i sch st st' st'' :
    system_step i st = Some st' → steps sch st' st'' →
    steps (i :: sch) st st''.

(** Follow a schedule, skipping the picks that cannot move. *)
Fixpoint run_schedule (sch : list nat) (st : system) : system :=
  match sch with
  | [] => st
  | i :: sch' =>
    match system_step i st with
    | Some st' => run_schedule sch' st'
    | None => run_schedule sch' st
    end
  end.

Definition answer (s : session) : option response :=
  match s_code s with
  | Ret r => Some r
  | _ => None
  end.

Definition finished (st : system) : bool :=
  bool_decide (Forall (λ s, is_Some (answer s)) (sessions st)).

Definition start (d : db) (ps : list (prog response)) : system :=
  System (Shared d ∅ []) ((λ p, Session p [] None) <$> ps).

(** One concurrent attempt: the request, and the values it draws. *)
Record attempt := Attempt {
  a_request : booking_request;
  a_uuid : string;
  a_now : string
}.

Definition attempt_prog (a : attempt) : prog response :=
  post_bookings (a_request a) (a_uuid a) (a_now a).

Definition two_attempts : list attempt :=
  [Attempt jane "u1" "t1"; Attempt jane "u2" "t2"].

(** A well-formed attempt on slot [tid] of database [d]. *)
Definition attempt_on (d : db) (tid : string) (a : attempt) : Prop :=
  truthy (rq_timeslot_id (a_request a)) = true
  ∧ truthy (rq_full_name (a_request a)) = true
  ∧ truthy (rq_email (a_request a)) = true
  ∧ text (rq_timeslot_id (a_request a)) = tid
  ∧ bookings d !! a_uuid a = None.

(** The strings an attempt passes to the database are valid text. *)
Definition valid_attempt (a : attempt) : Prop :=
  valid_booking_request (a_request a) (a_uuid a) (a_now a) = true.

(** ** Where a booking session stands

    The code left to a session is its handler resumed a number of times,
    each command answered as the booking transaction answers it: [row] is
    what the locking SELECT read. *)
Definition answers (row : option timeslot) (X : Type) (c : cmd X)
    : option X :=
  match c in cmd X return option X with
  | Begin => Some tt
  | Commit => Some tt
  | Rollback => Some tt
  | SelectTimeslot _ _ => Some row
  | UpdateIsBooked _ _ => Some tt
  | InsertBooking _ _ => Some tt
  | Emit _ => Some tt
  | _ => None
  end.

Definition resume {R} (ans : ∀ X, cmd X → option X) (p : prog R) : prog R :=
  match p with
  | Ret r => Ret r
  | Try body _ => body
  | Op c k =>
    match ans _ c with
    | Some x => k x
    | None => Op c k
    end
  end.

Fixpoint code_after (n : nat) (row : option timeslot) (p : prog response)
    : prog response :=
  match n with
  | O => p
  | S n' => resume (answers row) (code_after n' row p)
  end.

Inductive phase :=
| Fresh        (* before [try] *)
| Entered      (* at BEGIN *)
| Selecting    (* at SELECT ... FOR UPDATE *)
| Marking      (* read a free row; at UPDATE timeslots *)
| Inserting    (* at INSERT INTO bookings *)
| Committing   (* at COMMIT *)
| Emitting1    (* committed; at the first emit *)
| Emitting2    (* at the second emit *)
| Confirmed    (* answered "Booking confirmed" *)
| Refusing     (* read a booked row; at ROLLBACK *)
| Refused.     (* answered "Timeslot already booked" *)

Global Instance phase_eq_dec : EqDecision phase.
Proof. solve_decision. Defined.

Definition catch_block : prog response :=
  (Rollback ;; Ret internal_error)%prog.

Definition a_slot (a : attempt) : string := text (rq_timeslot_id (a_request a)).

(** The row inserted by a successful attempt. *)
Definition new_booking (a : attempt) : booking :=
  Booking (a_slot a) (text (rq_full_name (a_request a)))
    (text (rq_email (a_request a))) (or_null (rq_phone (a_request a)))
    (or_null (rq_appointment_notes (a_request a))) "active" (a_now a).

Definition mark_booked (a : attempt) : db → option db :=
  λ d, Some (update_is_booked (a_slot a) true d).

(** The session of attempt [a] in phase [φ], where [t0] is the slot's row
    before any booking. *)
Definition session_at (t0 : timeslot) (a : attempt) (φ : phase) : session :=
  let p := attempt_prog a in
  let free := Some t0 in
  let taken := Some (set_booked true t0) in
  match φ with
  | Fresh => Session p [] None
  | Entered => Session (code_after 1 free p) [catch_block] None
  | Selecting => Session (code_after 2 free p) [catch_block] (Some [])
  | Marking => Session (code_after 3 free p) [catch_block] (Some [])
  | Inserting =>
    Session (code_after 4 free p) [catch_block] (Some [mark_booked a])
  | Committing =>
    Session (code_after 5 free p) [catch_block]
      (Some [mark_booked a; insert_booking (a_uuid a) (new_booking a)])
  | Emitting1 => Session (code_after 6 free p) [catch_block] None
  | Emitting2 => Session (code_after 7 free p) [catch_block] None
  | Confirmed => Session (code_after 8 free p) [catch_block] None
  | Refusing => Session (code_after 3 taken p) [catch_block] (Some [])
  | Refused => Session (code_after 4 taken p) [catch_block] None
  end.

Definition holds_lock (φ : phase) : bool :=
  match φ with
  | Marking | Inserting | Committing | Refusing => true
  | _ => false
  end.

Definition has_won (φ : phase) : bool :=
  match φ with
  | Emitting1 | Emitting2 | Confirmed => true
  | _ => false
  end.

(** Commands left to a session in a phase. *)
Definition remaining (φ : phase) : nat :=
  match φ with
  | Fresh => 8 | Entered => 7 | Selecting => 6 | Marking => 5
  | Inserting => 4 | Committing => 3 | Emitting1 => 2 | Emitting2 => 1
  | Confirmed => 0 | Refusing => 1 | Refused => 0
  end.

(** What a phase requires of the lock holder and of the winner. *)
Definition phase_ok (lock winner : option nat) (i : nat) (φ : phase) : Prop :=
  match φ with
  | Fresh | Entered | Selecting => True
  | Marking | Inserting | Committing => lock = Some i ∧ winner = None
  | Refusing => lock = Some i ∧ is_Some winner
  | Emitting1 | Emitting2 | Confirmed => winner = Some i
  | Refused => is_Some winner
  end.

(** The database once attempt [a] has committed. *)
Definition booked_by (d : db) (a : attempt) : db :=
  Db (alter (set_booked true) (a_slot a) (timeslots d))
     (<[a_uuid a := new_booking a]> (bookings d)).

(** Commands left to all sessions. *)
Definition work (φs : list phase) : nat := sum_list_with remaining φs.

(** The invariant of the interleaved bookings of slot [tid]. *)
Record inv (d : db) (tid : string) (t0 : timeslot) (ats : list attempt)
    (φs : list phase) (lock winner : option nat) (st : system) : Prop := Inv {
  inv_len : length φs = length ats;
  inv_sessions : sessions st = zip_with (session_at t0) ats φs;
  inv_locks :
    slot_locks (sh st)
    = match lock with Some i => {[tid := i]} | None => ∅ end;
  inv_db :
    committed (sh st)
    = match winner ≫= (ats !!.) with Some a => booked_by d a | None => d end;
  inv_phase : ∀ i φ, φs !! i = Some φ → phase_ok lock winner i φ;
  inv_holder :
    ∀ i, lock = Some i → ∃ φ, φs !! i = Some φ ∧ holds_lock φ = true;
  inv_winner :
    ∀ w, winner = Some w → ∃ φ, φs !! w = Some φ ∧ has_won φ = true
}.

(** The events of a log, in order. *)
Definition emitted_events (l : list effect) : list event :=
  omap (λ x, match x with Emitted e => Some e | _ => None end) l.

(** * The remaining routes of server.js *)

(** What a read-only route answers: an error status with its message, or
    [res.json] of a value. *)
Inductive result (A : Type) : Type :=
| Failure (status : nat) (message : string)
| Json (value : A).

Arguments Failure {A} status message.
Arguments Json {A} value.

(** ** GET /api/timeslots

    [SELECT ... FROM timeslots WHERE slot_date = $1 ORDER BY start_time];
    rows with equal start times come in the order of their keys (SQL leaves
    their order open).  A SELECT violates no constraint: with a parameter
    that is valid text the catch block of a read-only route is not
    reached. *)
Definition by_start_time (r1 r2 : string * timeslot) : Prop :=
  Is_true (text_le (start_time r1.2) (start_time r2.2)).

Global Instance by_start_time_dec r1 r2 : Decision (by_start_time r1 r2).
Proof. unfold by_start_time. apply _. Defined.

Definition select_by_date (date : string) (d : db) : list (string * timeslot) :=
  merge_sort by_start_time
    (map_to_list (filter (λ row, slot_date row.2 = date) (timeslots d))).

Definition get_timeslots (slot_date : option string) (d : db)
    : result (list (string * timeslot)) :=
  if negb (truthy slot_date)
  then Failure 400 "Missing slot_date query parameter"
  else Json (select_by_date (text slot_date) d).

(** ** GET /api/admin/bookings

    [bookings b JOIN timeslots t ON b.timeslot_id = t.timeslot_id], with
    [WHERE t.slot_date = $1] when the query parameter is truthy, then
    [ORDER BY b.created_at]. *)
Record booking_row := BookingRow {
  br_booking_id : string;
  br_booking : booking;
  br_slot_date : string;
  br_start_time : string;
  br_end_time : string
}.

Definition join_row (d : db) (row : string * booking) : option booking_row :=
  match timeslots d !! b_timeslot_id row.2 with
  | Some t =>
    Some (BookingRow row.1 row.2 (slot_date t) (start_time t) (end_time t))
  | None => None
  end.

Definition joined (d : db) : list booking_row :=
  omap (join_row d) (map_to_list (bookings d)).

Definition by_created_at (r1 r2 : booking_row) : Prop :=
  Is_true (text_le (created_at (br_booking r1)) (created_at (br_booking r2))).

Global Instance by_created_at_dec r1 r2 : Decision (by_created_at r1 r2).
Proof. unfold by_created_at. apply _. Defined.

Definition get_admin_bookings (slot_date : option string) (d : db)
    : list booking_row :=
  merge_sort by_created_at
    (if truthy slot_date
     then filter (λ r, br_slot_date r = text slot_date) (joined d)
     else joined d).

(** ** The admin middleware *)

(** [s.split(" ")]: the pieces between single spaces, empty pieces kept. *)
Fixpoint split_space (s : string) : list string :=
  match s with
  | EmptyString => [EmptyString]
  | String c s' =>
    if Ascii.eqb c " " then EmptyString :: split_space s'
    else match split_space s' with
         | w :: ws => String c w :: ws
         | [] => [String c EmptyString]
         end
  end.

(** [authHeader.split(" ")[1]], [None] for [undefined]. *)
Definition token_of (authHeader : string) : option string :=
  split_space authHeader !! 1.

Definition is_admin_route (r : request) : bool :=
  match r with
  | CancelBooking _ | CreateSlot _ _ | EditSlot _ _ | DeleteSlot _ => true
  | CreateBooking _ _ _ | GetCalendar _ _ => false
  end.

Section jwt.
(** The jsonwebtoken library with the server's secret: [verify token]
    tells whether [jwt.verify] returns ([true]) or throws ([false]); the
    token may be [undefined]. *)
Variable verify : option string → bool.

(** [authenticateAdmin]: [None] when it calls [next()], otherwise the
    response it sends. *)
Definition authenticateAdmin (authorization : option string)
    : option response :=
  if negb (truthy authorization)
  then Some (reply 401 "Missing authorization header")
  else if verify (token_of (text authorization)) then None
  else Some (reply 401 "Invalid token").

(** A request through the router: the admin routes pass the middleware
    first. *)
Definition route (authorization : option string) (r : request) (d : db)
    : option response * conn :=
  if is_admin_route r
  then match authenticateAdmin authorization with
       | Some resp => (Some resp, fresh_conn d)
       | None => serve r d
       end
  else serve r d.
End jwt.

(** ** Predicates for the properties of the handlers *)

(** What an event says is true of database [d]. *)
Definition event_holds (d : db) (e : event) : Prop :=
  match e with
  | timeslot_update id row => timeslots d !! id = Some row
  | timeslot_deleted id => timeslots d !! id = None
  | booking_update bid sid st =>
    ∃ b, bookings d !! bid = Some b ∧ b_timeslot_id b = sid
         ∧ booking_status b = st
  end.

(** No two slots of one date overlap. *)
Definition no_overlap (d : db) : Prop :=
  map_Forall (λ id1 t1,
    map_Forall (λ id2 t2,
      id1 ≠ id2 → slot_date t1 = slot_date t2 →
      overlaps (start_time t1) (end_time t1) t2 = false) (timeslots d))
    (timeslots d).

Global Instance no_overlap_dec d : Decision (no_overlap d).
Proof. unfold no_overlap. apply _. Defined.

(** The required columns of a booking and of a slot hold text, and an
    optional column holds NULL or text. *)
Definition filled_booking (b : booking) : Prop :=
  b_timeslot_id b ≠ "" ∧ full_name b ≠ "" ∧ email b ≠ ""
  ∧ phone b ≠ Some "" ∧ appointment_notes b ≠ Some "".

Definition filled_slot (t : timeslot) : Prop :=
  slot_date t ≠ "" ∧ start_time t ≠ "" ∧ end_time t ≠ "".

Definition filled (d : db) : Prop :=
  map_Forall (λ _ b, filled_booking b) (bookings d)
  ∧ map_Forall (λ _ t, filled_slot t) (timeslots d).

Global Instance filled_dec d : Decision (filled d).
Proof. unfold filled, filled_booking, filled_slot. apply _. Defined.

Fixpoint no_space (s : string) : bool :=
  match s with
  | EmptyString => true
  | String c s' => negb (Ascii.eqb c " ") && no_space s'
  end.

(** * Statements as the server's database answers them

    Beyond the constraints of db.sql, a statement raises when one of its
    text parameters holds U+0000, and any awaited database call can be
    rejected for a reason outside the tables (a lost connection, a
    timeout).  [faults] tells, for the database calls of one request in the
    order they are awaited, which are rejected that way; calls beyond the
    list are not.  A call that raises has no effect on the database; an
    [io.emit] is not a database call. *)

(** The text parameters of a statement (for [UPDATE bookings] and [INSERT
    INTO bookings], with the status the handler writes). *)
Definition text_params {X} (c : cmd X) : list string :=
  match c with
  | Begin | Commit | Rollback | Emit _ => []
  | SelectTimeslot _ id | SelectBooking _ id => [id]
  | UpdateIsBooked id _ => [id]
  | UpdateStatus st id => [st; id]
  | InsertBooking id b =>
    [id; b_timeslot_id b; full_name b; email b;
     default "" (phone b); default "" (appointment_notes b);
     booking_status b; created_at b]
  | CountCreateConflicts date s e => [date; s; e]
  | CountEditConflicts date id s e => [date; id; s; e]
  | InsertTimeslot id t => [id; slot_date t; start_time t; end_time t]
  | UpdateTimes s e id => [s; e; id]
  | CountBookings id st => [id; st]
  | DeleteTimeslot id => [id]
  | CalendarQuery pattern => [pattern]
  end.

Definition accepted {X} (c : cmd X) : bool :=
  forallb valid_text (text_params c).

Definition awaited {X} (c : cmd X) : bool :=
  match c with
  | Emit _ => false
  | _ => true
  end.

(** One call: [None] when it is rejected, refused for a parameter, or
    violates a constraint. *)
Definition exec_pg {X} (c : cmd X) (fault : bool) (w : conn)
    : option (X * conn) :=
  if fault || negb (accepted c) then None else exec c w.

Definition fault_now (faults : list bool) : bool :=
  match faults with
  | fault :: _ => fault
  | [] => false
  end.

(** Run a program under [faults]; the result holds the faults left. *)
Fixpoint run_pg {R} (p : prog R) (faults : list bool) (w : conn)
    : option R * conn * list bool :=
  match p with
  | Ret r => (Some r, w, faults)
  | Op c k =>
    let rest := if awaited c then tail faults else faults in
    match exec_pg c (awaited c && fault_now faults) w with
    | Some (x, w') => run_pg (k x) rest w'
    | None => (None, w, rest)
    end
  | Try body handler =>
    match run_pg body faults w with
    | (Some r, w', rest) => (Some r, w', rest)
    | (None, w', rest) => run_pg handler rest w'
    end
  end.

(** The two handlers that run a transaction await [pool.connect()] before
    their [try] (after the check of the required fields, for a booking):
    when that call is rejected the exception escapes the handler. *)
Definition uses_client (r : request) : bool :=
  match r with
  | CreateBooking _ _ _ | CancelBooking _ => true
  | _ => false
  end.

Definition answered_at_once {R} (p : prog R) : bool :=
  match p with
  | Ret _ => true
  | _ => false
  end.

(** Serve a request; [connected] tells whether [pool.connect()] succeeds.
    The answer is [None] when an exception escapes the handler. *)
Definition serve_pg (connected : bool) (faults : list bool) (r : request)
    (d : db) : option response * conn :=
  if uses_client r && negb (answered_at_once (handler r)) && negb connected
  then (None, fresh_conn d)
  else (run_pg (handler r) faults (fresh_conn d)).1.

(** What other connections read: the state saved by BEGIN while a
    transaction is open. *)
Definition committed_db (w : conn) : db := default (store w) (snapshot w).

(** Every string the tables hold is valid text. *)
Definition valid_slot (t : timeslot) : bool :=
  valid_text (slot_date t) && valid_text (start_time t)
  && valid_text (end_time t).

Definition valid_row (b : booking) : bool :=
  valid_text (b_timeslot_id b) && valid_text (full_name b)
  && valid_text (email b) && valid_text (default "" (phone b))
  && valid_text (default "" (appointment_notes b))
  && valid_text (booking_status b) && valid_text (created_at b).

Definition valid_db (d : db) : Prop :=
  map_Forall (λ id t, valid_text id = true ∧ valid_slot t = true) (timeslots d)
  ∧ map_Forall (λ id b, valid_text id = true ∧ valid_row b = true) (bookings d).

Global Instance valid_db_dec d : Decision (valid_db d).
Proof. unfold valid_db. apply _. Defined.

Definition valid_conn (w : conn) : Prop :=
  valid_db (store w) ∧ from_option valid_db True (snapshot w).

(** The strings of a request that reach a statement are valid text. *)
Definition valid_request (r : request) : bool :=
  match r with
  | CreateBooking rq uuid now => valid_booking_request rq uuid now
  | CancelBooking id => valid_text id
  | CreateSlot rq uuid => valid_timeslot_request rq && valid_text uuid
  | EditSlot id rq =>
    valid_text id && valid_field (rq_start_time rq)
    && valid_field (rq_end_time rq)
  | DeleteSlot id => valid_text id
  | GetCalendar month year => valid_field month && valid_field year
  end.

(** States the server can reach: the seeded database, and what a request
    leaves committed, whatever its parameters and whichever calls are
    rejected. *)
Inductive reachable_pg : db → Prop :=
| reach_pg_seed : reachable_pg seed_db
| reach_pg_serve connected faults r d :
    reachable_pg d →
    reachable_pg (committed_db (serve_pg connected faults r d).2).

(** Every command the sequential run of [p] performs is accepted. *)
Fixpoint accepted_run {R} (p : prog R) (w : conn) : bool :=
  match p with
  | Ret _ => true
  | Op c k =>
    accepted c
    && match exec c w with
       | Some (x, w') => accepted_run (k x) w'
       | None => true
       end
  | Try body handler =>
    accepted_run body w
    && match run body w with
       | (Some _, _) => true
       | (None, w') => accepted_run handler w'
       end
  end.

(** ** The read-only routes under the same semantics

    GET /api/timeslots and GET /api/admin/bookings send one query inside
    [try]; their catch block answers "Internal server error".  [fault]
    tells whether the query is rejected. *)
Definition get_timeslots_pg (fault : bool) (slot_date : option string)
    (d : db) : result (list (string * timeslot)) :=
  if negb (truthy slot_date)
  then Failure 400 "Missing slot_date query parameter"
  else if fault || negb (valid_text (text slot_date))
  then Failure 500 "Internal server error"
  else Json (select_by_date (text slot_date) d).

(** The query has a parameter only when [slot_date] is truthy. *)
Definition get_admin_bookings_pg (fault : bool) (slot_date : option string)
    (d : db) : result (list booking_row) :=
  if fault || (truthy slot_date && negb (valid_text (text slot_date)))
  then Failure 500 "Internal server error"
  else Json (get_admin_bookings slot_date d).

(** * Properties *)

(** ** Sanity checks on the seed data *)

Example seed_lookup : timeslots seed_db !! "ts2"
  = Some (Timeslot "2023-10-15" "09:30" "10:00" false).
Proof. vm_compute. reflexivity. Qed.

Example calendar_query_seed :
  calendar_query "2023-10-%" seed_db
  = [("2023-10-15", 4, 2); ("2023-10-16", 3, 0)].
Proof. vm_compute. reflexivity. Qed.

Example delete_timeslot_seed : delete_timeslot "ts7" seed_db = None.
Proof. vm_compute. reflexivity. Qed.

Example book_ts2 :
  response_of (CreateBooking jane "u1" "t1") seed_db
  = Some (Response 200 (BookingConfirmed "u1"
       (BookingDetails "ts2" "Jane Doe" "jane@x.com" "2023-10-15"
          "09:30" "10:00"))).
Proof. vm_compute. reflexivity. Qed.

Example rebook_ts2 :
  response_of (CreateBooking jane "u2" "t2")
    (db_after (CreateBooking jane "u1" "t1") seed_db)
  = Some (reply 400 "Timeslot already booked").
Proof. vm_compute. reflexivity. Qed.

(** ** The TEXT order *)


Lemma ascii_compare_cases (a b : ascii) :
  (Ascii.compare a b = Eq ∧ a = b)
  ∨ (Ascii.compare a b = Lt ∧ (N_of_ascii a < N_of_ascii b)%N)
  ∨ (Ascii.compare a b = Gt ∧ (N_of_ascii b < N_of_ascii a)%N).
Proof.
  unfold Ascii.compare.
  destruct (N.compare_spec (N_of_ascii a) (N_of_ascii b)) as [Heq|Hlt|Hgt].
  - left. split; [done|].
    by rewrite <- (ascii_N_embedding a), <- (ascii_N_embedding b), Heq.
  - right. left. done.
  - right. right. done.
Qed.

Lemma text_le_trans (a b c : string) :
  text_le a b = true → text_le b c = true → text_le a c = true.
Proof.
  unfold text_le, String.leb. revert b c.
  induction a as [|x a IH]; intros [|y b] [|z c]; simpl; try done.
  destruct (ascii_compare_cases x y) as [[-> ->]|[[-> Hxy]|[-> Hxy]]];
    destruct (ascii_compare_cases y z) as [[Hyz' ->]|[[Hyz' Hyz]|[Hyz' Hyz]]];
    rewrite ?Hyz'; try done.
  - apply IH.
  - intros _ _.
    destruct (ascii_compare_cases x z) as [[_ ->]|[[-> _]|[_ Hxz]]];
      [lia|done|lia].
  - intros _ _.
    destruct (ascii_compare_cases x z) as [[_ ->]|[[-> _]|[_ Hxz]]];
      [lia|done|lia].
Qed.

Lemma text_le_total (a b : string) : text_le a b = true ∨ text_le b a = true.
Proof. apply String.leb_total. Qed.

Lemma text_le_lt (a b : string) :
  text_le a b = true → a ≠ b → text_lt a b = true.
Proof.
  unfold text_le, text_lt, String.leb, String.ltb.
  destruct (String.compare a b) eqn:Hc; try done.
  intros _ Hne. by apply String.compare_eq_iff in Hc.
Qed.

Global Instance text_le_transitive :
  Transitive (λ a b : string, Is_true (text_le a b)).
Proof.
  intros a b c Hab Hbc. apply Is_true_true.
  eapply text_le_trans; by apply Is_true_true.
Qed.

Global Instance text_le_is_total :
  Total (λ a b : string, Is_true (text_le a b)).
Proof.
  intros a b. destruct (text_le_total a b); [left|right];
    by apply Is_true_true.
Qed.

(** ** rowCount of a filtering query *)

Lemma size_filter_pos {A} (P : string * A → Prop) `{!∀ x, Decision (P x)}
    (m : gmap string A) :
  (0 <? size (filter P m))%nat = true ↔ ∃ k v, m !! k = Some v ∧ P (k, v).
Proof.
  rewrite Nat.ltb_lt. split.
  - intros Hpos.
    destruct (decide (filter P m = ∅)) as [Hemp|Hne].
    + rewrite Hemp, map_size_empty in Hpos. lia.
    + apply map_choose in Hne as (k & v & Hkv).
      apply map_lookup_filter_Some in Hkv as [Hkv HP]. eauto.
  - intros (k & v & Hkv & HP).
    assert (Hin : filter P m !! k = Some v)
      by (apply map_lookup_filter_Some; done).
    destruct (decide (size (filter P m) = 0)) as [Hz|Hz]; [|lia].
    apply map_size_empty_iff in Hz. rewrite Hz in Hin.
    by rewrite lookup_empty in Hin.
Qed.

Lemma size_filter_zero {A} (P : string * A → Prop) `{!∀ x, Decision (P x)}
    (m : gmap string A) :
  (0 <? size (filter P m))%nat = false ↔ ∀ k v, m !! k = Some v → ¬ P (k, v).
Proof.
  rewrite <- not_true_iff_false, size_filter_pos. split.
  - intros Hno k v Hkv HP. apply Hno. eauto.
  - intros Hall (k & v & Hkv & HP). by apply (Hall k v).
Qed.

(** ** C2: the overlap check *)

Lemma overlaps_iff (s1 e1 : string) (t : timeslot) :
  overlaps s1 e1 t = true
  ↔ text_lt s1 (end_time t) = true ∧ text_lt (start_time t) e1 = true.
Proof. unfold overlaps. rewrite andb_true_iff. tauto. Qed.

Lemma create_conflict_iff (date s1 e1 id : string) (t : timeslot) :
  create_conflict date s1 e1 (id, t) = true
  ↔ slot_date t = date
    ∧ text_lt s1 (end_time t) = true ∧ text_lt (start_time t) e1 = true.
Proof.
  unfold create_conflict; simpl.
  rewrite andb_true_iff, bool_decide_eq_true, overlaps_iff. tauto.
Qed.

Lemma edit_conflict_iff (date edited s1 e1 id : string) (t : timeslot) :
  edit_conflict date edited s1 e1 (id, t) = true
  ↔ slot_date t = date ∧ id ≠ edited
    ∧ text_lt s1 (end_time t) = true ∧ text_lt (start_time t) e1 = true.
Proof.
  unfold edit_conflict; simpl.
  rewrite !andb_true_iff, !bool_decide_eq_true, overlaps_iff. tauto.
Qed.


(** ** C3: CreateBooking *)

Ltac run_cbn :=
  cbn [serve handler run exec store snapshot log fresh_conn
       response_of db_after events_of fst snd default from_option
       timeslots bookings update_is_booked update_status update_times
       b_timeslot_id booking_status app].

Ltac run_step := run_cbn; unfold write, read; run_cbn.

Lemma truthy_text (v : option string) : truthy v = true → v = Some (text v).
Proof.
  destruct v as [s|]; simpl; [|done].
  unfold text, or_else. destruct (String.eqb s ""); [done|done].
Qed.




(** ** What a request can do to the database

    Every handler, whatever it answers, leaves the database unchanged or
    performs one of five changes. *)
Inductive transition (d : db) : db → Prop :=
| t_none : transition d d
| t_book id t uuid b :
    timeslots d !! id = Some t → is_booked t = false →
    bookings d !! uuid = None →
    b_timeslot_id b = id → booking_status b = "active" →
    transition d (Db (alter (set_booked true) id (timeslots d))
                     (<[uuid := b]> (bookings d)))
| t_cancel id b :
    bookings d !! id = Some b → booking_status b ≠ "canceled" →
    transition d (Db (alter (set_booked false) (b_timeslot_id b) (timeslots d))
                     (alter (set_status "canceled") id (bookings d)))
| t_create uuid t :
    timeslots d !! uuid = None → is_booked t = false →
    transition d (Db (<[uuid := t]> (timeslots d)) (bookings d))
| t_edit id s e :
    transition d (Db (alter (set_times s e) id (timeslots d)) (bookings d))
| t_delete id :
    referencing id d = ∅ →
    transition d (Db (delete id (timeslots d)) (bookings d)).

Lemma db_eta (d : db) : Db (timeslots d) (bookings d) = d.
Proof. by destruct d. Qed.

Lemma serve_transition (r : request) (d : db) : transition d (db_after r d).
Proof.
  destruct r as [rq uuid now|id|rq uuid|id rq|id|month year];
    unfold db_after, serve, handler.
  - unfold post_bookings.
    destruct (negb _ || _ || _); [run_step; constructor|].
    run_step.
    destruct (timeslots d !! _) as [t|] eqn:Ht; [|run_step; constructor].
    destruct (is_booked t) eqn:Hb; [run_step; constructor|].
    run_step. unfold insert_booking. run_step.
    destruct (bookings d !! uuid) eqn:Hu; [run_step; constructor|].
    rewrite lookup_alter_eq, Ht. cbn [fmap option_fmap option_map].
    run_step. by eapply t_book.
  - unfold put_cancel. run_step.
    destruct (bookings d !! id) as [b|] eqn:Hb; [|run_step; constructor].
    destruct (String.eqb (booking_status b) "canceled") eqn:Hc;
      [run_step; constructor|].
    run_step. apply String.eqb_neq in Hc.
    destruct (alter _ _ _ !! _); run_step;
      unfold update_is_booked, update_status; cbn [timeslots bookings];
      by eapply t_cancel.
  - unfold post_admin_timeslots.
    destruct (negb _ || _ || _); [run_step; constructor|].
    run_step. destruct (0 <? _)%nat; [run_step; constructor|].
    run_step. unfold insert_timeslot.
    destruct (timeslots d !! uuid) eqn:Hu; run_step; [constructor|].
    by apply t_create.
  - unfold put_admin_timeslots.
    destruct (negb _ && _); [run_step; constructor|].
    run_step.
    destruct (timeslots d !! id) as [t|] eqn:Ht; [|run_step; constructor].
    run_step. destruct (0 <? _)%nat; [run_step; constructor|].
    run_step. apply t_edit.
  - unfold delete_admin_timeslots. run_step.
    destruct (0 <? _)%nat; [run_step; constructor|].
    run_step. unfold delete_timeslot.
    destruct (decide _) as [He|He]; run_step; [|constructor].
    by apply t_delete.
  - unfold get_calendar.
    destruct (negb _ || _); run_step; constructor.
Qed.

(** ** C1: the booked flag and the active bookings *)

Lemma seed_consistent : consistent seed_db.
Proof.
  split.
  - apply (bool_decide_unpack _). vm_compute. reflexivity.
  - apply (bool_decide_unpack _). vm_compute. reflexivity.
  - apply (bool_decide_unpack _). vm_compute. reflexivity.
  - apply (bool_decide_unpack _). vm_compute. reflexivity.
Qed.

Lemma flag_unfold (d : db) :
  booked_iff_active d
  ↔ ∀ id t, timeslots d !! id = Some t →
      (is_booked t = true
       ↔ ∃ k b, bookings d !! k = Some b ∧ b_timeslot_id b = id
                ∧ booking_status b = "active").
Proof. reflexivity. Qed.

Lemma transition_book (d : db) id t uuid b :
  consistent d →
  timeslots d !! id = Some t → is_booked t = false →
  bookings d !! uuid = None →
  b_timeslot_id b = id → booking_status b = "active" →
  consistent (Db (alter (set_booked true) id (timeslots d))
                 (<[uuid := b]> (bookings d))).
Proof.
  intros [Hflag Hone Hfk Hst] Ht Hfree Hu Hbid Hact.
  rewrite flag_unfold in Hflag.
  assert (Hnone : ∀ k b', bookings d !! k = Some b' →
            b_timeslot_id b' = id → booking_status b' = "active" → False).
  { intros k b' Hk Hs Ha.
    assert (is_booked t = true) by (apply (Hflag id t Ht); eauto).
    congruence. }
  split.
  - apply flag_unfold. cbn [timeslots bookings]. intros id' t'.
    rewrite lookup_alter. case_decide as Hid.
    + subst id'. rewrite Ht. intros [= <-]. split; [|done].
      intros _. exists uuid, b. by rewrite lookup_insert_eq.
    + intros Ht'. rewrite (Hflag id' t' Ht'). split.
      * intros (k & b' & Hk & Hs & Ha). exists k, b'.
        rewrite lookup_insert_ne; [done|]. intros ->. congruence.
      * intros (k & b' & Hk & Hs & Ha).
        rewrite lookup_insert in Hk. case_decide.
        -- injection Hk as <-. congruence.
        -- eauto.
  - intros k1 b1 Hk1 k2 b2 Hk2 Ha1 Ha2 Hsame. cbn [bookings] in *.
    rewrite lookup_insert in Hk1, Hk2.
    repeat case_decide; simplify_eq; try done;
      try (exfalso; eapply Hnone; [eassumption|congruence|assumption]).
    by eapply (Hone k1 b1 Hk1 k2 b2 Hk2).
  - intros k b' Hk. cbn [timeslots bookings] in *.
    rewrite lookup_alter_is_Some.
    rewrite lookup_insert in Hk. case_decide; simplify_eq; [by eexists|].
    by eapply Hfk.
  - intros k b' Hk. cbn [bookings] in *.
    rewrite lookup_insert in Hk. case_decide; simplify_eq; [by left|].
    by eapply Hst.
Qed.

Lemma transition_cancel (d : db) id b :
  consistent d →
  bookings d !! id = Some b → booking_status b ≠ "canceled" →
  consistent (Db (alter (set_booked false) (b_timeslot_id b) (timeslots d))
                 (alter (set_status "canceled") id (bookings d))).
Proof.
  intros [Hflag Hone Hfk Hst] Hb Hnc.
  rewrite flag_unfold in Hflag.
  assert (Hact : booking_status b = "active")
    by (destruct (Hst id b Hb); done).
  assert (Hlook : ∀ k b', alter (set_status "canceled") id (bookings d) !! k
                          = Some b' → booking_status b' = "active" →
                          k ≠ id ∧ bookings d !! k = Some b').
  { intros k b' Hk Ha. rewrite lookup_alter in Hk. case_decide; [|done].
    subst k. rewrite Hb in Hk. injection Hk as <-. done. }
  split.
  - apply flag_unfold. cbn [timeslots bookings]. intros id' t'.
    rewrite lookup_alter. case_decide as Hid.
    + subst id'. destruct (timeslots d !! b_timeslot_id b) as [t|] eqn:Ht;
        [|done].
      intros [= <-]. split; [done|].
      intros (k & b' & Hk & Hs & Ha).
      destruct (Hlook k b' Hk Ha) as [Hne Hk'].
      exfalso. apply Hne. by eapply (Hone k b' Hk' id b Hb).
    + intros Ht'. rewrite (Hflag id' t' Ht'). split.
      * intros (k & b' & Hk & Hs & Ha). exists k, b'.
        rewrite lookup_alter_ne; [done|]. intros ->. congruence.
      * intros (k & b' & Hk & Hs & Ha).
        destruct (Hlook k b' Hk Ha) as [Hne Hk']. eauto.
  - intros k1 b1 Hk1 k2 b2 Hk2 Ha1 Ha2 Hsame. cbn [bookings] in *.
    destruct (Hlook k1 b1 Hk1 Ha1) as [_ Hk1'].
    destruct (Hlook k2 b2 Hk2 Ha2) as [_ Hk2'].
    by eapply (Hone k1 b1 Hk1' k2 b2 Hk2').
  - intros k b' Hk. cbn [timeslots bookings] in *.
    rewrite lookup_alter_is_Some.
    rewrite lookup_alter in Hk. case_decide.
    + subst k. rewrite Hb in Hk. injection Hk as <-. exact (Hfk id b Hb).
    + by eapply Hfk.
  - intros k b' Hk. cbn [bookings] in *.
    rewrite lookup_alter in Hk. case_decide.
    + subst k. rewrite Hb in Hk. injection Hk as <-. by right.
    + by eapply Hst.
Qed.

Lemma transition_create (d : db) uuid t :
  consistent d →
  timeslots d !! uuid = None → is_booked t = false →
  consistent (Db (<[uuid := t]> (timeslots d)) (bookings d)).
Proof.
  intros [Hflag Hone Hfk Hst] Hu Hfree. rewrite flag_unfold in Hflag.
  split; [|done| |done].
  - apply flag_unfold. cbn [timeslots bookings]. intros id' t'.
    rewrite lookup_insert. case_decide as Hid.
    + subst id'. intros [= <-]. split; [congruence|].
      intros (k & b & Hk & Hs & Ha). destruct (Hfk k b Hk) as [t0 Ht0].
      congruence.
    + apply Hflag.
  - intros k b Hk. cbn [timeslots bookings] in *.
    rewrite lookup_insert. case_decide; [by eexists|]. by eapply Hfk.
Qed.

Lemma transition_edit (d : db) id s e :
  consistent d →
  consistent (Db (alter (set_times s e) id (timeslots d)) (bookings d)).
Proof.
  intros [Hflag Hone Hfk Hst]. rewrite flag_unfold in Hflag.
  split; [|done| |done].
  - apply flag_unfold. cbn [timeslots bookings]. intros id' t'.
    rewrite lookup_alter. case_decide as Hid; [|apply Hflag].
    subst id'. destruct (timeslots d !! id) as [t|] eqn:Ht; [|done].
    intros [= <-]. exact (Hflag id t Ht).
  - intros k b Hk. cbn [timeslots bookings] in *.
    rewrite lookup_alter_is_Some. by eapply Hfk.
Qed.

Lemma transition_delete (d : db) id :
  consistent d →
  referencing id d = ∅ →
  consistent (Db (delete id (timeslots d)) (bookings d)).
Proof.
  intros [Hflag Hone Hfk Hst] Hnoref. rewrite flag_unfold in Hflag.
  split; [|done| |done].
  - apply flag_unfold. cbn [timeslots bookings]. intros id' t'.
    rewrite lookup_delete. case_decide; [done|]. apply Hflag.
  - intros k b Hk. cbn [timeslots bookings] in *.
    rewrite lookup_delete_ne; [by eapply Hfk|].
    intros Heq. unfold referencing in Hnoref.
    apply map_empty_filter_1 in Hnoref. by apply (Hnoref k b Hk).
Qed.

Lemma transition_consistent (d d' : db) :
  consistent d → transition d d' → consistent d'.
Proof.
  intros Hc Htr. destruct Htr.
  - done.
  - by eapply transition_book.
  - by eapply transition_cancel.
  - by eapply transition_create.
  - by eapply transition_edit.
  - by eapply transition_delete.
Qed.

Lemma reachable_consistent (d : db) : reachable d → consistent d.
Proof.
  induction 1 as [|r d Hd IH]; [exact seed_consistent|].
  eapply transition_consistent; [exact IH|apply serve_transition].
Qed.

(** C1. In every state reachable from the seeded database by serving
    requests, a slot's [is_booked] flag is true exactly when some booking
    with status 'active' references the slot, and serving any further
    request (booking, cancellation, slot creation, edit or deletion) leaves
    a state where this holds again. *)
Theorem booked_flag_invariant (d : db) :
  reachable d →
  (∀ id t, timeslots d !! id = Some t →
     (is_booked t = true
      ↔ ∃ k b, bookings d !! k = Some b ∧ b_timeslot_id b = id
               ∧ booking_status b = "active"))
  ∧ ∀ r, booked_iff_active (db_after r d).
Proof.
  intros Hd. split.
  - apply flag_unfold, reachable_consistent, Hd.
  - intros r. apply (reachable_consistent (db_after r d)).
    by apply reach_serve.
Qed.

Lemma booked_flag_invariant_witness :
  reachable (db_after (CreateBooking jane "u1" "t1") seed_db)
  ∧ booked_iff_active
      (db_after (CancelBooking "u1")
         (db_after (CreateBooking jane "u1" "t1") seed_db)).
Proof.
  split; [exact (reach_serve _ _ reach_seed)|].
  exact (proj2 (booked_flag_invariant _ (reach_serve _ _ reach_seed))
           (CancelBooking "u1")).
Defined.

(** ** C4: CancelBooking *)

Lemma canceled_row_stays (d d' : db) (id : string) (b : booking) :
  transition d d' →
  bookings d !! id = Some b → booking_status b = "canceled" →
  bookings d' !! id = Some b.
Proof.
  intros Htr Hb Hc. destruct Htr; cbn [bookings]; try done.
  - rewrite lookup_insert_ne; [done|]. intros ->. congruence.
  - rewrite lookup_alter_ne; [done|]. intros ->. congruence.
Qed.

Lemma canceled_row_stays_all (rs : list request) (d : db) id b :
  bookings d !! id = Some b → booking_status b = "canceled" →
  bookings (serve_all rs d) !! id = Some b.
Proof.
  revert d. induction rs as [|r rs IH]; intros d Hb Hc; [done|].
  cbn [serve_all foldl]. apply IH; [|done].
  eapply canceled_row_stays; [apply serve_transition|done|done].
Qed.

Lemma cancel_canceled (id : string) (d : db) (b : booking) :
  bookings d !! id = Some b → booking_status b = "canceled" →
  response_of (CancelBooking id) d
  = Some (reply 400 "Booking is already canceled")
  ∧ db_after (CancelBooking id) d = d
  ∧ events_of (CancelBooking id) d = [Began; RolledBack].
Proof.
  intros Hb Hc.
  unfold response_of, db_after, events_of, serve, handler, put_cancel.
  run_step. rewrite Hb, Hc. run_step. done.
Qed.

Lemma cancel_active (id : string) (d : db) (b : booking) :
  bookings d !! id = Some b → booking_status b = "active" →
  response_of (CancelBooking id) d
  = Some (reply 200 "Booking canceled and timeslot updated successfully")
  ∧ db_after (CancelBooking id) d
    = Db (alter (set_booked false) (b_timeslot_id b) (timeslots d))
         (<[id := set_status "canceled" b]> (bookings d)).
Proof.
  intros Hb Hact.
  assert (Hins : alter (set_status "canceled") id (bookings d)
                 = <[id := set_status "canceled" b]> (bookings d)).
  { apply map_eq. intros k. rewrite lookup_alter, lookup_insert.
    case_decide; [subst; by rewrite Hb|done]. }
  rewrite <- Hins.
  unfold response_of, db_after, serve, handler, put_cancel.
  run_step. rewrite Hb, Hact. cbn [String.eqb Ascii.eqb Bool.eqb].
  run_step. destruct (alter _ _ _ !! _); run_step; done.
Qed.

(** C4. For a booking id that is valid text, CancelBooking answers
    "Booking not found" when no booking has the id; when the status is
    already 'canceled' it answers "Booking is already canceled" and rolls
    back without changing the database or emitting; when the status is
    'active' it answers 200, the booking's status becomes 'canceled' with
    its other columns kept, the referenced slot's [is_booked] becomes false
    with its date and times kept, no other slot changes, and from then on,
    whatever requests are served in between, cancelling the same id again
    answers "Booking is already canceled" and changes nothing. *)
Theorem cancel_booking_outcomes (id : string) (d : db) :
  valid_text id = true →
  (bookings d !! id = None →
     response_of (CancelBooking id) d = Some (reply 400 "Booking not found")
     ∧ db_after (CancelBooking id) d = d
     ∧ events_of (CancelBooking id) d = [Began; RolledBack])
  ∧ (∀ b, bookings d !! id = Some b → booking_status b = "canceled" →
     response_of (CancelBooking id) d
     = Some (reply 400 "Booking is already canceled")
     ∧ db_after (CancelBooking id) d = d
     ∧ events_of (CancelBooking id) d = [Began; RolledBack])
  ∧ (∀ b, bookings d !! id = Some b → booking_status b = "active" →
     response_of (CancelBooking id) d
     = Some (reply 200 "Booking canceled and timeslot updated successfully")
     ∧ bookings (db_after (CancelBooking id) d)
       = <[id := Booking (b_timeslot_id b) (full_name b) (email b) (phone b)
                   (appointment_notes b) "canceled" (created_at b)]>
           (bookings d)
     ∧ (∀ t, timeslots d !! b_timeslot_id b = Some t →
          timeslots (db_after (CancelBooking id) d) !! b_timeslot_id b
          = Some (Timeslot (slot_date t) (start_time t) (end_time t) false))
     ∧ (∀ k, k ≠ b_timeslot_id b →
          timeslots (db_after (CancelBooking id) d) !! k = timeslots d !! k)
     ∧ ∀ rs,
         let d' := serve_all rs (db_after (CancelBooking id) d) in
         response_of (CancelBooking id) d'
         = Some (reply 400 "Booking is already canceled")
         ∧ db_after (CancelBooking id) d' = d').
Proof.
  intros _. split; [|split].
  - intros Hnone.
    unfold response_of, db_after, events_of, serve, handler, put_cancel.
    run_step. rewrite Hnone. run_step. done.
  - apply cancel_canceled.
  - intros b Hb Hact.
    destruct (cancel_active id d b Hb Hact) as [Hresp Hdb].
    rewrite Hdb. cbn [bookings timeslots].
    split; [exact Hresp|]. split; [reflexivity|]. split; [|split].
    + intros t Ht. by rewrite lookup_alter_eq, Ht.
    + intros k Hk. by rewrite lookup_alter_ne.
    + intros rs. set (d' := serve_all rs _).
      assert (Hrow : bookings d' !! id = Some (set_status "canceled" b)).
      { apply canceled_row_stays_all; [|done]. cbn [bookings].
        by rewrite lookup_insert_eq. }
      destruct (cancel_canceled id d' _ Hrow eq_refl) as (? & ? & _). done.
Qed.

Lemma cancel_booking_outcomes_witness :
  response_of (CancelBooking "booking1") seed_db
  = Some (reply 200 "Booking canceled and timeslot updated successfully")
  ∧ timeslots (db_after (CancelBooking "booking1") seed_db) !! "ts1"
    = Some (Timeslot "2023-10-15" "09:00" "09:30" false)
  ∧ bookings (db_after (CancelBooking "booking1") seed_db) !! "booking1"
    = Some (Booking "ts1" "Alice Johnson" "alice.johnson@gmail.com"
              (Some "555-1234") (Some "Consultation appointment") "canceled"
              "2023-10-15 08:55:00")
  ∧ response_of (CancelBooking "booking1")
      (serve_all [CreateBooking jane "u1" "t1"]
         (db_after (CancelBooking "booking1") seed_db))
    = Some (reply 400 "Booking is already canceled").
Proof.
  destruct (cancel_booking_outcomes "booking1" seed_db eq_refl)
    as (_ & _ & H).
  destruct (H (Booking "ts1" "Alice Johnson" "alice.johnson@gmail.com"
                 (Some "555-1234") (Some "Consultation appointment") "active"
                 "2023-10-15 08:55:00")) as (Hr & Hbs & Hslot & _ & Hagain).
  - vm_compute. reflexivity.
  - reflexivity.
  - split; [exact Hr|]. split.
    { apply (Hslot (Timeslot "2023-10-15" "09:00" "09:30" true)).
      vm_compute. reflexivity. }
    split; [vm_compute; reflexivity|].
    exact (proj1 (Hagain [CreateBooking jane "u1" "t1"])).
Defined.

(** ** C5: deleting a slot *)

Lemma delete_refused_while_active (sid : string) (d : db) :
  (∃ k b, bookings d !! k = Some b ∧ b_timeslot_id b = sid
          ∧ booking_status b = "active") →
  response_of (DeleteSlot sid) d
  = Some (reply 400 "Cannot delete timeslot with active booking")
  ∧ db_after (DeleteSlot sid) d = d
  ∧ events_of (DeleteSlot sid) d = [].
Proof.
  intros (k & b & Hk & Hs & Ha).
  unfold response_of, db_after, events_of, serve, handler,
    delete_admin_timeslots.
  run_step. unfold count_bookings.
  assert (Hpos : (0 <? size (filter
            (λ row : string * booking,
               b_timeslot_id row.2 = sid ∧ booking_status row.2 = "active")
            (bookings d)))%nat = true).
  { apply size_filter_pos. exists k, b. done. }
  rewrite Hpos. run_step. done.
Qed.

Lemma delete_raises_while_referenced (sid : string) (d : db) :
  (∃ k b, bookings d !! k = Some b ∧ b_timeslot_id b = sid) →
  (∀ k b, bookings d !! k = Some b → b_timeslot_id b = sid →
          booking_status b ≠ "active") →
  response_of (DeleteSlot sid) d = Some internal_error
  ∧ db_after (DeleteSlot sid) d = d
  ∧ events_of (DeleteSlot sid) d = [].
Proof.
  intros (k & b & Hk & Hs) Hnoact.
  unfold response_of, db_after, events_of, serve, handler,
    delete_admin_timeslots.
  run_step. unfold count_bookings.
  assert (Hz : (0 <? size (filter
            (λ row : string * booking,
               b_timeslot_id row.2 = sid ∧ booking_status row.2 = "active")
            (bookings d)))%nat = false).
  { apply size_filter_zero. intros k' b' Hk' [Hs' Ha'].
    by apply (Hnoact k' b' Hk'). }
  rewrite Hz. run_step. unfold delete_timeslot.
  destruct (decide (referencing sid d = ∅)) as [He|He]; run_step; [|done].
  exfalso. unfold referencing in He.
  apply map_empty_filter_1 in He. by apply (He k b Hk).
Qed.

(** C5, on the code.  In a reachable state, a slot [sid] referenced by an
    active booking [k] cannot be deleted: the handler answers "Cannot delete
    timeslot with active booking" and the slot stays.  Once that booking has
    been canceled the same deletion still does not succeed: the canceled
    row keeps referencing the slot, the DELETE statement violates
    [fk_timeslot], and the handler answers "Internal server error" with the
    slot still in place. *)
Theorem delete_after_cancel_raises (k : string) (b : booking) (d : db) :
  reachable d →
  bookings d !! k = Some b → booking_status b = "active" →
  (response_of (DeleteSlot (b_timeslot_id b)) d
   = Some (reply 400 "Cannot delete timeslot with active booking")
   ∧ db_after (DeleteSlot (b_timeslot_id b)) d = d)
  ∧ (response_of (DeleteSlot (b_timeslot_id b))
       (db_after (CancelBooking k) d)
     = Some internal_error
     ∧ db_after (DeleteSlot (b_timeslot_id b)) (db_after (CancelBooking k) d)
       = db_after (CancelBooking k) d
     ∧ is_Some (timeslots (db_after (CancelBooking k) d)
                !! b_timeslot_id b)).
Proof.
  intros Hreach Hk Hact.
  pose proof (reachable_consistent d Hreach) as Hc.
  split.
  { destruct (delete_refused_while_active (b_timeslot_id b) d)
      as (? & ? & _); [by exists k, b|done]. }
  destruct (cancel_active k d b Hk Hact) as [_ Hdb].
  assert (Hbs : bookings (db_after (CancelBooking k) d)
                = <[k := set_status "canceled" b]> (bookings d))
    by (by rewrite Hdb).
  clear Hdb. set (d' := db_after (CancelBooking k) d) in *.
  assert (Hc' : consistent d').
  { apply reachable_consistent. by apply reach_serve. }
  assert (Hrow : bookings d' !! k = Some (set_status "canceled" b))
    by (by rewrite Hbs, lookup_insert_eq).
  destruct (delete_raises_while_referenced (b_timeslot_id b) d')
    as (Hr & Hd & _).
  - exists k, (set_status "canceled" b). done.
  - intros k' b' Hk' Hs' Ha'.
    rewrite Hbs, lookup_insert in Hk'. case_decide.
    + injection Hk' as <-. done.
    + assert (k' = k); [|done].
      eapply (c_one d Hc k' b' Hk' k b Hk); done.
  - split; [done|]. split; [done|].
    exact (c_fk d' Hc' k _ Hrow).
Qed.

Lemma delete_after_cancel_raises_witness :
  response_of (DeleteSlot "ts1") seed_db
  = Some (reply 400 "Cannot delete timeslot with active booking")
  ∧ response_of (DeleteSlot "ts1") (db_after (CancelBooking "booking1") seed_db)
    = Some internal_error.
Proof.
  destruct (delete_after_cancel_raises "booking1"
              (Booking "ts1" "Alice Johnson" "alice.johnson@gmail.com"
                 (Some "555-1234") (Some "Consultation appointment") "active"
                 "2023-10-15 08:55:00") seed_db reach_seed)
    as [[H1 _] [H2 _]].
  - vm_compute. reflexivity.
  - reflexivity.
  - split; [exact H1|exact H2].
Defined.

(** ** C7: events and the commit *)

Lemma log_rolled_back :
  emitted_after_commit [Began; RolledBack]
  ∧ nothing_emitted [Began; RolledBack].
Proof.
  split.
  - intros [|[|[|i]]] e H; simplify_eq/=.
  - intros e H. repeat (apply elem_of_cons in H as [H|H]; [done|]).
    by apply elem_of_nil in H.
Qed.

Lemma log_two_events (e1 e2 : event) :
  emitted_after_commit [Began; Committed; Emitted e1; Emitted e2].
Proof.
  intros [|[|[|[|i]]]] e H; simplify_eq/=; exists 1; (split; [lia|done]).
Qed.

Lemma log_one_event (e1 : event) :
  emitted_after_commit [Began; Committed; Emitted e1].
Proof.
  intros [|[|[|i]]] e H; simplify_eq/=; exists 1; (split; [lia|done]).
Qed.

Lemma create_booking_log (rq : booking_request) (uuid now : string) (d : db) :
  let r := CreateBooking rq uuid now in
  ((events_of r d = [] ∨ events_of r d = [Began; RolledBack])
   ∧ succeeded (response_of r d) = false ∧ db_after r d = d)
  ∨ (∃ t, timeslots d !! text (rq_timeslot_id rq) = Some t
       ∧ events_of r d
         = [Began; Committed;
            Emitted (timeslot_update (text (rq_timeslot_id rq))
                       (set_booked true t));
            Emitted (booking_update uuid (text (rq_timeslot_id rq))
                       "active")]
       ∧ succeeded (response_of r d) = true).
Proof.
  cbn zeta.
  unfold response_of, db_after, events_of, serve, handler, post_bookings.
  destruct (negb _ || _ || _); [run_step; left; by eauto|].
  run_step.
  destruct (timeslots d !! _) as [t|] eqn:Ht; [|run_step; left; by eauto].
  destruct (is_booked t) eqn:Hb; [run_step; left; by eauto|].
  run_step. unfold insert_booking. run_step.
  destruct (bookings d !! uuid) eqn:Hu; [run_step; left; by eauto|].
  rewrite lookup_alter_eq, Ht. cbn [fmap option_fmap option_map].
  run_step. right. exists t. done.
Qed.

Lemma cancel_booking_log (id : string) (d : db) :
  let r := CancelBooking id in
  (events_of r d = [Began; RolledBack]
   ∧ succeeded (response_of r d) = false ∧ db_after r d = d)
  ∨ (∃ b, bookings d !! id = Some b
       ∧ events_of r d
         = ([Began; Committed;
             Emitted (booking_update id (b_timeslot_id b) "canceled")]
            ++ match timeslots (db_after r d) !! b_timeslot_id b with
               | Some row => [Emitted (timeslot_update (b_timeslot_id b) row)]
               | None => []
               end)%list
       ∧ succeeded (response_of r d) = true).
Proof.
  cbn zeta.
  unfold response_of, db_after, events_of, serve, handler, put_cancel.
  run_step.
  destruct (bookings d !! id) as [b|] eqn:Hb; [|run_step; left; by eauto].
  destruct (String.eqb (booking_status b) "canceled") eqn:Hc;
    [run_step; left; by eauto|].
  run_step. right. exists b. split; [done|].
  destruct (alter _ _ _ !! _) eqn:Hrow; run_step; rewrite Hrow; done.
Qed.

Lemma nothing_emitted_nil : nothing_emitted [].
Proof. intros e H. by apply elem_of_nil in H. Qed.

Lemma emitted_after_commit_nil : emitted_after_commit [].
Proof. intros i e H. by rewrite lookup_nil in H. Qed.

(** C7 as stated fails for a cancellation: on the seeded database,
    cancelling booking1 commits and then emits the booking-update event
    before the slot-update event. *)
Lemma cancel_emits_booking_update_first :
  events_of (CancelBooking "booking1") seed_db
  = [Began; Committed;
     Emitted (booking_update "booking1" "ts1" "canceled");
     Emitted (timeslot_update "ts1"
                (Timeslot "2023-10-15" "09:00" "09:30" false))]
  ∧ ¬ slot_update_first (events_of (CancelBooking "booking1") seed_db).
Proof.
  assert (Hlog : events_of (CancelBooking "booking1") seed_db
    = [Began; Committed;
       Emitted (booking_update "booking1" "ts1" "canceled");
       Emitted (timeslot_update "ts1"
                  (Timeslot "2023-10-15" "09:00" "09:30" false))])
    by (vm_compute; reflexivity).
  split; [exact Hlog|].
  rewrite Hlog. intros H.
  specialize (H 2 3 _ _ _ _ _ eq_refl eq_refl). lia.
Qed.

Lemma cancel_booking_events (id : string) (d : db) :
  fk_timeslot d →
  succeeded (response_of (CancelBooking id) d) = true →
  ∃ b t, bookings d !! id = Some b
    ∧ timeslots d !! b_timeslot_id b = Some t
    ∧ events_of (CancelBooking id) d
      = [Began; Committed;
         Emitted (booking_update id (b_timeslot_id b) "canceled");
         Emitted (timeslot_update (b_timeslot_id b)
                    (Timeslot (slot_date t) (start_time t) (end_time t)
                       false))].
Proof.
  intros Hfk.
  unfold response_of, events_of, serve, handler, put_cancel.
  run_step.
  destruct (bookings d !! id) as [b|] eqn:Hb; [|run_step; done].
  destruct (String.eqb (booking_status b) "canceled") eqn:Hc;
    [run_step; done|].
  destruct (Hfk id b Hb) as [t Ht].
  run_step. rewrite lookup_alter_eq, Ht. cbn [fmap option_fmap option_map].
  run_step. intros _. exists b, t. done.
Qed.

(** C7, amended.  A booking or cancellation request emits only after its
    COMMIT, and emits nothing when it rolled back or did not succeed.  A
    committed booking (its strings valid text) emits the slot-update event,
    carrying the slot's row with [is_booked] true, and then the
    booking-update event.  A committed cancellation (its id valid text, the
    bookings referencing existing slots as [fk_timeslot] of db.sql
    requires) emits the booking-update event and then the slot-update
    event of the booking's slot, carrying its row with [is_booked]
    false. *)
Theorem events_follow_commit (d : db) :
  (∀ rq uuid now,
     emitted_after_commit (events_of (CreateBooking rq uuid now) d)
     ∧ (RolledBack ∈ events_of (CreateBooking rq uuid now) d →
        nothing_emitted (events_of (CreateBooking rq uuid now) d))
     ∧ (succeeded (response_of (CreateBooking rq uuid now) d) = false →
        nothing_emitted (events_of (CreateBooking rq uuid now) d))
     ∧ (valid_booking_request rq uuid now = true →
        succeeded (response_of (CreateBooking rq uuid now) d) = true →
        ∃ t, timeslots d !! text (rq_timeslot_id rq) = Some t
          ∧ events_of (CreateBooking rq uuid now) d
            = [Began; Committed;
               Emitted (timeslot_update (text (rq_timeslot_id rq))
                          (Timeslot (slot_date t) (start_time t) (end_time t)
                             true));
               Emitted (booking_update uuid (text (rq_timeslot_id rq))
                          "active")]))
  ∧ (∀ id,
     emitted_after_commit (events_of (CancelBooking id) d)
     ∧ (RolledBack ∈ events_of (CancelBooking id) d →
        nothing_emitted (events_of (CancelBooking id) d))
     ∧ (succeeded (response_of (CancelBooking id) d) = false →
        nothing_emitted (events_of (CancelBooking id) d))
     ∧ (valid_text id = true → fk_timeslot d →
        succeeded (response_of (CancelBooking id) d) = true →
        ∃ b t, bookings d !! id = Some b
          ∧ timeslots d !! b_timeslot_id b = Some t
          ∧ events_of (CancelBooking id) d
            = [Began; Committed;
               Emitted (booking_update id (b_timeslot_id b) "canceled");
               Emitted (timeslot_update (b_timeslot_id b)
                          (Timeslot (slot_date t) (start_time t) (end_time t)
                             false))])).
Proof.
  split.
  - intros rq uuid now.
    destruct (create_booking_log rq uuid now d)
      as [([Hl|Hl] & Hs & _)|(t & Ht & Hl & Hs)]; rewrite Hl, Hs.
    + split; [apply emitted_after_commit_nil|].
      split; [intros _; apply nothing_emitted_nil|].
      split; [intros _; apply nothing_emitted_nil|done].
    + split; [apply log_rolled_back|].
      split; [intros _; apply log_rolled_back|].
      split; [intros _; apply log_rolled_back|done].
    + split; [apply log_two_events|].
      split.
      { intros Hin. repeat (apply elem_of_cons in Hin as [Hin|Hin]; [done|]).
        by apply elem_of_nil in Hin. }
      split; [done|]. intros _ _. exists t. done.
  - intros id.
    split; [|split; [|split]].
    4: { intros _. apply cancel_booking_events. }
    all: destruct (cancel_booking_log id d)
      as [(Hl & Hs & _)|(b & Hb & Hl & Hs)]; rewrite ?Hl, ?Hs.
    + apply log_rolled_back.
    + destruct (timeslots _ !! _); [apply log_two_events|apply log_one_event].
    + intros _; apply log_rolled_back.
    + intros Hin. destruct (timeslots _ !! _); cbn [app] in Hin;
        repeat (apply elem_of_cons in Hin as [Hin|Hin]; [done|]);
        by apply elem_of_nil in Hin.
    + intros _; apply log_rolled_back.
    + done.
Qed.

Lemma events_follow_commit_witness :
  (∃ t, timeslots seed_db !! "ts2" = Some t
     ∧ events_of (CreateBooking jane "u1" "t1") seed_db
       = [Began; Committed;
          Emitted (timeslot_update "ts2"
                     (Timeslot (slot_date t) (start_time t) (end_time t)
                        true));
          Emitted (booking_update "u1" "ts2" "active")])
  ∧ (∃ b t, bookings seed_db !! "booking1" = Some b
       ∧ timeslots seed_db !! b_timeslot_id b = Some t
       ∧ events_of (CancelBooking "booking1") seed_db
         = [Began; Committed;
            Emitted (booking_update "booking1" (b_timeslot_id b) "canceled");
            Emitted (timeslot_update (b_timeslot_id b)
                       (Timeslot (slot_date t) (start_time t) (end_time t)
                          false))]).
Proof.
  destruct (events_follow_commit seed_db) as [Hbook Hcancel].
  split.
  - destruct (Hbook jane "u1" "t1") as (_ & _ & _ & H).
    apply H; vm_compute; reflexivity.
  - destruct (Hcancel "booking1") as (_ & _ & _ & H).
    apply H; [reflexivity| |vm_compute; reflexivity].
    apply (bool_decide_unpack _). vm_compute. exact I.
Defined.

(** ** C8 and C10: creating and editing slots *)

Lemma or_else_truthy (v : option string) (x : string) :
  truthy v = true → or_else v x = text v.
Proof.
  destruct v as [s|]; simpl; [|done].
  unfold text, or_else. by destruct (String.eqb s "").
Qed.

Lemma or_else_falsy (v : option string) (x : string) :
  truthy v = false → or_else v x = x.
Proof.
  destruct v as [s|]; simpl; [|done]. by destruct (String.eqb s "").
Qed.

Lemma alter_present {A} (f : A → A) (m : gmap string A) (k : string) (x : A) :
  m !! k = Some x → alter f k m = <[k := f x]> m.
Proof.
  intros Hk. apply map_eq. intros k'.
  rewrite lookup_alter, lookup_insert.
  case_decide; [subst; by rewrite Hk|done].
Qed.

Lemma edit_run (id : string) (rq : timeslot_request) (d : db)
    (cur : timeslot) :
  truthy (rq_start_time rq) = true ∨ truthy (rq_end_time rq) = true →
  timeslots d !! id = Some cur →
  let ns := or_else (rq_start_time rq) (start_time cur) in
  let ne := or_else (rq_end_time rq) (end_time cur) in
  let r := EditSlot id rq in
  if (0 <? count_edit_conflicts (slot_date cur) id ns ne d)%nat
  then response_of r d = Some (reply 400 "Overlapping timeslot exists")
       ∧ db_after r d = d ∧ events_of r d = []
  else response_of r d = Some (reply 200 "Timeslot updated successfully")
       ∧ db_after r d
         = Db (<[id := Timeslot (slot_date cur) ns ne (is_booked cur)]>
                 (timeslots d)) (bookings d)
       ∧ events_of r d
         = [Emitted (timeslot_update id
                       (Timeslot (slot_date cur) ns ne (is_booked cur)))].
Proof.
  intros Hsome Hcur ns ne r. subst r.
  unfold response_of, db_after, events_of, serve, handler,
    put_admin_timeslots.
  assert (Hv : negb (truthy (rq_start_time rq))
               && negb (truthy (rq_end_time rq)) = false).
  { destruct Hsome as [-> | ->]; [done|by rewrite andb_false_r]. }
  rewrite Hv. run_step. rewrite Hcur. run_step. fold ns ne.
  destruct (0 <? _)%nat; run_step; [done|].
  unfold update_times. cbn [timeslots bookings].
  rewrite (alter_present _ _ _ _ Hcur). done.
Qed.

Lemma edit_conflicts_pos (date id ns ne : string) (d : db) :
  (0 <? count_edit_conflicts date id ns ne d)%nat = true
  ↔ ∃ id' t', timeslots d !! id' = Some t' ∧ id' ≠ id ∧ slot_date t' = date
       ∧ text_lt ns (end_time t') = true ∧ text_lt (start_time t') ne = true.
Proof.
  unfold count_edit_conflicts. rewrite size_filter_pos. split.
  - intros (k & t & Hk & Hc). apply Is_true_true, edit_conflict_iff in Hc.
    exists k, t. tauto.
  - intros (k & t & Hk & Hc). exists k, t. split; [done|].
    apply Is_true_true, edit_conflict_iff. tauto.
Qed.

Lemma create_conflicts_pos (date ns ne : string) (d : db) :
  (0 <? count_create_conflicts date ns ne d)%nat = true
  ↔ ∃ id' t', timeslots d !! id' = Some t' ∧ slot_date t' = date
       ∧ text_lt ns (end_time t') = true ∧ text_lt (start_time t') ne = true.
Proof.
  unfold count_create_conflicts. rewrite size_filter_pos. split.
  - intros (k & t & Hk & Hc). apply Is_true_true, create_conflict_iff in Hc.
    exists k, t. tauto.
  - intros (k & t & Hk & Hc). exists k, t. split; [done|].
    apply Is_true_true, create_conflict_iff. tauto.
Qed.

(** C8. With at least one of start/end supplied, and the id and the
    supplied times valid text, the edit answers "Timeslot not found" for an
    unknown id.  Otherwise the prospective interval takes each supplied
    time and keeps the current value of a time not supplied; the edit
    answers "Overlapping timeslot exists", changing nothing, exactly when
    some slot with another id on the slot's date (booked or not) overlaps
    the prospective interval, and otherwise stores the prospective times in
    the slot, whose date and booked flag stay. *)
Theorem edit_slot_outcomes (id : string) (rq : timeslot_request) (d : db) :
  truthy (rq_start_time rq) = true ∨ truthy (rq_end_time rq) = true →
  valid_text id = true →
  valid_field (rq_start_time rq) = true →
  valid_field (rq_end_time rq) = true →
  (timeslots d !! id = None →
     response_of (EditSlot id rq) d = Some (reply 400 "Timeslot not found")
     ∧ db_after (EditSlot id rq) d = d)
  ∧ (∀ cur, timeslots d !! id = Some cur →
     ∃ ns ne,
       (truthy (rq_start_time rq) = true → rq_start_time rq = Some ns)
       ∧ (truthy (rq_start_time rq) = false → ns = start_time cur)
       ∧ (truthy (rq_end_time rq) = true → rq_end_time rq = Some ne)
       ∧ (truthy (rq_end_time rq) = false → ne = end_time cur)
       ∧ ((∃ id' t', timeslots d !! id' = Some t' ∧ id' ≠ id
             ∧ slot_date t' = slot_date cur
             ∧ text_lt ns (end_time t') = true
             ∧ text_lt (start_time t') ne = true) →
          response_of (EditSlot id rq) d
          = Some (reply 400 "Overlapping timeslot exists")
          ∧ db_after (EditSlot id rq) d = d)
       ∧ (¬ (∃ id' t', timeslots d !! id' = Some t' ∧ id' ≠ id
               ∧ slot_date t' = slot_date cur
               ∧ text_lt ns (end_time t') = true
               ∧ text_lt (start_time t') ne = true) →
          response_of (EditSlot id rq) d
          = Some (reply 200 "Timeslot updated successfully")
          ∧ timeslots (db_after (EditSlot id rq) d)
            = <[id := Timeslot (slot_date cur) ns ne (is_booked cur)]>
                (timeslots d)
          ∧ bookings (db_after (EditSlot id rq) d) = bookings d)).
Proof.
  intros Hsome _ _ _. split.
  - intros Hnone.
    unfold response_of, db_after, serve, handler, put_admin_timeslots.
    assert (Hv : negb (truthy (rq_start_time rq))
                 && negb (truthy (rq_end_time rq)) = false).
    { destruct Hsome as [-> | ->]; [done|by rewrite andb_false_r]. }
    rewrite Hv. run_step. rewrite Hnone. run_step. done.
  - intros cur Hcur.
    exists (or_else (rq_start_time rq) (start_time cur)),
           (or_else (rq_end_time rq) (end_time cur)).
    split.
    { intros Ht. rewrite (or_else_truthy _ _ Ht). by apply truthy_text. }
    split; [apply or_else_falsy|].
    split.
    { intros Ht. rewrite (or_else_truthy _ _ Ht). by apply truthy_text. }
    split; [apply or_else_falsy|].
    pose proof (edit_run id rq d cur Hsome Hcur) as Hrun. cbn zeta in Hrun.
    pose proof (edit_conflicts_pos (slot_date cur) id
                  (or_else (rq_start_time rq) (start_time cur))
                  (or_else (rq_end_time rq) (end_time cur)) d) as Hpos.
    destruct (0 <? _)%nat.
    + split; [intros _; tauto|]. intros Hno. exfalso. apply Hno.
      by apply Hpos.
    + split.
      * intros Hex. apply Hpos in Hex. done.
      * intros _. destruct Hrun as (Hr & Hd & _). rewrite Hd. done.
Qed.

Lemma edit_slot_outcomes_witness :
  response_of (EditSlot "ts2" (TimeslotRequest None None (Some "10:15")))
    seed_db
  = Some (reply 400 "Overlapping timeslot exists")
  ∧ response_of (EditSlot "ts4" (TimeslotRequest None None (Some "10:45")))
      seed_db
    = Some (reply 200 "Timeslot updated successfully")
  ∧ timeslots
      (db_after (EditSlot "ts4" (TimeslotRequest None None (Some "10:45")))
         seed_db) !! "ts4"
    = Some (Timeslot "2023-10-15" "10:30" "10:45" false).
Proof.
  destruct (edit_slot_outcomes "ts2" (TimeslotRequest None None (Some "10:15"))
              seed_db (or_intror eq_refl) eq_refl eq_refl eq_refl) as [_ H].
  destruct (edit_slot_outcomes "ts4" (TimeslotRequest None None (Some "10:45"))
              seed_db (or_intror eq_refl) eq_refl eq_refl eq_refl) as [_ H'].
  split; [|split; [|vm_compute; reflexivity]].
  - destruct (H (Timeslot "2023-10-15" "09:30" "10:00" false))
      as (ns & ne & _ & Hns & Hne & _ & Hconf & _).
    + vm_compute. reflexivity.
    + apply Hconf.
      exists "ts3", (Timeslot "2023-10-15" "10:00" "10:30" true).
      rewrite (Hns eq_refl). injection (Hne eq_refl) as <-.
      split; [vm_compute; reflexivity|].
      split; [discriminate|]. split; [reflexivity|].
      split; vm_compute; reflexivity.
  - destruct (H' (Timeslot "2023-10-15" "10:30" "11:00" false))
      as (ns & ne & _ & Hns & Hne & _ & _ & Hfree).
    + vm_compute. reflexivity.
    + apply Hfree. rewrite (Hns eq_refl). injection (Hne eq_refl) as <-.
      apply (bool_decide_unpack _). vm_compute. exact I.
Defined.

Lemma create_run (rq : timeslot_request) (uuid : string) (d : db) :
  truthy (rq_slot_date rq) = true →
  truthy (rq_start_time rq) = true →
  truthy (rq_end_time rq) = true →
  let date := text (rq_slot_date rq) in
  let s := text (rq_start_time rq) in
  let e := text (rq_end_time rq) in
  let r := CreateSlot rq uuid in
  if (0 <? count_create_conflicts date s e d)%nat
  then response_of r d = Some (reply 400 "Overlapping timeslot exists")
       ∧ db_after r d = d
  else match timeslots d !! uuid with
       | None =>
         response_of r d = Some (Response 200 (TimeslotAdded uuid))
         ∧ db_after r d
           = Db (<[uuid := Timeslot date s e false]> (timeslots d))
                (bookings d)
       | Some _ =>
         response_of r d = Some internal_error ∧ db_after r d = d
       end.
Proof.
  intros Hd Hs He date s e r. subst r.
  unfold response_of, db_after, serve, handler, post_admin_timeslots.
  rewrite Hd, Hs, He. cbn [negb orb]. run_step. fold date s e.
  destruct (0 <? _)%nat; run_step; [done|].
  unfold insert_timeslot.
  destruct (timeslots d !! uuid); run_step; done.
Qed.

(** C10. A creation request with non-empty date, start and end, all valid
    text, whose start is not before its end is never answered with the
    missing-fields error, and it inserts the slot (under a new id) whenever
    no slot on that date has [start < new_end] and [end > new_start].  An
    edit request with both times supplied and start not before end is never
    answered with the missing-field error either, and it stores the times
    whenever no other slot on the slot's date satisfies the same test. *)
Theorem inverted_interval_not_rejected :
  (∀ rq uuid d,
     truthy (rq_slot_date rq) = true →
     truthy (rq_start_time rq) = true →
     truthy (rq_end_time rq) = true →
     valid_timeslot_request rq = true → valid_text uuid = true →
     text_lt (text (rq_start_time rq)) (text (rq_end_time rq)) = false →
     response_of (CreateSlot rq uuid) d
     ≠ Some (reply 400
               "Missing required fields: slot_date, start_time, end_time")
     ∧ ((∀ id t, timeslots d !! id = Some t →
           slot_date t = text (rq_slot_date rq) →
           ¬ (text_lt (start_time t) (text (rq_end_time rq)) = true
              ∧ text_lt (text (rq_start_time rq)) (end_time t) = true)) →
        timeslots d !! uuid = None →
        response_of (CreateSlot rq uuid) d
        = Some (Response 200 (TimeslotAdded uuid))
        ∧ timeslots (db_after (CreateSlot rq uuid) d)
          = <[uuid := Timeslot (text (rq_slot_date rq))
                        (text (rq_start_time rq)) (text (rq_end_time rq))
                        false]> (timeslots d)))
  ∧ (∀ id rq d cur,
     truthy (rq_start_time rq) = true →
     truthy (rq_end_time rq) = true →
     valid_text id = true →
     valid_field (rq_start_time rq) = true →
     valid_field (rq_end_time rq) = true →
     text_lt (text (rq_start_time rq)) (text (rq_end_time rq)) = false →
     timeslots d !! id = Some cur →
     response_of (EditSlot id rq) d
     ≠ Some (reply 400
          "At least one field (start_time or end_time) is required to update")
     ∧ ((∀ id' t, timeslots d !! id' = Some t → id' ≠ id →
           slot_date t = slot_date cur →
           ¬ (text_lt (start_time t) (text (rq_end_time rq)) = true
              ∧ text_lt (text (rq_start_time rq)) (end_time t) = true)) →
        response_of (EditSlot id rq) d
        = Some (reply 200 "Timeslot updated successfully")
        ∧ timeslots (db_after (EditSlot id rq) d)
          = <[id := Timeslot (slot_date cur) (text (rq_start_time rq))
                      (text (rq_end_time rq)) (is_booked cur)]>
              (timeslots d))).
Proof.
  split.
  - intros rq uuid d Hd Hs He _ _ Hinv.
    pose proof (create_run rq uuid d Hd Hs He) as Hrun. cbn zeta in Hrun.
    pose proof (create_conflicts_pos (text (rq_slot_date rq))
                  (text (rq_start_time rq)) (text (rq_end_time rq)) d)
      as Hpos.
    destruct (0 <? _)%nat.
    + destruct Hrun as [Hr _]. rewrite Hr. split; [done|].
      intros Hno _. exfalso.
      destruct (proj1 Hpos eq_refl) as (id' & t' & Hid' & Hdate & H1 & H2).
      by apply (Hno id' t' Hid' Hdate).
    + destruct (timeslots d !! uuid) eqn:Hu; destruct Hrun as [Hr Hdb];
        rewrite Hr; (split; [done|]); intros _ Hfresh; [done|].
      by rewrite Hdb.
  - intros id rq d cur Hs He _ _ _ Hinv Hcur.
    pose proof (edit_run id rq d cur (or_introl Hs) Hcur) as Hrun.
    cbn zeta in Hrun.
    rewrite !or_else_truthy in Hrun by done.
    pose proof (edit_conflicts_pos (slot_date cur) id
                  (text (rq_start_time rq)) (text (rq_end_time rq)) d)
      as Hpos.
    destruct (0 <? _)%nat.
    + destruct Hrun as [Hr _]. rewrite Hr. split; [done|].
      intros Hno. exfalso.
      destruct (proj1 Hpos eq_refl)
        as (id' & t' & Hid' & Hne & Hdate & H1 & H2).
      by apply (Hno id' t' Hid' Hne Hdate).
    + destruct Hrun as (Hr & Hdb & _). rewrite Hr, Hdb. done.
Qed.

Lemma inverted_interval_not_rejected_witness :
  response_of
    (CreateSlot (TimeslotRequest (Some "2023-10-15") (Some "12:00")
                   (Some "11:30")) "u9") seed_db
  = Some (Response 200 (TimeslotAdded "u9"))
  ∧ timeslots
      (db_after
         (CreateSlot (TimeslotRequest (Some "2023-10-15") (Some "12:00")
                        (Some "11:30")) "u9") seed_db) !! "u9"
    = Some (Timeslot "2023-10-15" "12:00" "11:30" false)
  ∧ response_of
      (EditSlot "ts5" (TimeslotRequest None (Some "11:20") (Some "11:10")))
      seed_db
    = Some (reply 200 "Timeslot updated successfully")
  ∧ timeslots
      (db_after
         (EditSlot "ts5" (TimeslotRequest None (Some "11:20") (Some "11:10")))
         seed_db) !! "ts5"
    = Some (Timeslot "2023-10-16" "11:20" "11:10" false).
Proof.
  destruct inverted_interval_not_rejected as [Hcreate Hedit].
  split; [|split; [vm_compute; reflexivity|split; [|vm_compute; reflexivity]]].
  - refine (proj1 (proj2 (Hcreate
      (TimeslotRequest (Some "2023-10-15") (Some "12:00") (Some "11:30"))
      "u9" seed_db eq_refl eq_refl eq_refl eq_refl eq_refl _) _ _)).
    + vm_compute. reflexivity.
    + apply (bool_decide_unpack _). vm_compute. exact I.
    + vm_compute. reflexivity.
  - refine (proj1 (proj2 (Hedit "ts5"
      (TimeslotRequest None (Some "11:20") (Some "11:10")) seed_db
      (Timeslot "2023-10-16" "11:00" "11:30" false) eq_refl eq_refl
      eq_refl eq_refl eq_refl _ _) _)).
    + vm_compute. reflexivity.
    + vm_compute. reflexivity.
    + apply (bool_decide_unpack _). vm_compute. exact I.
Defined.

(** ** C9: the monthly aggregate *)

(** One character of the month can be more than one byte: [padStart] counts
    code units and [_] matches a character. *)
Example padStart_code_units :
  padStart 2 "0" "é" = "0é" ∧ padStart 2 "0" "12" = "12"
  ∧ padStart 2 "0" "5" = "05".
Proof. repeat split; vm_compute; reflexivity. Qed.

Example like_one_character :
  like "2023-_-%" "2023-é-01" = true ∧ like "2023-__-%" "2023-é-01" = false.
Proof. split; vm_compute; reflexivity. Qed.

Lemma like_percent (s : string) : like "%" s = true.
Proof. induction s as [|a s IH]; [done|]. simpl in *. exact IH. Qed.

Lemma prefix_nil (s : string) : String.prefix "" s = true.
Proof. by destruct s. Qed.

Lemma like_literal_prefix (p s : string) :
  literal p = true → like (p ++ "%") s = String.prefix p s.
Proof.
  revert s. induction p as [|c p IH]; intros s Hlit.
  - rewrite prefix_nil. apply like_percent.
  - simpl in Hlit. apply andb_true_iff in Hlit as [Hc Hp].
    unfold literal_char in Hc.
    apply andb_true_iff in Hc as [Hc H3]. apply andb_true_iff in Hc as [H1 H2].
    apply negb_true_iff in H1, H2, H3.
    change (String c p ++ "%") with (String c (p ++ "%")).
    cbn [like]. rewrite H1, H2, H3.
    destruct s as [|a s]; [done|]. cbn [String.prefix].
    destruct (ascii_dec c a) as [->|Hne].
    + rewrite Ascii.eqb_refl. cbn [andb]. by apply IH.
    + assert (Ascii.eqb a c = false) as ->; [|done].
      apply Ascii.eqb_neq. congruence.
Qed.

Lemma append_cons (x : ascii) (a b : string) :
  String x a ++ b = String x (a ++ b).
Proof. reflexivity. Qed.

Lemma append_assoc (a b c : string) : (a ++ b) ++ c = a ++ (b ++ c).
Proof.
  induction a as [|x a IH]; [done|]. by rewrite !append_cons, IH.
Qed.

Lemma literal_app (a b : string) :
  literal (a ++ b) = literal a && literal b.
Proof.
  induction a as [|x a IH]; [done|].
  rewrite append_cons. cbn [literal]. by rewrite IH, andb_assoc.
Qed.

Lemma literal_padStart (n : nat) (s : string) :
  literal (padStart n "0" s) = literal s.
Proof. unfold padStart. induction (n - utf16_length s) as [|k IH]; done. Qed.

Lemma utf16_length_ascii (s : string) :
  ascii_only s = true → utf16_length s = String.length s.
Proof.
  induction s as [|c s IH]; [done|]. cbn [ascii_only utf16_length].
  intros [Hc Hs]%andb_true_iff. apply Nat.ltb_lt in Hc.
  unfold utf8_continuation, utf8_lead4.
  assert ((128 <=? nat_of_ascii c)%nat = false) as ->
    by (apply Nat.leb_gt; lia).
  assert ((240 <=? nat_of_ascii c)%nat = false) as ->
    by (apply Nat.leb_gt; lia).
  cbn [andb String.length]. by rewrite (IH Hs).
Qed.

(** On a month of one-byte characters [padStart(2, "0")] writes the month
    with two digits. *)
Lemma padStart_two_digits (month : string) :
  month ≠ "" → ascii_only month = true →
  padStart 2 "0" month = two_digits month.
Proof.
  intros Hne Hascii. unfold padStart.
  rewrite (utf16_length_ascii month Hascii).
  destruct month as [|c [|c' month]]; done.
Qed.

Lemma literal_two_digits (month : string) :
  literal (two_digits month) = literal month.
Proof. by destruct month as [|c [|c' month]]. Qed.

Lemma like_month_pattern (year month date : string) :
  literal year = true → literal month = true →
  month ≠ "" → ascii_only month = true →
  like (year ++ "-" ++ padStart 2 "0" month ++ "-%") date
  = in_month year month date.
Proof.
  intros Hy Hm Hne Hascii. unfold in_month.
  rewrite (padStart_two_digits month Hne Hascii).
  rewrite <- like_literal_prefix.
  - by rewrite !append_assoc.
  - rewrite !literal_app, literal_two_digits, Hy, Hm. done.
Qed.

Lemma group_keys_perm (m : gmap string timeslot) :
  group_keys m
  ≡ₚ elements (map_to_set (λ _ t, slot_date t) m : gset string).
Proof. unfold group_keys. apply merge_sort_Permutation. Qed.

Lemma elem_of_group_keys (m : gmap string timeslot) (date : string) :
  date ∈ group_keys m ↔ ∃ id t, m !! id = Some t ∧ slot_date t = date.
Proof.
  rewrite group_keys_perm, elem_of_elements, elem_of_map_to_set.
  naive_solver.
Qed.

Lemma NoDup_group_keys (m : gmap string timeslot) : NoDup (group_keys m).
Proof. rewrite group_keys_perm. apply NoDup_elements. Qed.

Lemma StronglySorted_strict (l : list string) :
  StronglySorted (λ a b : string, Is_true (text_le a b)) l → NoDup l →
  StronglySorted (λ a b : string, text_lt a b = true) l.
Proof.
  induction 1 as [|x l Hl IH Hx]; intros Hnd; [constructor|].
  apply NoDup_cons in Hnd as [Hnotin Hnd].
  constructor; [by apply IH|].
  apply Forall_forall. intros y Hy.
  apply text_le_lt.
  - apply Is_true_true. rewrite Forall_forall in Hx. by apply Hx.
  - intros ->. done.
Qed.

Lemma group_keys_ascending (m : gmap string timeslot) :
  StronglySorted (λ a b : string, text_lt a b = true) (group_keys m).
Proof.
  apply StronglySorted_strict; [|apply NoDup_group_keys].
  unfold group_keys. apply (StronglySorted_merge_sort _).
Qed.

Lemma date_group_like (pattern date : string) (d : db) :
  like pattern date = true →
  date_group date (like_rows pattern d)
  = filter (λ row, slot_date row.2 = date) (timeslots d).
Proof.
  intros Hlike. unfold date_group, like_rows.
  apply map_eq. intros k. apply option_eq. intros t.
  rewrite !map_lookup_filter_Some. cbn [snd]. split.
  - tauto.
  - intros [Hk Hd]. split; [split; [done|]|done].
    rewrite Hd. by apply Is_true_true.
Qed.

Lemma sum_booked_size (g : gmap string timeslot) :
  sum_booked g = size (filter (λ row, is_booked row.2 = true) g).
Proof.
  unfold sum_booked.
  induction g as [|k t g Hk Hfirst IH] using map_first_key_ind.
  - by rewrite map_to_list_empty, map_filter_empty, map_size_empty.
  - rewrite map_to_list_insert by done. cbn [sum_list_with snd].
    rewrite IH. destruct (is_booked t) eqn:Hb.
    + rewrite map_filter_insert_True by done.
      rewrite map_size_insert_None; [done|].
      apply map_lookup_filter_None. by left.
    + rewrite map_filter_insert_not'; [done|cbn; congruence|].
      intros y Hy. congruence.
Qed.

Lemma filter_and_booked (date : string) (m : gmap string timeslot) :
  filter (λ row, is_booked row.2 = true)
    (filter (λ row : string * timeslot, slot_date row.2 = date) m)
  = filter (λ row, slot_date row.2 = date ∧ is_booked row.2 = true) m.
Proof.
  apply map_eq. intros k. apply option_eq. intros t.
  rewrite !map_lookup_filter_Some. tauto.
Qed.

Lemma truthy_Some (s : string) : s ≠ "" → truthy (Some s) = true.
Proof.
  intros Hne. simpl. apply negb_true_iff. by apply String.eqb_neq.
Qed.

Lemma text_Some (s : string) : s ≠ "" → text (Some s) = s.
Proof.
  intros Hne. unfold text, or_else.
  by apply String.eqb_neq in Hne as ->.
Qed.

(** C9. For a year and a month that are valid text without LIKE
    wildcards, the month in one-byte characters (as the digits of a month
    number are), the calendar answers with one entry per date that has at
    least one slot and starts with the year, a hyphen, the month written
    with two digits (a month of one character gets a leading zero) and a
    hyphen.  The entries carry distinct dates in strictly ascending order;
    each holds the number of slots on its date, the number of those that
    are booked, and [available] true exactly when the first minus the
    second is positive.  A date without slots has no entry. *)
Theorem calendar_aggregate (month year : string) (d : db) :
  month ≠ "" → year ≠ "" →
  literal month = true → literal year = true →
  valid_text month = true → valid_text year = true →
  ascii_only month = true →
  ∃ entries,
    response_of (GetCalendar (Some month) (Some year)) d
    = Some (Response 200 (Calendar entries))
    ∧ (∀ date, date ∈ ce_slot_date <$> entries
         ↔ in_month year month date = true
           ∧ ∃ id t, timeslots d !! id = Some t ∧ slot_date t = date)
    ∧ NoDup (ce_slot_date <$> entries)
    ∧ StronglySorted (λ a b : string, text_lt a b = true)
        (ce_slot_date <$> entries)
    ∧ Forall (λ e,
        total_slots e
        = size (filter (λ row, slot_date row.2 = ce_slot_date e)
                  (timeslots d))
        ∧ booked_slots e
          = size (filter (λ row, slot_date row.2 = ce_slot_date e
                                 ∧ is_booked row.2 = true) (timeslots d))
        ∧ (available e = true
           ↔ (Z.of_nat (total_slots e) - Z.of_nat (booked_slots e) > 0)%Z)
        ∧ 0 < total_slots e) entries.
Proof.
  intros Hm Hy Hlm Hly _ _ Hascii.
  set (pattern := year ++ "-" ++ padStart 2 "0" month ++ "-%").
  set (m := like_rows pattern d).
  set (mk := λ date : string,
         CalendarEntry date (count_star (date_group date m))
           (sum_booked (date_group date m))
           (0 <? Z.of_nat (count_star (date_group date m))
                 - Z.of_nat (sum_booked (date_group date m)))%Z).
  assert (Hkeys : ce_slot_date <$> (mk <$> group_keys m) = group_keys m).
  { rewrite <- list_fmap_compose. apply list_fmap_id. }
  assert (Hin : ∀ date, date ∈ group_keys m →
            like pattern date = true
            ∧ ∃ id t, timeslots d !! id = Some t ∧ slot_date t = date).
  { intros date (id & t & Hid & Hdate)%elem_of_group_keys.
    apply map_lookup_filter_Some in Hid as [Hid Hlike]. cbn [snd] in Hlike.
    rewrite Hdate in Hlike. apply Is_true_true in Hlike. eauto. }
  exists (mk <$> group_keys m). split; [|split; [|split; [|split]]].
  - unfold response_of, serve, handler, get_calendar.
    rewrite !truthy_Some by done. cbn [negb orb].
    rewrite !text_Some by done. run_step. fold pattern.
    unfold calendar_query. fold m. rewrite <- list_fmap_compose. done.
  - intros date. rewrite Hkeys. split.
    + intros Hd. destruct (Hin date Hd) as [Hlike Hex].
      split; [|done]. by rewrite <- like_month_pattern.
    + intros [Hmonth (id & t & Hid & Hdate)].
      apply elem_of_group_keys. exists id, t. split; [|done].
      apply map_lookup_filter_Some. split; [done|]. cbn [snd].
      apply Is_true_true. rewrite Hdate. unfold pattern.
      by rewrite like_month_pattern.
  - rewrite Hkeys. apply NoDup_group_keys.
  - rewrite Hkeys. apply group_keys_ascending.
  - apply Forall_fmap, Forall_forall. intros date Hd.
    destruct (Hin date Hd) as [Hlike (id & t & Hid & Hdate)].
    unfold mk; cbn [compose total_slots booked_slots available ce_slot_date].
    unfold count_star, m. rewrite sum_booked_size.
    rewrite (date_group_like pattern date d Hlike), filter_and_booked.
    split; [done|]. split; [done|]. split.
    + rewrite Z.ltb_lt. lia.
    + assert (Hpos : (0 <? size (filter
                (λ row : string * timeslot, slot_date row.2 = date)
                (timeslots d)))%nat = true).
      { apply size_filter_pos. eauto. }
      by apply Nat.ltb_lt in Hpos.
Qed.

Lemma calendar_aggregate_witness :
  ∃ entries,
    response_of (GetCalendar (Some "5") (Some "2023"))
      (db_after
         (CreateSlot (TimeslotRequest (Some "2023-05-03") (Some "09:00")
                        (Some "10:00")) "s1") seed_db)
    = Some (Response 200 (Calendar entries))
    ∧ "2023-05-03" ∈ ce_slot_date <$> entries
    ∧ ("2023-10-15" ∉ ce_slot_date <$> entries)
    ∧ ("2023-5-03" ∉ ce_slot_date <$> entries).
Proof.
  destruct (calendar_aggregate "5" "2023"
              (db_after
                 (CreateSlot (TimeslotRequest (Some "2023-05-03")
                                (Some "09:00") (Some "10:00")) "s1") seed_db))
    as (entries & Hr & Hin & _);
    [done|done|reflexivity|reflexivity|reflexivity|reflexivity|reflexivity|].
  exists entries. split; [exact Hr|]. split; [|split].
  - apply Hin. split; [reflexivity|].
    exists "s1", (Timeslot "2023-05-03" "09:00" "10:00" false).
    split; vm_compute; reflexivity.
  - intros [Hmonth _]%Hin. vm_compute in Hmonth. discriminate.
  - intros [Hmonth _]%Hin. vm_compute in Hmonth. discriminate.
Defined.

(** ** C6: concurrent bookings of one slot *)

Example interleaved_ts2 :
  let st := run_schedule [0; 1; 0; 1; 1; 0; 1; 1; 0; 1; 0; 1; 0; 1]
              (start seed_db (attempt_prog <$> two_attempts)) in
  answer <$> sessions st
  = [Some (reply 400 "Timeslot already booked");
     Some (Response 200 (BookingConfirmed "u2"
        (BookingDetails "ts2" "Jane Doe" "jane@x.com" "2023-10-15"
           "09:30" "10:00")))]
  ∧ finished st = true.
Proof. vm_compute. split; reflexivity. Qed.

(** A booking session that runs alone does what the sequential semantics
    says: same answer, same database, same events, no lock left. *)
Lemma release_empty (i : nat) : release i ∅ = ∅.
Proof. apply map_filter_empty. Qed.

Lemma release_insert_empty (i : nat) (id : string) :
  release i (<[id := i]> ∅) = ∅.
Proof.
  unfold release. rewrite insert_empty.
  apply map_filter_singleton_False. simpl. auto.
Qed.

Lemma run_schedule_step i sch st st' :
  system_step i st = Some st' →
  run_schedule (i :: sch) st = run_schedule sch st'.
Proof. intros H. cbn [run_schedule]. by rewrite H. Qed.

Lemma run_schedule_answered sch g s :
  is_Some (answer s) → run_schedule sch (System g [s]) = System g [s].
Proof.
  intros [r Hr]. unfold answer in Hr.
  induction sch as [|i sch IH]; [done|]. cbn [run_schedule].
  assert (system_step i (System g [s]) = None) as ->; [|done].
  unfold system_step. cbn [sessions sh].
  destruct ([s] !! i) as [s'|] eqn:Hs; [|done].
  apply list_elem_of_lookup_2, list_elem_of_singleton in Hs as ->.
  unfold session_step. by destruct (s_code s).
Qed.

Ltac alone_cbn :=
  cbn [system_step sessions sh lookup list_lookup session_step
       s_code s_catch s_txn cexec insert list_insert
       slot_locks committed channel default from_option id replay foldl
       mbind option_bind lock_row app].

Ltac alone_step tac :=
  erewrite run_schedule_step;
  [|alone_cbn; unfold buffer; unfold own_or_free, view; alone_cbn;
    rewrite ?lookup_empty, ?lookup_insert_eq, ?bool_decide_eq_true_2 by done;
    tac; alone_cbn; reflexivity];
  cbn [committed slot_locks channel].

Ltac alone_done :=
  rewrite run_schedule_answered by (by eexists);
  cbn [sessions sh committed channel slot_locks fmap list_fmap answer s_code].

Lemma insert_after_mark (uuid tid : string) (b : booking) (t : timeslot)
    (d : db) :
  timeslots d !! tid = Some t → b_timeslot_id b = tid →
  insert_booking uuid b (update_is_booked tid true d)
  = match bookings d !! uuid with
    | Some _ => None
    | None => Some (Db (alter (set_booked true) tid (timeslots d))
                       (<[uuid := b]> (bookings d)))
    end.
Proof.
  intros Ht Hb. unfold insert_booking, update_is_booked.
  cbn [bookings timeslots]. rewrite Hb, lookup_alter_eq, Ht.
  by destruct (bookings d !! uuid).
Qed.

Lemma create_booking_run (rq : booking_request) (uuid now : string) (d : db) :
  negb (truthy (rq_timeslot_id rq)) || negb (truthy (rq_full_name rq))
  || negb (truthy (rq_email rq)) = false →
  serve (CreateBooking rq uuid now) d
  = match timeslots d !! text (rq_timeslot_id rq) with
    | None =>
      (Some (reply 400 "Invalid timeslot_id"), Conn d None [Began; RolledBack])
    | Some t =>
      if is_booked t
      then (Some (reply 400 "Timeslot already booked"),
            Conn d None [Began; RolledBack])
      else
        match bookings d !! uuid with
        | Some _ => (Some internal_error, Conn d None [Began; RolledBack])
        | None =>
          (Some (Response 200 (BookingConfirmed uuid
             (BookingDetails (text (rq_timeslot_id rq))
                (text (rq_full_name rq)) (text (rq_email rq))
                (slot_date t) (start_time t) (end_time t)))),
           Conn (Db (alter (set_booked true) (text (rq_timeslot_id rq))
                       (timeslots d))
                    (<[uuid := Booking (text (rq_timeslot_id rq))
                                 (text (rq_full_name rq)) (text (rq_email rq))
                                 (or_null (rq_phone rq))
                                 (or_null (rq_appointment_notes rq))
                                 "active" now]> (bookings d)))
             None
             [Began; Committed;
              Emitted (timeslot_update (text (rq_timeslot_id rq))
                         (set_booked true t));
              Emitted (booking_update uuid (text (rq_timeslot_id rq))
                         "active")])
        end
    end.
Proof.
  intros Hvalid. unfold serve, handler, post_bookings. rewrite Hvalid.
  run_step.
  destruct (timeslots d !! _) as [t|] eqn:Ht; [|by run_step].
  destruct (is_booked t) eqn:Hb; [by run_step|].
  run_step. rewrite (insert_after_mark _ _ _ t) by done.
  destruct (bookings d !! uuid); by run_step.
Qed.

Lemma alone_agrees (rq : booking_request) (uuid now : string) (d : db) :
  let r := CreateBooking rq uuid now in
  let st := run_schedule (replicate 8 0) (start d [post_bookings rq uuid now]) in
  answer <$> sessions st = [response_of r d]
  ∧ committed (sh st) = db_after r d
  ∧ channel (sh st) = emitted_events (events_of r d)
  ∧ slot_locks (sh st) = ∅.
Proof.
  cbn zeta. unfold response_of, db_after, events_of, start.
  cbn [replicate fmap list_fmap].
  destruct (negb (truthy (rq_timeslot_id rq)) || negb (truthy (rq_full_name rq))
            || negb (truthy (rq_email rq))) eqn:Hvalid.
  { unfold serve, handler, post_bookings. rewrite Hvalid.
    alone_done. by run_step. }
  rewrite (create_booking_run rq uuid now d Hvalid).
  unfold post_bookings. rewrite Hvalid.
  do 2 alone_step idtac.
  destruct (timeslots d !! _) as [t|] eqn:Ht.
  2: { alone_step ltac:(rewrite Ht). alone_step idtac. alone_done.
       by rewrite release_empty. }
  alone_step ltac:(rewrite Ht).
  destruct (is_booked t) eqn:Hb.
  { alone_step idtac. alone_done. by rewrite release_insert_empty. }
  alone_step ltac:(rewrite Ht).
  destruct (bookings d !! uuid) eqn:Hu.
  { alone_step ltac:(rewrite (insert_after_mark _ _ _ t), Hu by done).
    alone_step idtac. alone_done.
    by rewrite insert_insert_eq, release_insert_empty. }
  alone_step ltac:(rewrite (insert_after_mark _ _ _ t), Hu by done).
  alone_step ltac:(rewrite (insert_after_mark _ _ _ t), Hu by done).
  do 2 alone_step idtac. alone_done.
  by rewrite insert_insert_eq, release_insert_empty.
Qed.

Section one_slot.
Variables (d : db) (tid : string) (t0 : timeslot) (ats : list attempt).
Hypothesis slot_there : timeslots d !! tid = Some t0.
Hypothesis slot_free : is_booked t0 = false.
Hypothesis well_formed : Forall (attempt_on d tid) ats.

Ltac expose a Ha :=
  destruct Ha as (Hid & Hname & Hemail & Hslot & Hfresh);
  unfold session_at, code_after, attempt_prog, post_bookings, a_slot in *;
  rewrite ?Hid, ?Hname, ?Hemail;
  cbn [negb orb code_after resume answers];
  rewrite ?slot_free;
  cbn [code_after resume answers].

Lemma step_fresh i g a :
  attempt_on d tid a →
  session_step i g (session_at t0 a Fresh)
  = Some (g, session_at t0 a Entered).
Proof. intros Ha. expose a Ha. reflexivity. Qed.

Lemma step_entered i g a :
  attempt_on d tid a →
  session_step i g (session_at t0 a Entered)
  = Some (g, session_at t0 a Selecting).
Proof. intros Ha. expose a Ha. reflexivity. Qed.

Lemma step_selecting_free i g a :
  attempt_on d tid a →
  own_or_free i tid g = true →
  timeslots (committed g) !! tid = Some t0 →
  session_step i g (session_at t0 a Selecting)
  = Some (Shared (committed g) (<[tid := i]> (slot_locks g)) (channel g),
          session_at t0 a Marking).
Proof.
  intros Ha Hlock Hrow. expose a Ha.
  unfold session_step. cbn [s_code s_catch s_txn cexec].
  rewrite Hslot, Hlock. unfold view.
  cbn [default from_option id replay foldl]. rewrite Hrow, slot_free.
  reflexivity.
Qed.

Lemma step_selecting_taken i g a :
  attempt_on d tid a →
  own_or_free i tid g = true →
  timeslots (committed g) !! tid = Some (set_booked true t0) →
  session_step i g (session_at t0 a Selecting)
  = Some (Shared (committed g) (<[tid := i]> (slot_locks g)) (channel g),
          session_at t0 a Refusing).
Proof.
  intros Ha Hlock Hrow. expose a Ha.
  unfold session_step. cbn [s_code s_catch s_txn cexec].
  rewrite Hslot, Hlock. unfold view.
  cbn [default from_option id replay foldl]. rewrite Hrow.
  reflexivity.
Qed.

Lemma step_selecting_blocked i g a :
  attempt_on d tid a →
  own_or_free i tid g = false →
  session_step i g (session_at t0 a Selecting) = None.
Proof.
  intros Ha Hlock. expose a Ha.
  unfold session_step. cbn [s_code s_catch s_txn cexec].
  rewrite Hslot, Hlock. reflexivity.
Qed.

Lemma step_marking i g a :
  attempt_on d tid a →
  own_or_free i tid g = true →
  committed g = d →
  session_step i g (session_at t0 a Marking)
  = Some (Shared d (<[tid := i]> (slot_locks g)) (channel g),
          session_at t0 a Inserting).
Proof.
  intros Ha Hlock Hdb. expose a Ha.
  unfold session_step. cbn [s_code s_catch s_txn cexec].
  rewrite Hslot, Hlock. unfold buffer, view.
  cbn [default from_option id replay foldl mbind option_bind].
  rewrite Hdb, slot_there.
  cbn [lock_row committed slot_locks channel app].
  unfold mark_booked, a_slot. rewrite Hslot, ?Hdb. reflexivity.
Qed.

Lemma step_inserting i g a :
  attempt_on d tid a →
  committed g = d →
  session_step i g (session_at t0 a Inserting)
  = Some (g, session_at t0 a Committing).
Proof.
  intros Ha Hdb. expose a Ha.
  unfold session_step. cbn [s_code s_catch s_txn cexec].
  unfold buffer, view, mark_booked, a_slot.
  cbn [default from_option id replay foldl mbind option_bind].
  rewrite Hdb. unfold insert_booking at 1.
  cbn [update_is_booked bookings timeslots b_timeslot_id].
  rewrite Hfresh, Hslot, lookup_alter_eq, slot_there.
  cbn [fmap option_fmap option_map app].
  unfold new_booking, a_slot. rewrite Hslot. reflexivity.
Qed.

Lemma replay_committing a :
  attempt_on d tid a →
  replay [mark_booked a; insert_booking (a_uuid a) (new_booking a)] d
  = Some (booked_by d a).
Proof.
  intros (Hid & Hname & Hemail & Hslot & Hfresh).
  unfold replay, mark_booked, booked_by, a_slot.
  cbn [foldl mbind option_bind]. unfold insert_booking.
  cbn [update_is_booked bookings timeslots b_timeslot_id new_booking].
  unfold a_slot.
  rewrite Hfresh, Hslot, lookup_alter_eq, slot_there. reflexivity.
Qed.

Lemma step_committing i g a :
  attempt_on d tid a →
  committed g = d →
  session_step i g (session_at t0 a Committing)
  = Some (Shared (booked_by d a) (release i (slot_locks g)) (channel g),
          session_at t0 a Emitting1).
Proof.
  intros Ha Hdb. pose proof (replay_committing a Ha) as Hreplay.
  expose a Ha.
  unfold session_step. cbn [s_code s_catch s_txn cexec].
  unfold view. cbn [default from_option id]. rewrite Hdb, Hreplay.
  reflexivity.
Qed.

Lemma step_emitting1 i g a :
  attempt_on d tid a →
  ∃ e, session_step i g (session_at t0 a Emitting1)
       = Some (Shared (committed g) (slot_locks g) (channel g ++ [e])%list,
               session_at t0 a Emitting2).
Proof.
  intros Ha. expose a Ha. eexists. reflexivity.
Qed.

Lemma step_emitting2 i g a :
  attempt_on d tid a →
  ∃ e, session_step i g (session_at t0 a Emitting2)
       = Some (Shared (committed g) (slot_locks g) (channel g ++ [e])%list,
               session_at t0 a Confirmed).
Proof.
  intros Ha. expose a Ha. eexists. reflexivity.
Qed.

Lemma step_refusing i g a :
  attempt_on d tid a →
  session_step i g (session_at t0 a Refusing)
  = Some (Shared (committed g) (release i (slot_locks g)) (channel g),
          session_at t0 a Refused).
Proof. intros Ha. expose a Ha. reflexivity. Qed.

Lemma answer_confirmed a :
  attempt_on d tid a →
  answer (session_at t0 a Confirmed)
  = Some (Response 200 (BookingConfirmed (a_uuid a)
       (BookingDetails tid (text (rq_full_name (a_request a)))
          (text (rq_email (a_request a)))
          (slot_date t0) (start_time t0) (end_time t0)))).
Proof.
  intros Ha. expose a Ha. rewrite Hslot. reflexivity.
Qed.

Lemma answer_refused a :
  attempt_on d tid a →
  answer (session_at t0 a Refused)
  = Some (reply 400 "Timeslot already booked").
Proof. intros Ha. expose a Ha. reflexivity. Qed.

Lemma answer_none a φ :
  attempt_on d tid a →
  φ ≠ Confirmed → φ ≠ Refused → answer (session_at t0 a φ) = None.
Proof.
  intros Ha H1 H2. destruct φ; try done; expose a Ha; reflexivity.
Qed.

Lemma answer_phase a φ :
  attempt_on d tid a →
  is_Some (answer (session_at t0 a φ)) → φ = Confirmed ∨ φ = Refused.
Proof.
  intros Ha [r Hr].
  destruct (decide (φ = Confirmed)) as [|H1]; [by left|].
  destruct (decide (φ = Refused)) as [|H2]; [by right|].
  rewrite (answer_none a φ Ha H1 H2) in Hr. discriminate.
Qed.

Lemma attempt_lookup i a : ats !! i = Some a → attempt_on d tid a.
Proof. intros Ha. by eapply (Forall_lookup_1 _ ats i a well_formed). Qed.

Lemma sessions_update φs i a φ' :
  ats !! i = Some a →
  <[i := session_at t0 a φ']> (zip_with (session_at t0) ats φs)
  = zip_with (session_at t0) ats (<[i := φ']> φs).
Proof.
  intros Ha. by rewrite insert_zip_with, (list_insert_id ats i a Ha).
Qed.

Lemma inv_start :
  inv d tid t0 ats (replicate (length ats) Fresh) None None
    (start d (attempt_prog <$> ats)).
Proof.
  split; cbn [start sessions sh slot_locks committed].
  - apply length_replicate.
  - rewrite zip_with_replicate_r_eq by done.
    rewrite <- list_fmap_compose. done.
  - done.
  - done.
  - intros i φ [-> _]%lookup_replicate. exact I.
  - intros i [=].
  - intros w [=].
Qed.

Lemma phase_ok_other lock winner lock' winner' i j φ :
  j ≠ i → phase_ok lock winner j φ →
  lock = None ∨ lock = Some i →
  winner' = winner ∨ winner = None →
  phase_ok lock' winner' j φ.
Proof.
  destruct φ; cbn; intros Hne Hok Hl Hw; try exact I;
    match type of Hok with
    | _ ∧ _ => destruct Hok as [Hk _]; exfalso; destruct Hl; congruence
    | is_Some _ =>
      destruct Hw as [->| ->]; [done|by destruct Hok as [? [=]]]
    | _ = _ => destruct Hw as [->| ->]; [done|discriminate]
    end.
Qed.

Lemma inv_update φs lock winner st i a φ φ' lock' winner' g' :
  inv d tid t0 ats φs lock winner st →
  ats !! i = Some a → φs !! i = Some φ →
  slot_locks g' = match lock' with Some k => {[tid := k]} | None => ∅ end →
  committed g'
  = match winner' ≫= (ats !!.) with
    | Some a => booked_by d a
    | None => d
    end →
  phase_ok lock' winner' i φ' →
  (∀ j φj, j ≠ i → phase_ok lock winner j φj → phase_ok lock' winner' j φj) →
  (∀ k, lock' = Some k → k ≠ i → lock = Some k) →
  (lock' = Some i → holds_lock φ' = true) →
  (∀ w, winner' = Some w → w ≠ i → winner = Some w) →
  (winner' = Some i → has_won φ' = true) →
  inv d tid t0 ats (<[i := φ']> φs) lock' winner'
    (System g' (<[i := session_at t0 a φ']> (sessions st))).
Proof.
  intros [Hlen Hsess Hlocks Hdb Hphase Hholder Hwinner] Ha Hφ
    Hlocks' Hdb' Hok Hothers Hl1 Hl2 Hw1 Hw2.
  assert (Hi : i < length φs) by (by eapply lookup_lt_Some).
  split; cbn [sessions sh].
  - by rewrite length_insert.
  - rewrite Hsess. by apply sessions_update.
  - done.
  - done.
  - intros j φj Hj. destruct (decide (j = i)) as [->|Hne].
    + rewrite list_lookup_insert_eq in Hj by done. by injection Hj as <-.
    + rewrite list_lookup_insert_ne in Hj by done.
      apply Hothers; [done|]. by apply Hphase.
  - intros k Hk. destruct (decide (k = i)) as [->|Hne].
    + exists φ'. rewrite list_lookup_insert_eq by done. auto.
    + rewrite list_lookup_insert_ne by done. apply Hholder. by apply Hl1.
  - intros w Hw. destruct (decide (w = i)) as [->|Hne].
    + exists φ'. rewrite list_lookup_insert_eq by done. auto.
    + rewrite list_lookup_insert_ne by done. apply Hwinner. by apply Hw1.
Qed.

Lemma inv_local φs lock winner st i a φ φ' g' :
  inv d tid t0 ats φs lock winner st →
  ats !! i = Some a → φs !! i = Some φ →
  slot_locks g' = slot_locks (sh st) →
  committed g' = committed (sh st) →
  phase_ok lock winner i φ' →
  holds_lock φ' = holds_lock φ → has_won φ' = has_won φ →
  inv d tid t0 ats (<[i := φ']> φs) lock winner
    (System g' (<[i := session_at t0 a φ']> (sessions st))).
Proof.
  intros HI Ha Hφ Hlocks' Hdb' Hok Hh Hw.
  eapply inv_update; try done.
  - rewrite Hlocks'. apply HI.
  - rewrite Hdb'. apply HI.
  - intros Hl. destruct (inv_holder _ _ _ _ _ _ _ _ HI i Hl) as (φ0 & H0 & Hh0).
    congruence.
  - intros Hl. destruct (inv_winner _ _ _ _ _ _ _ _ HI i Hl) as (φ0 & H0 & Hh0).
    congruence.
Qed.

Lemma answered_no_step i g s :
  is_Some (answer s) → session_step i g s = None.
Proof.
  intros [r Hr]. unfold answer in Hr. unfold session_step.
  by destruct (s_code s).
Qed.

Lemma release_own i : release i ({[tid := i]} : gmap string nat) = ∅.
Proof. unfold release. apply map_filter_singleton_False. simpl. auto. Qed.

Lemma own_or_free_spec i g lock :
  slot_locks g = match lock with Some k => {[tid := k]} | None => ∅ end →
  own_or_free i tid g = bool_decide (lock = None ∨ lock = Some i).
Proof.
  intros Hl. unfold own_or_free. rewrite Hl. destruct lock as [k|].
  - rewrite lookup_singleton_eq. apply bool_decide_ext. split.
    + intros ->. by right.
    + intros [[=]|[= ->]]. done.
  - rewrite lookup_empty. symmetry. apply bool_decide_eq_true_2. by left.
Qed.

Lemma winner_row w a :
  ats !! w = Some a →
  timeslots (booked_by d a) !! tid = Some (set_booked true t0).
Proof.
  intros Ha. destruct (attempt_lookup w a Ha) as (_ & _ & _ & Hslot & _).
  unfold booked_by, a_slot. cbn [timeslots].
  by rewrite Hslot, lookup_alter_eq, slot_there.
Qed.

Lemma inv_step φs lock winner st i st' :
  inv d tid t0 ats φs lock winner st →
  system_step i st = Some st' →
  ∃ φ φ' lock' winner',
    φs !! i = Some φ ∧ remaining φ' < remaining φ
    ∧ inv d tid t0 ats (<[i := φ']> φs) lock' winner' st'.
Proof.
  intros HI Hstep. pose proof HI as HI'.
  destruct HI' as [Hlen Hsess Hlocks Hdb Hphase Hholder Hwinner].
  unfold system_step in Hstep.
  destruct (sessions st !! i) as [s|] eqn:Hs; [|done].
  rewrite Hsess in Hs.
  apply lookup_zip_with_Some in Hs as (a & φ & -> & Ha & Hφ).
  pose proof (attempt_lookup i a Ha) as Hwf.
  pose proof (Hphase i φ Hφ) as Hok.
  pose proof (own_or_free_spec i (sh st) lock Hlocks) as Hfree.
  exists φ. destruct φ; cbn [phase_ok] in Hok.
  - (* Fresh *)
    rewrite (step_fresh i (sh st) a Hwf) in Hstep. cbv beta iota in Hstep; apply (inj Some) in Hstep; subst st'.
    exists Entered, lock, winner. split; [done|]. split; [cbn; lia|].
    by eapply inv_local.
  - (* Entered *)
    rewrite (step_entered i (sh st) a Hwf) in Hstep. cbv beta iota in Hstep; apply (inj Some) in Hstep; subst st'.
    exists Selecting, lock, winner. split; [done|]. split; [cbn; lia|].
    by eapply inv_local.
  - (* Selecting *)
    destruct (own_or_free i tid (sh st)) eqn:Hof;
      [|by rewrite step_selecting_blocked in Hstep].
    symmetry in Hfree. apply bool_decide_eq_true in Hfree.
    assert (lock = None) as ->.
    { destruct Hfree as [|Hl]; [done|].
      destruct (Hholder i Hl) as (φ0 & H0 & Hh).
      rewrite Hφ in H0. injection H0 as <-. discriminate Hh. }
    destruct winner as [w|].
    + destruct (Hwinner w eq_refl) as (φw & Hφw & Hwon).
      assert (Hne : w ≠ i).
      { intros ->. rewrite Hφ in Hφw. injection Hφw as <-.
        discriminate Hwon. }
      destruct (lookup_lt_is_Some_2 ats w) as [aw Haw].
      { rewrite <- Hlen. by eapply lookup_lt_Some. }
      cbn [mbind option_bind] in Hdb. rewrite Haw in Hdb.
      rewrite (step_selecting_taken i (sh st) a Hwf Hof) in Hstep
        by (rewrite Hdb; by eapply winner_row).
      cbv beta iota in Hstep; apply (inj Some) in Hstep; subst st'.
      exists Refusing, (Some i), (Some w).
      split; [done|]. split; [cbn; lia|].
      eapply inv_update; [exact HI|exact Ha|exact Hφ|..].
      * cbn [slot_locks]. rewrite Hlocks. apply insert_empty.
      * cbn [committed mbind option_bind]. by rewrite Haw.
      * cbn. split; [done|by eexists].
      * intros j φj Hj Hokj. eapply phase_ok_other; eauto.
      * intros k [= ->] Hk. done.
      * done.
      * done.
      * intros [= ->]. done.
    + cbn [mbind option_bind] in Hdb.
      rewrite (step_selecting_free i (sh st) a Hwf Hof) in Hstep
        by (by rewrite Hdb).
      cbv beta iota in Hstep; apply (inj Some) in Hstep; subst st'.
      exists Marking, (Some i), None.
      split; [done|]. split; [cbn; lia|].
      eapply inv_update; [exact HI|exact Ha|exact Hφ|..].
      * cbn [slot_locks]. rewrite Hlocks. apply insert_empty.
      * done.
      * done.
      * intros j φj Hj Hokj. eapply phase_ok_other; eauto.
      * intros k [= ->] Hk. done.
      * done.
      * done.
      * done.
  - (* Marking *)
    destruct Hok as [-> ->]. cbn [mbind option_bind] in Hdb.
    rewrite (step_marking i (sh st) a Hwf) in Hstep; [|by rewrite Hfree, bool_decide_eq_true_2; [|right]|done].
    cbv beta iota in Hstep; apply (inj Some) in Hstep; subst st'.
    exists Inserting, (Some i), None. split; [done|]. split; [cbn; lia|].
    eapply inv_local; try done.
    cbn [slot_locks]. rewrite Hlocks. apply insert_singleton_eq.
  - (* Inserting *)
    destruct Hok as [-> ->]. cbn [mbind option_bind] in Hdb.
    rewrite (step_inserting i (sh st) a Hwf Hdb) in Hstep.
    cbv beta iota in Hstep; apply (inj Some) in Hstep; subst st'.
    exists Committing, (Some i), None. split; [done|]. split; [cbn; lia|].
    by eapply inv_local.
  - (* Committing *)
    destruct Hok as [-> ->]. cbn [mbind option_bind] in Hdb.
    rewrite (step_committing i (sh st) a Hwf Hdb) in Hstep.
    cbv beta iota in Hstep; apply (inj Some) in Hstep; subst st'.
    exists Emitting1, None, (Some i). split; [done|]. split; [cbn; lia|].
    eapply inv_update; [exact HI|exact Ha|exact Hφ|..].
    * cbn [slot_locks]. rewrite Hlocks. apply release_own.
    * cbn [committed mbind option_bind]. by rewrite Ha.
    * done.
    * intros j φj Hj Hokj. eapply phase_ok_other; eauto.
    * done.
    * done.
    * intros w [= ->] Hw. done.
    * done.
  - (* Emitting1 *)
    destruct (step_emitting1 i (sh st) a Hwf) as [e He].
    rewrite He in Hstep. cbv beta iota in Hstep; apply (inj Some) in Hstep; subst st'.
    exists Emitting2, lock, winner. split; [done|]. split; [cbn; lia|].
    by eapply inv_local.
  - (* Emitting2 *)
    destruct (step_emitting2 i (sh st) a Hwf) as [e He].
    rewrite He in Hstep. cbv beta iota in Hstep; apply (inj Some) in Hstep; subst st'.
    exists Confirmed, lock, winner. split; [done|]. split; [cbn; lia|].
    by eapply inv_local.
  - (* Confirmed *)
    rewrite answered_no_step in Hstep; [done|].
    rewrite (answer_confirmed a Hwf). by eexists.
  - (* Refusing *)
    destruct Hok as [-> Hw].
    rewrite (step_refusing i (sh st) a Hwf) in Hstep. cbv beta iota in Hstep; apply (inj Some) in Hstep; subst st'.
    exists Refused, None, winner. split; [done|]. split; [cbn; lia|].
    eapply inv_update; [exact HI|exact Ha|exact Hφ|..].
    * cbn [slot_locks]. rewrite Hlocks. apply release_own.
    * done.
    * done.
    * intros j φj Hj Hokj. eapply phase_ok_other; eauto.
    * done.
    * done.
    * done.
    * intros Hwi. destruct (Hwinner i Hwi) as (φ0 & H0 & Hh).
      rewrite Hφ in H0. injection H0 as <-. discriminate Hh.
  - (* Refused *)
    rewrite answered_no_step in Hstep; [done|].
    rewrite (answer_refused a Hwf). by eexists.
Qed.

Lemma work_insert φs i φ φ' :
  φs !! i = Some φ → remaining φ' < remaining φ →
  work (<[i := φ']> φs) < work φs.
Proof.
  unfold work. revert i. induction φs as [|x φs IH]; intros [|i] Hi Hlt;
    simplify_eq/=; [lia|].
  specialize (IH i Hi Hlt). lia.
Qed.

Lemma steps_inv sch st st' φs lock winner :
  inv d tid t0 ats φs lock winner st → steps sch st st' →
  ∃ φs' lock' winner',
    inv d tid t0 ats φs' lock' winner' st'
    ∧ (work φs' + length sch ≤ work φs)%nat.
Proof.
  intros HI Hsteps. revert φs lock winner HI.
  induction Hsteps as [st|i sch st st' st'' Hstep _ IH];
    intros φs lock winner HI.
  - exists φs, lock, winner. split; [done|]. cbn [length]. lia.
  - destruct (inv_step _ _ _ _ _ _ HI Hstep)
      as (φ & φ' & lock' & winner' & Hφ & Hlt & HI').
    pose proof (work_insert φs i φ φ' Hφ Hlt) as Hw.
    destruct (IH _ _ _ HI') as (φs' & lock'' & winner'' & HI'' & Hle).
    exists φs', lock'', winner''. split; [done|]. cbn [length]. lia.
Qed.

Lemma work_fresh n : work (replicate n Fresh) = 8 * n.
Proof.
  unfold work. induction n as [|n IH]; [done|].
  cbn [replicate sum_list_with remaining]. rewrite IH. lia.
Qed.

Lemma session_lookup φs lock winner st i φ :
  inv d tid t0 ats φs lock winner st → φs !! i = Some φ →
  ∃ a, ats !! i = Some a ∧ attempt_on d tid a
       ∧ sessions st !! i = Some (session_at t0 a φ).
Proof.
  intros HI Hφ.
  destruct (lookup_lt_is_Some_2 ats i) as [a Ha].
  { rewrite <- (inv_len _ _ _ _ _ _ _ _ HI). by eapply lookup_lt_Some. }
  exists a. split; [done|]. split; [by eapply attempt_lookup|].
  rewrite (inv_sessions _ _ _ _ _ _ _ _ HI).
  apply lookup_zip_with_Some. eauto.
Qed.

Lemma inv_progress φs lock winner st :
  inv d tid t0 ats φs lock winner st → finished st = false →
  ∃ i st', system_step i st = Some st'.
Proof.
  intros HI Hnot. pose proof HI as HI'.
  destruct HI' as [Hlen Hsess Hlocks Hdb Hphase Hholder Hwinner].
  destruct lock as [k|].
  - destruct (Hholder k eq_refl) as (φ & Hφ & Hh).
    destruct (session_lookup _ _ _ _ k φ HI Hφ) as (a & Ha & Hwf & Hs).
    pose proof (Hphase k φ Hφ) as Hok.
    pose proof (own_or_free_spec k (sh st) (Some k) Hlocks) as Hfree.
    rewrite bool_decide_eq_true_2 in Hfree by (by right).
    exists k. unfold system_step. rewrite Hs.
    destruct φ; try discriminate Hh; cbn [phase_ok] in Hok.
    + destruct Hok as [_ ->]. cbn [mbind option_bind] in Hdb.
      rewrite (step_marking k (sh st) a Hwf Hfree Hdb). eauto.
    + destruct Hok as [_ ->]. cbn [mbind option_bind] in Hdb.
      rewrite (step_inserting k (sh st) a Hwf Hdb). eauto.
    + destruct Hok as [_ ->]. cbn [mbind option_bind] in Hdb.
      rewrite (step_committing k (sh st) a Hwf Hdb). eauto.
    + rewrite (step_refusing k (sh st) a Hwf). eauto.
  - unfold finished in Hnot. apply bool_decide_eq_false in Hnot.
    apply not_Forall_Exists in Hnot; [|apply _].
    apply Exists_exists in Hnot as (s & Hin & Hnone).
    apply list_elem_of_lookup in Hin as [i Hs].
    rewrite Hsess in Hs.
    apply lookup_zip_with_Some in Hs as (a & φ & -> & Ha & Hφ).
    pose proof (attempt_lookup i a Ha) as Hwf.
    pose proof (Hphase i φ Hφ) as Hok.
    pose proof (own_or_free_spec i (sh st) None Hlocks) as Hfree.
    rewrite bool_decide_eq_true_2 in Hfree by (by left).
    assert (Hs : sessions st !! i = Some (session_at t0 a φ)).
    { rewrite Hsess. apply lookup_zip_with_Some. eauto. }
    exists i. unfold system_step. rewrite Hs.
    destruct φ; cbn [phase_ok] in Hok.
    + rewrite (step_fresh i (sh st) a Hwf). eauto.
    + rewrite (step_entered i (sh st) a Hwf). eauto.
    + destruct winner as [w|].
      * destruct (Hwinner w eq_refl) as (φw & Hφw & _).
        destruct (session_lookup _ _ _ _ w φw HI Hφw) as (aw & Haw & _ & _).
        cbn [mbind option_bind] in Hdb. rewrite Haw in Hdb.
        rewrite (step_selecting_taken i (sh st) a Hwf Hfree)
          by (rewrite Hdb; by eapply winner_row).
        eauto.
      * cbn [mbind option_bind] in Hdb.
        rewrite (step_selecting_free i (sh st) a Hwf Hfree)
          by (by rewrite Hdb).
        eauto.
    + by destruct Hok.
    + by destruct Hok.
    + by destruct Hok.
    + destruct (step_emitting1 i (sh st) a Hwf) as [e ->]. eauto.
    + destruct (step_emitting2 i (sh st) a Hwf) as [e ->]. eauto.
    + exfalso. apply Hnone. cbn [compose].
      rewrite (answer_confirmed a Hwf). by eexists.
    + by destruct Hok.
    + exfalso. apply Hnone. cbn [compose].
      rewrite (answer_refused a Hwf). by eexists.
Qed.

Lemma inv_terminates n φs lock winner st :
  (work φs ≤ n)%nat → inv d tid t0 ats φs lock winner st →
  ∃ sch st', steps sch st st' ∧ finished st' = true.
Proof.
  revert φs lock winner st.
  induction n as [|n IH]; intros φs lock winner st Hn HI;
    (destruct (finished st) eqn:Hfin;
      [exists [], st; split; [apply steps_refl|done]|]);
    destruct (inv_progress _ _ _ _ HI Hfin) as (i & st' & Hstep);
    destruct (inv_step _ _ _ _ _ _ HI Hstep)
      as (φ & φ' & lock' & winner' & Hφ & Hlt & HI');
    pose proof (work_insert φs i φ φ' Hφ Hlt) as Hw.
  - lia.
  - assert (Hn' : (work (<[i := φ']> φs) ≤ n)%nat) by lia.
    destruct (IH _ _ _ _ Hn' HI') as (sch & st'' & Hsteps & Hfin').
    exists (i :: sch), st''. split; [|done]. by eapply steps_next.
Qed.

Lemma inv_finished φs lock winner st :
  ats ≠ [] → inv d tid t0 ats φs lock winner st → finished st = true →
  ∃ w a, ats !! w = Some a
    ∧ committed (sh st) = booked_by d a
    ∧ ∀ j φ, φs !! j = Some φ →
        φ = if decide (j = w) then Confirmed else Refused.
Proof.
  intros Hne HI Hfin. pose proof HI as HI'.
  destruct HI' as [Hlen Hsess Hlocks Hdb Hphase Hholder Hwinner].
  unfold finished in Hfin. apply bool_decide_eq_true in Hfin.
  assert (Hend : ∀ j φ, φs !! j = Some φ → φ = Confirmed ∨ φ = Refused).
  { intros j φ Hφ.
    destruct (session_lookup _ _ _ _ j φ HI Hφ) as (a & Ha & Hwf & Hs).
    eapply answer_phase; [exact Hwf|].
    by eapply (Forall_lookup_1 _ _ _ _ Hfin Hs). }
  assert (Hsome : is_Some winner).
  { destruct φs as [|φ0 φs'].
    - destruct ats; [done|discriminate Hlen].
    - pose proof (Hphase 0 φ0 eq_refl) as Hok.
      destruct (Hend 0 φ0 eq_refl) as [-> | ->]; cbn in Hok; [|done].
      by eexists. }
  destruct Hsome as [w ->].
  destruct (Hwinner w eq_refl) as (φw & Hφw & Hwon).
  destruct (session_lookup _ _ _ _ w φw HI Hφw) as (a & Ha & Hwf & Hs).
  cbn [mbind option_bind] in Hdb. rewrite Ha in Hdb.
  exists w, a. split; [done|]. split; [done|].
  intros j φ Hφ. pose proof (Hphase j φ Hφ) as Hok.
  destruct (Hend j φ Hφ) as [-> | ->]; cbn in Hok.
  - injection Hok as ->. by rewrite decide_True.
  - case_decide as Hj; [|done]. subst j.
    rewrite Hφ in Hφw. injection Hφw as <-. discriminate Hwon.
Qed.
End one_slot.

Lemma steps_run_schedule (sch : list nat) (st : system) :
  ∃ sch', steps sch' st (run_schedule sch st).
Proof.
  revert st. induction sch as [|i sch IH]; intros st.
  - exists []. apply steps_refl.
  - cbn [run_schedule]. destruct (system_step i st) as [st'|] eqn:Hstep.
    + destruct (IH st') as [sch' Hsch']. exists (i :: sch').
      eapply steps_next; [exact Hstep|exact Hsch'].
    + apply IH.
Qed.

(** C6. Any number of CreateBooking attempts on one free slot, each with
    its required fields, its strings valid text and an id unused so far,
    run interleaved statement by statement.  No interleaving is longer than eight commands per
    attempt; while some attempt has not answered, some session can move;
    every interleaving can be continued until all attempts have answered;
    and whenever all have answered, exactly one attempt got "Booking
    confirmed", every other got "Timeslot already booked", the slot's
    [is_booked] is true, and the winner's booking is the one active booking
    that references the slot. *)
Theorem concurrent_bookings_one_winner (d : db) (tid : string)
    (t0 : timeslot) (ats : list attempt) (sch : list nat) (st : system) :
  timeslots d !! tid = Some t0 → is_booked t0 = false →
  booked_iff_active d →
  ats ≠ [] → Forall (attempt_on d tid) ats → Forall valid_attempt ats →
  steps sch (start d (attempt_prog <$> ats)) st →
  (length sch ≤ 8 * length ats)%nat
  ∧ (finished st = false → ∃ i st', system_step i st = Some st')
  ∧ (∃ sch' st', steps sch' st st' ∧ finished st' = true)
  ∧ (finished st = true →
     ∃ w a, ats !! w = Some a
       ∧ length (sessions st) = length ats
       ∧ (∀ j s, sessions st !! j = Some s →
            answer s
            = Some (if decide (j = w)
                    then Response 200 (BookingConfirmed (a_uuid a)
                           (BookingDetails tid
                              (text (rq_full_name (a_request a)))
                              (text (rq_email (a_request a)))
                              (slot_date t0) (start_time t0) (end_time t0)))
                    else reply 400 "Timeslot already booked"))
       ∧ (∃ t, timeslots (committed (sh st)) !! tid = Some t
               ∧ is_booked t = true)
       ∧ (∃ b, bookings (committed (sh st)) !! a_uuid a = Some b
               ∧ b_timeslot_id b = tid ∧ booking_status b = "active")
       ∧ (∀ k b, bookings (committed (sh st)) !! k = Some b →
            b_timeslot_id b = tid → booking_status b = "active" →
            k = a_uuid a)).
Proof.
  intros Hslot Hfree Hflag Hne Hwf _ Hsteps.
  destruct (steps_inv d tid t0 ats Hslot Hfree Hwf _ _ _ _ _ _
              (inv_start d tid t0 ats) Hsteps)
    as (φs & lock & winner & HI & Hwork).
  rewrite work_fresh in Hwork.
  split; [lia|]. split.
  { intros Hnot. eapply (inv_progress d tid t0 ats); eassumption. }
  split.
  { eapply (inv_terminates d tid t0 ats Hslot Hfree Hwf); [reflexivity|exact HI]. }
  intros Hfin.
  destruct (inv_finished d tid t0 ats Hfree Hwf _ _ _ _ Hne HI Hfin)
    as (w & a & Ha & Hdb & Hend).
  pose proof (Forall_lookup_1 _ _ _ _ Hwf Ha) as Hwfa.
  destruct Hwfa as (_ & _ & _ & Hslota & Hfresh).
  exists w, a. split; [done|]. split.
  { rewrite (inv_sessions _ _ _ _ _ _ _ _ HI), length_zip_with.
    rewrite (inv_len _ _ _ _ _ _ _ _ HI). lia. }
  split.
  { intros j s Hs. rewrite (inv_sessions _ _ _ _ _ _ _ _ HI) in Hs.
    apply lookup_zip_with_Some in Hs as (a' & φ & -> & Ha' & Hφ).
    pose proof (Forall_lookup_1 _ _ _ _ Hwf Ha') as Hwfa'.
    rewrite (Hend j φ Hφ). case_decide as Hj.
    - subst j. rewrite Ha in Ha'. injection Ha' as <-.
      exact (answer_confirmed d tid t0 Hfree a Hwfa').
    - exact (answer_refused d tid t0 a' Hwfa'). }
  rewrite Hdb. unfold booked_by. cbn [timeslots bookings].
  split; [|split].
  - exists (set_booked true t0). split; [|done].
    unfold a_slot. by rewrite Hslota, lookup_alter_eq, Hslot.
  - exists (new_booking a). rewrite lookup_insert_eq.
    split; [done|]. split; [exact Hslota|done].
  - intros k b Hk Hb Hact. rewrite lookup_insert in Hk.
    case_decide as Hku; [done|]. exfalso.
    assert (is_booked t0 = true); [|congruence].
    apply (Hflag tid t0 Hslot). exists k, b. done.
Qed.

Lemma concurrent_bookings_one_winner_witness :
  ∃ w a, two_attempts !! w = Some a
    ∧ ∀ j s,
        sessions (run_schedule [0; 1; 0; 1; 1; 0; 1; 1; 0; 1; 0; 1; 0; 1]
                    (start seed_db (attempt_prog <$> two_attempts))) !! j
        = Some s →
        answer s
        = Some (if decide (j = w)
                then Response 200 (BookingConfirmed (a_uuid a)
                       (BookingDetails "ts2" (text (rq_full_name (a_request a)))
                          (text (rq_email (a_request a)))
                          "2023-10-15" "09:30" "10:00"))
                else reply 400 "Timeslot already booked").
Proof.
  destruct (steps_run_schedule [0; 1; 0; 1; 1; 0; 1; 1; 0; 1; 0; 1; 0; 1]
              (start seed_db (attempt_prog <$> two_attempts))) as [sch Hsch].
  destruct (concurrent_bookings_one_winner seed_db "ts2"
              (Timeslot "2023-10-15" "09:30" "10:00" false) two_attempts sch
              (run_schedule [0; 1; 0; 1; 1; 0; 1; 1; 0; 1; 0; 1; 0; 1]
                 (start seed_db (attempt_prog <$> two_attempts))))
    as (_ & _ & _ & H).
  - vm_compute. reflexivity.
  - reflexivity.
  - apply (bool_decide_unpack _). vm_compute. exact I.
  - discriminate.
  - unfold two_attempts.
    apply Forall_cons_2; [|apply Forall_cons_2; [|apply Forall_nil_2]];
      (unfold attempt_on; repeat apply conj; vm_compute; reflexivity).
  - unfold two_attempts.
    apply Forall_cons_2; [|apply Forall_cons_2; [|apply Forall_nil_2]];
      reflexivity.
  - exact Hsch.
  - destruct H as (w & a & Ha & _ & Hans & _).
    + vm_compute. reflexivity.
    + exists w, a. split; [exact Ha|exact Hans].
Defined.

(** * Further properties of the handlers *)

(** ** How a request ends *)

Lemma succeeded_reply_400 m : succeeded (Some (reply 400 m)) = false.
Proof. reflexivity. Qed.

Ltac outcome_failed :=
  run_step; split; [reflexivity|]; eexists; split; [reflexivity|];
  split; [cbn; tauto|]; left; repeat split; reflexivity.

(** Every handler ends with its transaction closed and an answer of status
    200, 400 or 500; when the answer is not 200 the database is as before
    and nothing was emitted, and when it is 200 every emitted event is true
    of the database left behind. *)
Lemma serve_outcome (r : request) (d : db) :
  snapshot (serve r d).2 = None
  ∧ ∃ resp, response_of r d = Some resp
      ∧ (status resp = 200 ∨ status resp = 400 ∨ status resp = 500)
      ∧ ((succeeded (response_of r d) = false ∧ db_after r d = d
          ∧ emitted_events (events_of r d) = [])
         ∨ (succeeded (response_of r d) = true
            ∧ Forall (event_holds (db_after r d))
                (emitted_events (events_of r d)))).
Proof.
  destruct r as [rq uuid now|id|rq uuid|id rq|id|month year];
    unfold response_of, db_after, events_of, serve, handler.
  - unfold post_bookings.
    destruct (negb _ || _ || _); [outcome_failed|].
    run_step.
    destruct (timeslots d !! _) as [t|] eqn:Ht; [|outcome_failed].
    destruct (is_booked t) eqn:Hb; [outcome_failed|].
    run_step. rewrite (insert_after_mark _ _ _ t) by done.
    destruct (bookings d !! uuid) eqn:Hu; [outcome_failed|].
    run_step. split; [reflexivity|]. eexists. split; [reflexivity|].
    split; [cbn; tauto|]. right. split; [reflexivity|].
    cbn [emitted_events omap list_omap]. repeat constructor; cbn.
    + by rewrite lookup_alter_eq, Ht.
    + eexists. rewrite lookup_insert_eq. done.
  - unfold put_cancel. run_step.
    destruct (bookings d !! id) as [b|] eqn:Hb; [|outcome_failed].
    destruct (String.eqb (booking_status b) "canceled") eqn:Hc;
      [outcome_failed|].
    run_step.
    destruct (alter _ _ _ !! _) as [row|] eqn:Hrow; run_step;
      (split; [reflexivity|]); eexists; (split; [reflexivity|]);
      (split; [cbn; tauto|]); right; (split; [reflexivity|]);
      cbn [emitted_events omap list_omap]; repeat constructor; cbn.
    + eexists. rewrite lookup_alter_eq, Hb. done.
    + exact Hrow.
    + eexists. rewrite lookup_alter_eq, Hb. done.
  - unfold post_admin_timeslots.
    destruct (negb _ || _ || _); [outcome_failed|].
    run_step. destruct (0 <? _)%nat; [outcome_failed|].
    run_step. unfold insert_timeslot.
    destruct (timeslots d !! uuid) eqn:Hu; [outcome_failed|].
    run_step. split; [reflexivity|]. eexists. split; [reflexivity|].
    split; [cbn; tauto|]. right. split; [reflexivity|].
    cbn [emitted_events omap list_omap]. repeat constructor; cbn.
    by rewrite lookup_insert_eq.
  - unfold put_admin_timeslots.
    destruct (negb _ && _); [outcome_failed|].
    run_step.
    destruct (timeslots d !! id) as [t|] eqn:Ht; [|outcome_failed].
    run_step. destruct (0 <? _)%nat; [outcome_failed|].
    run_step. split; [reflexivity|]. eexists. split; [reflexivity|].
    split; [cbn; tauto|]. right. split; [reflexivity|].
    cbn [emitted_events omap list_omap]. repeat constructor; cbn.
    by rewrite lookup_alter_eq, Ht.
  - unfold delete_admin_timeslots. run_step.
    destruct (0 <? _)%nat; [outcome_failed|].
    run_step. unfold delete_timeslot.
    destruct (decide _) as [He|He]; [|outcome_failed].
    run_step. split; [reflexivity|]. eexists. split; [reflexivity|].
    split; [cbn; tauto|]. right. split; [reflexivity|].
    cbn [emitted_events omap list_omap]. repeat constructor; cbn.
    apply lookup_delete_eq.
  - unfold get_calendar.
    destruct (negb _ || _); [outcome_failed|].
    run_step. split; [reflexivity|]. eexists. split; [reflexivity|].
    split; [cbn; tauto|]. right. split; [reflexivity|]. constructor.
Qed.

(** X3. What a handler broadcasts is true of the database it leaves: a
    slot update carries the stored row of that slot, a deletion event names
    an id that is no longer a slot, and a booking update names a stored
    booking with that slot and that status. *)
Theorem events_describe_database (r : request) (d : db) (e : event) :
  e ∈ emitted_events (events_of r d) →
  event_holds (db_after r d) e.
Proof.
  intros Hin.
  destruct (serve_outcome r d) as (_ & resp & _ & _ & [(_ & _ & Hnil)|[_ Hall]]).
  - rewrite Hnil in Hin. by apply elem_of_nil in Hin.
  - rewrite Forall_forall in Hall. by apply Hall.
Qed.

Lemma events_describe_database_witness :
  event_holds (db_after (CancelBooking "booking1") seed_db)
    (timeslot_update "ts1" (Timeslot "2023-10-15" "09:00" "09:30" false)).
Proof.
  apply (events_describe_database (CancelBooking "booking1") seed_db).
  vm_compute. apply list_elem_of_further, list_elem_of_here.
Defined.

(** X4. No double booking: in every state reachable from the seeded
    database, two active bookings of the same slot are the same booking. *)
Theorem no_double_booking (d : db) (k1 k2 : string) (b1 b2 : booking) :
  reachable d →
  bookings d !! k1 = Some b1 → bookings d !! k2 = Some b2 →
  booking_status b1 = "active" → booking_status b2 = "active" →
  b_timeslot_id b1 = b_timeslot_id b2 →
  k1 = k2.
Proof.
  intros Hd H1 H2 Ha1 Ha2 Hsame.
  exact (c_one d (reachable_consistent d Hd) k1 b1 H1 k2 b2 H2 Ha1 Ha2 Hsame).
Qed.

(** X5. Referential integrity and the two statuses: in every reachable
    state each booking references a slot that exists, and its status is
    'active' or 'canceled'. *)
Theorem bookings_reference_slots (d : db) (k : string) (b : booking) :
  reachable d → bookings d !! k = Some b →
  is_Some (timeslots d !! b_timeslot_id b)
  ∧ (booking_status b = "active" ∨ booking_status b = "canceled").
Proof.
  intros Hd Hk. pose proof (reachable_consistent d Hd) as Hc.
  split; [exact (c_fk d Hc k b Hk)|exact (c_status d Hc k b Hk)].
Qed.

(** X6. The booking history is append-only: serving a request never
    removes a booking row and never changes one, except that a
    cancellation turns the status of a row that was not yet canceled into
    'canceled'. *)
Theorem booking_history_kept (r : request) (d : db) (k : string)
    (b : booking) :
  bookings d !! k = Some b →
  bookings (db_after r d) !! k = Some b
  ∨ (booking_status b ≠ "canceled"
     ∧ bookings (db_after r d) !! k = Some (set_status "canceled" b)).
Proof.
  intros Hk. destruct (serve_transition r d); cbn [bookings]; auto.
  - left. rewrite lookup_insert_ne; [done|]. intros ->. congruence.
  - rewrite lookup_alter. case_decide as Hid; [|by left].
    subst k. right. rewrite Hk in *. by simplify_eq/=.
Qed.

Lemma no_double_booking_witness :
  bookings seed_db !! "booking1" = bookings seed_db !! "booking1"
  ∧ "booking1" = "booking1".
Proof.
  split; [reflexivity|].
  pose (b := Booking "ts1" "Alice Johnson" "alice.johnson@gmail.com"
               (Some "555-1234") (Some "Consultation appointment") "active"
               "2023-10-15 08:55:00").
  refine (no_double_booking seed_db "booking1" "booking1" b b
            reach_seed _ _ eq_refl eq_refl eq_refl);
    vm_compute; reflexivity.
Defined.

Lemma bookings_reference_slots_witness :
  is_Some (timeslots (db_after (CreateBooking jane "u1" "t1") seed_db) !! "ts2").
Proof.
  refine (proj1 (bookings_reference_slots
            (db_after (CreateBooking jane "u1" "t1") seed_db) "u1"
            (Booking "ts2" "Jane Doe" "jane@x.com" None None "active" "t1")
            (reach_serve _ _ reach_seed) _)).
  vm_compute. reflexivity.
Defined.

Lemma booking_history_kept_witness :
  bookings (db_after (CancelBooking "booking1") seed_db) !! "booking2"
  = bookings seed_db !! "booking2".
Proof.
  destruct (booking_history_kept (CancelBooking "booking1") seed_db "booking2"
              (Booking "ts3" "Bob Smith" "bob.smith@gmail.com" None
                 (Some "Follow up consultation") "active"
                 "2023-10-15 09:55:00")) as [H|[_ H]].
  - vm_compute. reflexivity.
  - rewrite H. vm_compute. reflexivity.
  - exfalso. revert H. vm_compute. discriminate.
Defined.

(** X7. A slot freed by a cancellation can be booked again at once: after
    cancelling an active booking, a CreateBooking on its slot with the
    required fields, valid text in every string and an unused id is
    confirmed with the slot's date and times, and the slot is booked
    again. *)
Theorem rebook_after_cancel (d : db) (k : string) (b : booking)
    (t : timeslot) (rq : booking_request) (uuid now : string) :
  bookings d !! k = Some b → booking_status b = "active" →
  timeslots d !! b_timeslot_id b = Some t →
  valid_text k = true →
  truthy (rq_timeslot_id rq) = true →
  truthy (rq_full_name rq) = true →
  truthy (rq_email rq) = true →
  valid_booking_request rq uuid now = true →
  text (rq_timeslot_id rq) = b_timeslot_id b →
  bookings d !! uuid = None →
  let d1 := db_after (CancelBooking k) d in
  (∃ t1, timeslots d1 !! b_timeslot_id b = Some t1 ∧ is_booked t1 = false)
  ∧ response_of (CreateBooking rq uuid now) d1
    = Some (Response 200 (BookingConfirmed uuid
        (BookingDetails (b_timeslot_id b) (text (rq_full_name rq))
           (text (rq_email rq)) (slot_date t) (start_time t) (end_time t))))
  ∧ ∃ t2, timeslots (db_after (CreateBooking rq uuid now) d1)
            !! b_timeslot_id b = Some t2 ∧ is_booked t2 = true.
Proof.
  intros Hk Hact Ht _ Hid Hname Hemail _ Hslot Hfresh d1.
  destruct (cancel_active k d b Hk Hact) as [_ Hd1]. fold d1 in Hd1.
  assert (Hrow : timeslots d1 !! b_timeslot_id b = Some (set_booked false t)).
  { rewrite Hd1. cbn [timeslots]. by rewrite lookup_alter_eq, Ht. }
  assert (Hnew : bookings d1 !! uuid = None).
  { rewrite Hd1. cbn [bookings]. rewrite lookup_insert_ne; [done|].
    intros ->. congruence. }
  split; [by eexists|].
  unfold response_of, db_after.
  rewrite (create_booking_run rq uuid now d1)
    by (by rewrite Hid, Hname, Hemail).
  rewrite Hslot, Hrow. cbn [is_booked set_booked]. rewrite Hnew.
  cbn [fst snd store timeslots slot_date start_time end_time].
  split; [done|]. eexists. by rewrite lookup_alter_eq, Hrow.
Qed.

Lemma rebook_after_cancel_witness :
  response_of
    (CreateBooking (BookingRequest (Some "ts1") (Some "Jane Doe")
                      (Some "jane@x.com") None None) "u1" "t1")
    (db_after (CancelBooking "booking1") seed_db)
  = Some (Response 200 (BookingConfirmed "u1"
      (BookingDetails "ts1" "Jane Doe" "jane@x.com" "2023-10-15"
         "09:00" "09:30")))
  ∧ timeslots (db_after (CancelBooking "booking1") seed_db) !! "ts1"
    = Some (Timeslot "2023-10-15" "09:00" "09:30" false)
  ∧ timeslots
      (db_after
         (CreateBooking (BookingRequest (Some "ts1") (Some "Jane Doe")
                           (Some "jane@x.com") None None) "u1" "t1")
         (db_after (CancelBooking "booking1") seed_db)) !! "ts1"
    = Some (Timeslot "2023-10-15" "09:00" "09:30" true).
Proof.
  split; [|split; vm_compute; reflexivity].
  refine (proj1 (proj2 (rebook_after_cancel seed_db "booking1"
    (Booking "ts1" "Alice Johnson" "alice.johnson@gmail.com"
       (Some "555-1234") (Some "Consultation appointment") "active"
       "2023-10-15 08:55:00")
    (Timeslot "2023-10-15" "09:00" "09:30" true)
    (BookingRequest (Some "ts1") (Some "Jane Doe") (Some "jane@x.com")
       None None) "u1" "t1" _ eq_refl _ eq_refl eq_refl eq_refl eq_refl
    eq_refl eq_refl _)));
    vm_compute; reflexivity.
Defined.

(** X8. Deleting a slot that no booking references, by an id that is
    valid text, answers "Timeslot deleted successfully", removes the slot
    and emits the deletion event; this includes an id that names no slot at
    all, where the answer and the event are the same and the database is
    unchanged. *)
Theorem delete_unreferenced_slot (id : string) (d : db) :
  valid_text id = true →
  referencing id d = ∅ →
  response_of (DeleteSlot id) d
  = Some (reply 200 "Timeslot deleted successfully")
  ∧ db_after (DeleteSlot id) d = Db (delete id (timeslots d)) (bookings d)
  ∧ events_of (DeleteSlot id) d = [Emitted (timeslot_deleted id)]
  ∧ (timeslots d !! id = None → db_after (DeleteSlot id) d = d).
Proof.
  intros _ Hnoref.
  assert (Hz : (0 <? count_bookings id "active" d)%nat = false).
  { unfold count_bookings. apply size_filter_zero. intros k b Hk [Hs _].
    unfold referencing in Hnoref.
    by apply (map_empty_filter_1 _ _ Hnoref k b Hk). }
  assert (Hrun : serve (DeleteSlot id) d
    = (Some (reply 200 "Timeslot deleted successfully"),
       Conn (Db (delete id (timeslots d)) (bookings d)) None
         [Emitted (timeslot_deleted id)])).
  { unfold serve, handler, delete_admin_timeslots. run_step. rewrite Hz.
    run_step. unfold delete_timeslot. rewrite decide_True by done.
    by run_step. }
  unfold response_of, db_after, events_of. rewrite Hrun. cbn.
  split; [done|]. split; [done|]. split; [done|].
  intros Hnone. rewrite delete_id by done. by destruct d.
Qed.

Lemma delete_unreferenced_slot_witness :
  response_of (DeleteSlot "ts2") seed_db
  = Some (reply 200 "Timeslot deleted successfully")
  ∧ timeslots (db_after (DeleteSlot "ts2") seed_db) !! "ts2" = None
  ∧ response_of (DeleteSlot "nowhere") seed_db
    = Some (reply 200 "Timeslot deleted successfully").
Proof.
  split; [|split; [vm_compute; reflexivity|]].
  - refine (proj1 (delete_unreferenced_slot "ts2" seed_db eq_refl _)).
    vm_compute. reflexivity.
  - refine (proj1 (delete_unreferenced_slot "nowhere" seed_db eq_refl _)).
    vm_compute. reflexivity.
Defined.

(** ** Slots of one date never overlap *)

Lemma no_overlap_unfold (d : db) :
  no_overlap d
  ↔ ∀ id1 t1, timeslots d !! id1 = Some t1 →
    ∀ id2 t2, timeslots d !! id2 = Some t2 →
      id1 ≠ id2 → slot_date t1 = slot_date t2 →
      overlaps (start_time t1) (end_time t1) t2 = false.
Proof. reflexivity. Qed.

Lemma overlaps_sym (t1 t2 : timeslot) :
  overlaps (start_time t1) (end_time t1) t2
  = overlaps (start_time t2) (end_time t2) t1.
Proof. unfold overlaps. apply andb_comm. Qed.

Lemma overlaps_times (t1 t2 x1 x2 : timeslot) :
  start_time t1 = start_time x1 → end_time t1 = end_time x1 →
  start_time t2 = start_time x2 → end_time t2 = end_time x2 →
  overlaps (start_time t1) (end_time t1) t2
  = overlaps (start_time x1) (end_time x1) x2.
Proof. unfold overlaps. by intros -> -> -> ->. Qed.

Lemma alter_flag_lookup (b : bool) (id k : string) (t' : timeslot)
    (ts : gmap string timeslot) :
  alter (set_booked b) id ts !! k = Some t' →
  ∃ t, ts !! k = Some t ∧ slot_date t' = slot_date t
       ∧ start_time t' = start_time t ∧ end_time t' = end_time t.
Proof.
  rewrite lookup_alter. case_decide as Hid.
  - subst k. destruct (ts !! id) as [t|]; [|done]. intros [= <-].
    by exists t.
  - intros Hk. by exists t'.
Qed.

Lemma no_overlap_flag (b : bool) (id : string) (d : db) bs :
  no_overlap d →
  no_overlap (Db (alter (set_booked b) id (timeslots d)) bs).
Proof.
  rewrite !no_overlap_unfold. cbn [timeslots].
  intros H id1 t1 H1 id2 t2 H2 Hne Hdate.
  apply alter_flag_lookup in H1 as (x1 & Hx1 & Hd1 & Hs1 & He1).
  apply alter_flag_lookup in H2 as (x2 & Hx2 & Hd2 & Hs2 & He2).
  rewrite (overlaps_times t1 t2 x1 x2) by done.
  apply (H id1 x1 Hx1 id2 x2 Hx2 Hne). congruence.
Qed.

Lemma no_overlap_delete (id : string) (d : db) bs :
  no_overlap d → no_overlap (Db (delete id (timeslots d)) bs).
Proof.
  rewrite !no_overlap_unfold. cbn [timeslots].
  intros H id1 t1 H1 id2 t2 H2.
  apply lookup_delete_Some in H1 as [_ H1].
  apply lookup_delete_Some in H2 as [_ H2]. by eapply H.
Qed.

Lemma no_overlap_put (id : string) (t : timeslot) (d : db) bs :
  (∀ k v, timeslots d !! k = Some v → k ≠ id → slot_date v = slot_date t →
          overlaps (start_time t) (end_time t) v = false) →
  no_overlap d → no_overlap (Db (<[id := t]> (timeslots d)) bs).
Proof.
  rewrite !no_overlap_unfold. cbn [timeslots].
  intros Hnew H id1 t1 H1 id2 t2 H2 Hne Hdate.
  apply lookup_insert_Some in H1 as [[-> ->]|[Hn1 H1]];
    apply lookup_insert_Some in H2 as [[-> ->]|[Hn2 H2]].
  - done.
  - apply (Hnew id2 t2 H2); [congruence|done].
  - rewrite overlaps_sym. apply (Hnew id1 t1 H1); [congruence|done].
  - by eapply (H id1 t1 H1 id2 t2 H2).
Qed.

Lemma no_conflict_rows {P : string * timeslot → Prop}
    `{!∀ x, Decision (P x)} (ts : gmap string timeslot) :
  (0 <? size (filter P ts))%nat = false →
  ∀ k v, ts !! k = Some v → ¬ P (k, v).
Proof. intros Hz. exact (proj1 (size_filter_zero P ts) Hz). Qed.

Lemma no_overlap_step (r : request) (d : db) :
  no_overlap d → no_overlap (db_after r d).
Proof.
  intros H.
  destruct r as [rq uuid now|id|rq uuid|id rq|id|month year];
    unfold db_after, serve, handler.
  - unfold post_bookings.
    destruct (negb _ || _ || _); [by run_step|].
    run_step.
    destruct (timeslots d !! _) as [t|] eqn:Ht; [|by run_step].
    destruct (is_booked t) eqn:Hb; [by run_step|].
    run_step. rewrite (insert_after_mark _ _ _ t) by done.
    destruct (bookings d !! uuid) eqn:Hu; [by run_step|].
    run_step. by apply no_overlap_flag.
  - unfold put_cancel. run_step.
    destruct (bookings d !! id) as [b|] eqn:Hb; [|by run_step].
    destruct (String.eqb (booking_status b) "canceled") eqn:Hc;
      [by run_step|].
    run_step. destruct (alter _ _ _ !! _); run_step;
      unfold update_is_booked, update_status; cbn [timeslots bookings];
      by apply no_overlap_flag.
  - unfold post_admin_timeslots.
    destruct (negb _ || _ || _); [by run_step|].
    run_step. destruct (0 <? _)%nat eqn:Hc; [by run_step|].
    run_step. unfold insert_timeslot.
    destruct (timeslots d !! uuid) eqn:Hu; run_step; [done|].
    apply no_overlap_put; [|done]. intros k v Hk _ Hdate.
    pose proof (no_conflict_rows _ Hc k v Hk) as Hno.
    apply not_true_is_false. intros Hov. apply Hno, Is_true_true.
    unfold create_conflict.
    cbn [fst snd slot_date start_time end_time] in *.
    by rewrite Hov, bool_decide_eq_true_2.
  - unfold put_admin_timeslots.
    destruct (negb _ && _); [by run_step|].
    run_step.
    destruct (timeslots d !! id) as [t|] eqn:Ht; [|by run_step].
    run_step. destruct (0 <? _)%nat eqn:Hc; [by run_step|].
    run_step. unfold update_times. cbn [timeslots bookings].
    rewrite (alter_present _ _ _ _ Ht).
    apply no_overlap_put; [|done]. intros k v Hk Hne Hdate.
    pose proof (no_conflict_rows _ Hc k v Hk) as Hno.
    apply not_true_is_false. intros Hov. apply Hno, Is_true_true.
    unfold edit_conflict. cbn [fst snd set_times slot_date start_time
                               end_time] in *.
    by rewrite Hov, !bool_decide_eq_true_2.
  - unfold delete_admin_timeslots. run_step.
    destruct (0 <? _)%nat; [by run_step|].
    run_step. unfold delete_timeslot.
    destruct (decide _) as [He|He]; run_step; [|done].
    by apply no_overlap_delete.
  - unfold get_calendar. destruct (negb _ || _); by run_step.
Qed.

Lemma seed_no_overlap : no_overlap seed_db.
Proof. apply (bool_decide_unpack _). vm_compute. exact I. Qed.

(** X9. When requests are served one at a time, slots never overlap: in
    every state reached from the seeded database by serving whole requests
    one after the other, two different slots of the same date do not
    satisfy the overlap test [s1 < e2 AND s2 < e1]; creation and editing
    are the only requests that change times, and each refuses an interval
    that would break this.  (The check and the write of these two handlers
    are separate statements outside any transaction, so the property is
    about requests that do not run at the same time.) *)
Theorem slots_never_overlap (d : db) (id1 id2 : string) (t1 t2 : timeslot) :
  reachable d →
  timeslots d !! id1 = Some t1 → timeslots d !! id2 = Some t2 →
  id1 ≠ id2 → slot_date t1 = slot_date t2 →
  ¬ (text_lt (start_time t1) (end_time t2) = true
     ∧ text_lt (start_time t2) (end_time t1) = true).
Proof.
  intros Hreach H1 H2 Hne Hdate [Ha Hb].
  assert (Hno : no_overlap d).
  { clear H1 H2. induction Hreach as [|r d Hd IH];
      [exact seed_no_overlap|by apply no_overlap_step]. }
  pose proof (proj1 (no_overlap_unfold d) Hno id1 t1 H1 id2 t2 H2 Hne Hdate)
    as Hov.
  unfold overlaps in Hov. by rewrite Ha, Hb in Hov.
Qed.

Lemma slots_never_overlap_witness :
  ¬ (text_lt "09:00" "10:00" = true ∧ text_lt "09:30" "09:30" = true).
Proof.
  refine (slots_never_overlap seed_db "ts1" "ts2"
            (Timeslot "2023-10-15" "09:00" "09:30" true)
            (Timeslot "2023-10-15" "09:30" "10:00" false)
            reach_seed _ _ _ eq_refl).
  - vm_compute. reflexivity.
  - vm_compute. reflexivity.
  - discriminate.
Defined.

(** ** The calendar's availability flag *)

Lemma size_booked_free (g : gmap string timeslot) :
  size g
  = size (filter (λ row, is_booked row.2 = true) g)
    + size (filter (λ row, ¬ is_booked row.2 = true) g).
Proof.
  rewrite <- (map_filter_union_complement
                (λ row : string * timeslot, is_booked row.2 = true) g) at 1.
  apply map_size_disj_union, map_disjoint_filter_complement.
Qed.

Lemma calendar_run (month year : option string) (d : db) :
  serve (GetCalendar month year) d
  = if negb (truthy month) || negb (truthy year)
    then (Some (reply 400 "Missing month or year query parameter"),
          fresh_conn d)
    else
      let m := like_rows (text year ++ "-" ++ padStart 2 "0" (text month)
                          ++ "-%") d in
      (Some (Response 200 (Calendar
         ((λ date,
             CalendarEntry date (count_star (date_group date m))
               (sum_booked (date_group date m))
               (0 <? Z.of_nat (count_star (date_group date m))
                     - Z.of_nat (sum_booked (date_group date m)))%Z)
            <$> group_keys m))),
       fresh_conn d).
Proof.
  unfold serve, handler, get_calendar.
  destruct (negb _ || _); [by run_step|].
  run_step. unfold calendar_query. by rewrite <- list_fmap_compose.
Qed.

(** X10. The calendar is read-only, and its [available] flag means what
    it says: in every entry the booked count is at most the total, and
    [available] is true exactly when some slot of that date is not booked.
    This holds for any month and year strings, wildcards included. *)
Theorem calendar_availability (month year : option string) (d : db)
    (entries : list calendar_entry) :
  response_of (GetCalendar month year) d
  = Some (Response 200 (Calendar entries)) →
  db_after (GetCalendar month year) d = d
  ∧ events_of (GetCalendar month year) d = []
  ∧ Forall (λ e,
      (booked_slots e ≤ total_slots e)%nat
      ∧ (available e = true
         ↔ ∃ id t, timeslots d !! id = Some t
                   ∧ slot_date t = ce_slot_date e ∧ is_booked t = false))
      entries.
Proof.
  unfold response_of, db_after, events_of. rewrite calendar_run.
  destruct (negb _ || _); [discriminate|]. cbn zeta. cbn [fst snd].
  intros [= <-]. split; [done|]. split; [done|].
  set (pattern := text year ++ "-" ++ padStart 2 "0" (text month) ++ "-%").
  apply Forall_fmap, Forall_forall. intros date Hdate.
  apply elem_of_group_keys in Hdate as (id0 & t0 & Hid0 & Hd0).
  apply map_lookup_filter_Some in Hid0 as [Hid0 Hlike]. cbn [snd] in Hlike.
  rewrite Hd0 in Hlike. apply Is_true_true in Hlike.
  cbn [compose total_slots booked_slots available ce_slot_date].
  unfold count_star. rewrite sum_booked_size.
  rewrite (date_group_like pattern date d Hlike).
  set (g := filter (λ row : string * timeslot, slot_date row.2 = date)
              (timeslots d)).
  pose proof (size_booked_free g) as Hsplit.
  split; [lia|].
  rewrite Z.ltb_lt.
  assert (Hfree : (0 <? size (filter
            (λ row : string * timeslot, ¬ is_booked row.2 = true) g))%nat
          = true
          ↔ ∃ id t, timeslots d !! id = Some t ∧ slot_date t = date
                    ∧ is_booked t = false).
  { rewrite size_filter_pos. split.
    - intros (k & t & Hk & Hnb). cbn [snd] in Hnb.
      apply map_lookup_filter_Some in Hk as [Hk Hdt]. cbn [snd] in Hdt.
      exists k, t. split; [done|]. split; [done|].
      by apply not_true_is_false.
    - intros (k & t & Hk & Hdt & Hnb). exists k, t. split.
      + by apply map_lookup_filter_Some.
      + cbn [snd]. congruence. }
  rewrite <- Hfree, Nat.ltb_lt. lia.
Qed.

Lemma calendar_availability_witness :
  Forall (λ e,
      (booked_slots e ≤ total_slots e)%nat
      ∧ (available e = true
         ↔ ∃ id t, timeslots seed_db !! id = Some t
                   ∧ slot_date t = ce_slot_date e ∧ is_booked t = false))
    [CalendarEntry "2023-10-15" 4 2 true; CalendarEntry "2023-10-16" 3 0 true].
Proof.
  refine (proj2 (proj2 (calendar_availability (Some "10") (Some "2023")
                          seed_db _ _))).
  vm_compute. reflexivity.
Defined.

(** ** Required fields stay filled *)

Lemma text_filled (v : option string) : truthy v = true → text v ≠ "".
Proof.
  destruct v as [s|]; simpl; [|done]. unfold text, or_else.
  destruct (String.eqb s "") eqn:He; [done|]. intros _.
  by apply String.eqb_neq.
Qed.

Lemma or_else_filled (v : option string) (x : string) :
  x ≠ "" → or_else v x ≠ "".
Proof.
  intros Hx. destruct v as [s|]; simpl; [|done].
  destruct (String.eqb s "") eqn:He; [done|]. by apply String.eqb_neq.
Qed.

Lemma or_null_filled (v : option string) : or_null v ≠ Some "".
Proof.
  unfold or_null. destruct v as [s|]; simpl; [|done].
  destruct (String.eqb s "") eqn:He; simpl; [done|].
  intros [= ->]. by rewrite String.eqb_refl in He.
Qed.

Lemma map_Forall_alter_keep {A} (P : A → Prop) (f : A → A) (k : string)
    (m : gmap string A) :
  (∀ x, P x → P (f x)) →
  map_Forall (λ _ x, P x) m → map_Forall (λ _ x, P x) (alter f k m).
Proof.
  intros Hf Hm j y. rewrite lookup_alter. case_decide as Hkj.
  - subst j. destruct (m !! k) as [x|] eqn:Hx; [|done]. intros [= <-].
    apply Hf. by eapply Hm.
  - apply Hm.
Qed.

Lemma three_truthy (a b c : option string) :
  negb (truthy a) || negb (truthy b) || negb (truthy c) = false →
  truthy a = true ∧ truthy b = true ∧ truthy c = true.
Proof. destruct (truthy a), (truthy b), (truthy c); naive_solver. Qed.

Lemma filled_step (r : request) (d : db) : filled d → filled (db_after r d).
Proof.
  intros [Hb Ht].
  assert (Hflag : ∀ b id, map_Forall (λ _ t, filled_slot t)
                            (alter (set_booked b) id (timeslots d))).
  { intros b id. by apply map_Forall_alter_keep. }
  destruct r as [rq uuid now|id|rq uuid|id rq|id|month year];
    unfold db_after, serve, handler.
  - unfold post_bookings.
    destruct (negb _ || _ || _) eqn:Hv; [by run_step|].
    apply three_truthy in Hv as (Hid & Hname & Hemail).
    run_step.
    destruct (timeslots d !! _) as [t|] eqn:Hrow; [|by run_step].
    destruct (is_booked t) eqn:Hbk; [by run_step|].
    run_step. rewrite (insert_after_mark _ _ _ t) by done.
    destruct (bookings d !! uuid) eqn:Hu; [by run_step|].
    run_step. split; cbn [bookings timeslots]; [|done].
    apply map_Forall_insert_2; [|done].
    repeat split; cbn;
      auto using text_filled, or_null_filled.
  - unfold put_cancel. run_step.
    destruct (bookings d !! id) as [b|] eqn:Hrow; [|by run_step].
    destruct (String.eqb (booking_status b) "canceled") eqn:Hc;
      [by run_step|].
    run_step. destruct (alter _ _ _ !! _); run_step;
      unfold update_is_booked, update_status; cbn [timeslots bookings];
      (split; cbn [bookings timeslots]; [|done]);
      by apply map_Forall_alter_keep.
  - unfold post_admin_timeslots.
    destruct (negb _ || _ || _) eqn:Hv; [by run_step|].
    apply three_truthy in Hv as (Hdate & Hs & He).
    run_step. destruct (0 <? _)%nat; [by run_step|].
    run_step. unfold insert_timeslot.
    destruct (timeslots d !! uuid) eqn:Hu; run_step; [done|].
    split; cbn [bookings timeslots]; [done|].
    apply map_Forall_insert_2; [|done].
    repeat split; cbn; auto using text_filled.
  - unfold put_admin_timeslots.
    destruct (negb _ && _); [by run_step|].
    run_step.
    destruct (timeslots d !! id) as [t|] eqn:Hrow; [|by run_step].
    run_step. destruct (0 <? _)%nat; [by run_step|].
    run_step. unfold update_times. cbn [timeslots bookings].
    split; cbn [bookings timeslots]; [done|].
    rewrite (alter_present _ _ _ _ Hrow).
    destruct (Ht id t Hrow) as (H1 & H2 & H3).
    apply map_Forall_insert_2; [|done].
    repeat split; cbn; auto using or_else_filled.
  - unfold delete_admin_timeslots. run_step.
    destruct (0 <? _)%nat; [by run_step|].
    run_step. unfold delete_timeslot.
    destruct (decide _) as [He|He]; run_step; [|done].
    split; cbn [bookings timeslots]; [done|].
    by apply map_Forall_delete.
  - unfold get_calendar. destruct (negb _ || _); by run_step.
Qed.

Lemma seed_filled : filled seed_db.
Proof. apply (bool_decide_unpack _). vm_compute. exact I. Qed.

(** X11. The required-field contract holds of what is stored: in every
    reachable state each booking has a non-empty slot id, name and email,
    each slot a non-empty date, start and end, and the optional phone and
    notes of a booking are NULL or non-empty, never the empty string. *)
Theorem stored_rows_are_filled (d : db) :
  reachable d →
  (∀ k b, bookings d !! k = Some b →
     b_timeslot_id b ≠ "" ∧ full_name b ≠ "" ∧ email b ≠ ""
     ∧ phone b ≠ Some "" ∧ appointment_notes b ≠ Some "")
  ∧ (∀ id t, timeslots d !! id = Some t →
     slot_date t ≠ "" ∧ start_time t ≠ "" ∧ end_time t ≠ "").
Proof.
  intros Hreach.
  assert (Hf : filled d).
  { induction Hreach as [|r d Hd IH];
      [exact seed_filled|by apply filled_step]. }
  destruct Hf as [Hb Ht]. split.
  - intros k b Hk. exact (Hb k b Hk).
  - intros id t Hid. exact (Ht id t Hid).
Qed.

Lemma stored_rows_are_filled_witness :
  ∃ b,
    bookings (db_after
      (CreateBooking (BookingRequest (Some "ts2") (Some "Jane Doe")
                        (Some "jane@x.com") (Some "") None) "u1" "t1")
      seed_db) !! "u1" = Some b
    ∧ phone b ≠ Some "".
Proof.
  eexists. split.
  - vm_compute. reflexivity.
  - refine (proj1 (proj2 (proj2 (proj2 (proj1 (stored_rows_are_filled _
      (reach_serve (CreateBooking (BookingRequest (Some "ts2")
                      (Some "Jane Doe") (Some "jane@x.com") (Some "") None)
                      "u1" "t1")
         _ reach_seed)) "u1" _ _))))).
    vm_compute. reflexivity.
Defined.

(** ** Listing the slots of a day *)

Global Instance by_start_time_transitive : Transitive by_start_time.
Proof.
  intros a b c Hab Hbc. unfold by_start_time in *. apply Is_true_true.
  eapply text_le_trans; by apply Is_true_true.
Qed.

Global Instance by_start_time_total : Total by_start_time.
Proof.
  intros a b. unfold by_start_time.
  destruct (text_le_total (start_time a.2) (start_time b.2));
    [left|right]; by apply Is_true_true.
Qed.

Lemma StronglySorted_weaken {A} (R R' : A → A → Prop) (l : list A) :
  (∀ x y, R x y → R' x y) → StronglySorted R l → StronglySorted R' l.
Proof.
  intros Himp. induction 1 as [|x l Hl IH Hx]; constructor; [done|].
  eapply Forall_impl; [exact Hx|]. intros y. apply Himp.
Qed.

Lemma select_by_date_perm (date : string) (d : db) :
  select_by_date date d
  ≡ₚ map_to_list (filter (λ row, slot_date row.2 = date) (timeslots d)).
Proof. unfold select_by_date. apply merge_sort_Permutation. Qed.

Lemma elem_of_select_by_date (date id : string) (t : timeslot) (d : db) :
  (id, t) ∈ select_by_date date d
  ↔ timeslots d !! id = Some t ∧ slot_date t = date.
Proof.
  rewrite select_by_date_perm, elem_of_map_to_list, map_lookup_filter_Some.
  done.
Qed.

(** X12. The day's listing: without a date (absent or empty) the answer is
    the 400 error; with a date, the answer is "Internal server error" when
    the query is rejected or the date is not valid text, and otherwise the
    route returns every slot of that date and no other row, each slot once,
    with its booked flag, ordered by start time. *)
Theorem day_listing (fault : bool) (date : option string) (d : db) :
  (truthy date = false →
     get_timeslots_pg fault date d
     = Failure 400 "Missing slot_date query parameter")
  ∧ (truthy date = true → fault = true ∨ valid_field date = false →
     get_timeslots_pg fault date d = Failure 500 "Internal server error")
  ∧ (truthy date = true → fault = false → valid_field date = true →
     ∃ rows, get_timeslots_pg fault date d = Json rows
       ∧ get_timeslots date d = Json rows
       ∧ (∀ id t, (id, t) ∈ rows
            ↔ timeslots d !! id = Some t ∧ slot_date t = text date)
       ∧ NoDup rows.*1
       ∧ StronglySorted
           (λ r1 r2, text_le (start_time r1.2) (start_time r2.2) = true)
           rows).
Proof.
  unfold get_timeslots_pg, get_timeslots, valid_field.
  split; [by intros ->|]. split.
  - intros -> [-> | ->]; [done|]. cbn [negb]. by rewrite orb_true_r.
  - intros -> -> ->. cbn [negb orb].
    eexists. split; [reflexivity|]. split; [reflexivity|]. split; [|split].
    + intros id t. apply elem_of_select_by_date.
    + rewrite select_by_date_perm. apply NoDup_fst_map_to_list.
    + eapply StronglySorted_weaken;
        [|apply (StronglySorted_merge_sort by_start_time)].
      intros r1 r2 H. by apply Is_true_true.
Qed.

Lemma day_listing_witness :
  get_timeslots_pg false (Some "2023-10-16") seed_db
  = Json [("ts5", Timeslot "2023-10-16" "11:00" "11:30" false);
          ("ts6", Timeslot "2023-10-16" "11:30" "12:00" false);
          ("ts7", Timeslot "2023-10-16" "12:00" "12:30" false)]
  ∧ (∃ rows, get_timeslots_pg false (Some "2023-10-16") seed_db = Json rows
             ∧ NoDup rows.*1)
  ∧ get_timeslots_pg false (Some (String Ascii.zero "2023")) seed_db
    = Failure 500 "Internal server error".
Proof.
  split; [vm_compute; reflexivity|]. split.
  - destruct (proj2 (proj2 (day_listing false (Some "2023-10-16") seed_db))
                eq_refl eq_refl eq_refl) as (rows & Hr & _ & _ & Hnd & _).
    exists rows. split; [exact Hr|exact Hnd].
  - apply (proj1 (proj2 (day_listing false (Some (String Ascii.zero "2023"))
                           seed_db)) eq_refl).
    by right.
Defined.

(** X13. A created slot shows up in its day's listing: after a creation
    request that is answered with the new id, the listing of the requested
    date contains the new slot, not booked, next to every slot that was
    listed before. *)
Theorem created_slot_is_listed (rq : timeslot_request) (uuid : string)
    (d : db) :
  response_of (CreateSlot rq uuid) d = Some (Response 200 (TimeslotAdded uuid)) →
  let d' := db_after (CreateSlot rq uuid) d in
  let date := text (rq_slot_date rq) in
  ∃ rows, get_timeslots (rq_slot_date rq) d' = Json rows
    ∧ (uuid, Timeslot date (text (rq_start_time rq)) (text (rq_end_time rq))
               false) ∈ rows
    ∧ ∀ old row, get_timeslots (rq_slot_date rq) d = Json old →
        row ∈ old → row ∈ rows.
Proof.
  intros Hresp d' date. unfold get_timeslots.
  assert (Hv : negb (truthy (rq_slot_date rq))
               || negb (truthy (rq_start_time rq))
               || negb (truthy (rq_end_time rq)) = false).
  { destruct (negb _ || _ || _) eqn:Hv; [|done].
    revert Hresp. unfold response_of, serve, handler, post_admin_timeslots.
    rewrite Hv. discriminate. }
  apply three_truthy in Hv as (Hd & Hs & He).
  pose proof (create_run rq uuid d Hd Hs He) as Hrun. cbn zeta in Hrun.
  destruct (0 <? _)%nat.
  { destruct Hrun as [Hr _]. rewrite Hr in Hresp. discriminate. }
  destruct (timeslots d !! uuid) eqn:Hu.
  { destruct Hrun as [Hr _]. rewrite Hr in Hresp. discriminate. }
  destruct Hrun as [_ Hdb]. fold d' in Hdb. rewrite Hd. cbn [negb].
  eexists. split; [reflexivity|]. split.
  - apply elem_of_select_by_date. rewrite Hdb. cbn [timeslots].
    by rewrite lookup_insert_eq.
  - intros old [id t] [= <-]. rewrite !elem_of_select_by_date.
    intros [Hid Hdt]. split; [|done]. rewrite Hdb. cbn [timeslots].
    rewrite lookup_insert_ne; [done|]. intros ->. congruence.
Qed.

Lemma created_slot_is_listed_witness :
  ∃ rows,
    get_timeslots (Some "2023-10-16")
      (db_after (CreateSlot (TimeslotRequest (Some "2023-10-16") (Some "13:00")
                               (Some "13:30")) "u9") seed_db) = Json rows
    ∧ ("u9", Timeslot "2023-10-16" "13:00" "13:30" false) ∈ rows.
Proof.
  destruct (created_slot_is_listed
    (TimeslotRequest (Some "2023-10-16") (Some "13:00") (Some "13:30"))
    "u9" seed_db) as (rows & Hr & Hin & _).
  - vm_compute. reflexivity.
  - exists rows. split; [exact Hr|exact Hin].
Defined.

(** ** Listing the bookings *)

Global Instance by_created_at_transitive : Transitive by_created_at.
Proof.
  intros a b c Hab Hbc. unfold by_created_at in *. apply Is_true_true.
  eapply text_le_trans; by apply Is_true_true.
Qed.

Global Instance by_created_at_total : Total by_created_at.
Proof.
  intros a b. unfold by_created_at.
  destruct (text_le_total (created_at (br_booking a))
              (created_at (br_booking b)));
    [left|right]; by apply Is_true_true.
Qed.

Lemma elem_of_joined (r : booking_row) (d : db) :
  r ∈ joined d
  ↔ ∃ k b t, bookings d !! k = Some b
      ∧ timeslots d !! b_timeslot_id b = Some t
      ∧ r = BookingRow k b (slot_date t) (start_time t) (end_time t).
Proof.
  unfold joined. rewrite list_elem_of_omap. split.
  - intros ([k b] & Hin & Hj). apply elem_of_map_to_list in Hin.
    unfold join_row in Hj. cbn [fst snd] in Hj.
    destruct (timeslots d !! b_timeslot_id b) as [t|] eqn:Ht; [|done].
    injection Hj as <-. by exists k, b, t.
  - intros (k & b & t & Hk & Ht & ->). exists (k, b). split.
    + by apply elem_of_map_to_list.
    + unfold join_row. cbn [fst snd]. by rewrite Ht.
Qed.

Lemma joined_ids_sub (d : db) (l : list (string * booking)) (k : string) :
  k ∈ br_booking_id <$> omap (join_row d) l → k ∈ l.*1.
Proof.
  induction l as [|[k' b] l IH]; cbn; [done|].
  unfold join_row at 1. cbn [fst snd].
  destruct (timeslots d !! b_timeslot_id b); cbn.
  - rewrite !elem_of_cons. intros [->|H]; [by left|right; by apply IH].
  - intros H. apply elem_of_cons. right. by apply IH.
Qed.

Lemma NoDup_joined_ids (d : db) (l : list (string * booking)) :
  NoDup l.*1 → NoDup (br_booking_id <$> omap (join_row d) l).
Proof.
  induction l as [|[k b] l IH]; cbn; [constructor|].
  intros [Hnotin Hnd]%NoDup_cons. unfold join_row at 1. cbn [fst snd].
  destruct (timeslots d !! b_timeslot_id b); cbn; [|by apply IH].
  apply NoDup_cons. split; [|by apply IH].
  intros Hin. by apply Hnotin, (joined_ids_sub d).
Qed.

Lemma NoDup_fmap_filter {A B} (f : A → B) (P : A → Prop)
    `{!∀ x, Decision (P x)} (l : list A) :
  NoDup (f <$> l) → NoDup (f <$> filter P l).
Proof.
  induction l as [|x l IH]; [done|]. rewrite fmap_cons.
  intros [Hnotin Hnd]%NoDup_cons. rewrite filter_cons.
  destruct (decide (P x)); [|by apply IH]. rewrite fmap_cons.
  apply NoDup_cons. split; [|by apply IH].
  intros (y & Hy & Hin%list_elem_of_filter)%list_elem_of_fmap.
  apply Hnotin, list_elem_of_fmap. exists y. tauto.
Qed.

Lemma joined_length (d : db) :
  fk_timeslot d → length (joined d) = size (bookings d).
Proof.
  intros Hfk. unfold joined. rewrite <- length_map_to_list.
  assert (Hall : ∀ row, row ∈ map_to_list (bookings d) →
                        is_Some (join_row d row)).
  { intros [k b] Hin%elem_of_map_to_list. unfold join_row. cbn [fst snd].
    destruct (Hfk k b Hin) as [t ->]. by eexists. }
  induction (map_to_list (bookings d)) as [|row l IH]; [done|].
  cbn. destruct (Hall row) as [r ->]; [apply list_elem_of_here|].
  cbn. f_equal. apply IH. intros row' Hin. apply Hall.
  by apply list_elem_of_further.
Qed.

(** X14. The admin booking list.  The answer is "Internal server error"
    when the query is rejected or a non-empty date filter is not valid
    text.  Otherwise the list holds exactly the bookings joined with their
    slot, canceled ones included and each booking once, restricted to the
    slots of the given date when a non-empty date is given (an empty date
    filters nothing), and ordered by creation time.  In a reachable state
    no booking is lost by the join: the unfiltered list has as many rows as
    there are bookings. *)
Theorem booking_listing (fault : bool) (slot_date_q : option string)
    (d : db) :
  (fault = true ∨ (truthy slot_date_q = true ∧ valid_field slot_date_q = false)
   → get_admin_bookings_pg fault slot_date_q d
     = Failure 500 "Internal server error")
  ∧ (fault = false →
     truthy slot_date_q = false ∨ valid_field slot_date_q = true →
     ∃ rows, get_admin_bookings_pg fault slot_date_q d = Json rows
       ∧ (∀ r, r ∈ rows
            ↔ ∃ k b t, bookings d !! k = Some b
                ∧ timeslots d !! b_timeslot_id b = Some t
                ∧ (truthy slot_date_q = true → slot_date t = text slot_date_q)
                ∧ r = BookingRow k b (slot_date t) (start_time t)
                        (end_time t))
       ∧ NoDup (br_booking_id <$> rows)
       ∧ StronglySorted
           (λ r1 r2, text_le (created_at (br_booking r1))
                       (created_at (br_booking r2)) = true) rows
       ∧ (reachable d → truthy slot_date_q = false →
          length rows = size (bookings d))).
Proof.
  unfold get_admin_bookings_pg, valid_field. split.
  { intros [-> | [-> ->]]; [done|]. cbn [negb andb]. by rewrite orb_true_r. }
  intros -> Hok. cbn [orb].
  assert (truthy slot_date_q && negb (valid_text (text slot_date_q)) = false)
    as -> by (destruct Hok as [-> | ->]; [done|apply andb_false_r]).
  eexists. split; [reflexivity|].
  unfold get_admin_bookings. split; [|split; [|split]].
  - intros r. rewrite merge_sort_Permutation.
    destruct (truthy slot_date_q).
    + rewrite list_elem_of_filter, elem_of_joined. split.
      * intros [Hdate (k & b & t & Hk & Ht & ->)].
        exists k, b, t. cbn in Hdate. auto.
      * intros (k & b & t & Hk & Ht & Hdate & ->). split; [cbn; auto|].
        by exists k, b, t.
    + rewrite elem_of_joined. split.
      * intros (k & b & t & Hk & Ht & ->). exists k, b, t.
        split; [done|]. split; [done|]. split; [discriminate|done].
      * intros (k & b & t & Hk & Ht & _ & ->). by exists k, b, t.
  - rewrite merge_sort_Permutation.
    assert (Hnd : NoDup (br_booking_id <$> joined d))
      by apply NoDup_joined_ids, NoDup_fst_map_to_list.
    destruct (truthy slot_date_q); [by apply NoDup_fmap_filter|done].
  - eapply StronglySorted_weaken;
      [|apply (StronglySorted_merge_sort by_created_at)].
    intros r1 r2 H. by apply Is_true_true.
  - intros Hreach ->. rewrite merge_sort_Permutation.
    apply joined_length, (c_fk d), reachable_consistent, Hreach.
Qed.

Lemma booking_listing_witness :
  (∃ rows, get_admin_bookings_pg false (Some "") seed_db = Json rows
           ∧ length rows = 3)
  ∧ br_booking_id <$> get_admin_bookings (Some "2023-10-15") seed_db
    = ["booking1"; "booking2"]
  ∧ get_admin_bookings_pg false (Some (String Ascii.zero "x")) seed_db
    = Failure 500 "Internal server error".
Proof.
  split; [|split; [vm_compute; reflexivity|vm_compute; reflexivity]].
  destruct (proj2 (booking_listing false (Some "") seed_db) eq_refl
              (or_introl eq_refl))
    as (rows & Hr & _ & _ & _ & Hlen).
  exists rows. split; [exact Hr|].
  rewrite (Hlen reach_seed eq_refl). vm_compute. reflexivity.
Defined.

(** ** The admin middleware *)

Lemma split_space_no_space (w : string) :
  no_space w = true → split_space w = [w].
Proof.
  induction w as [|c w IH]; [done|]. cbn [no_space split_space].
  intros [Hc Hw]%andb_true_iff. apply negb_true_iff in Hc.
  by rewrite Hc, (IH Hw).
Qed.

Lemma split_space_app (w rest : string) :
  no_space w = true →
  split_space (w ++ String " " rest) = w :: split_space rest.
Proof.
  induction w as [|c w IH]; [done|]. cbn [no_space].
  intros [Hc Hw]%andb_true_iff. apply negb_true_iff in Hc.
  rewrite append_cons. cbn [split_space]. by rewrite Hc, (IH Hw).
Qed.

Lemma truthy_app (a b : string) (c : ascii) :
  truthy (Some (a ++ String c b)) = true
  ∧ text (Some (a ++ String c b)) = a ++ String c b.
Proof.
  assert (Hne : a ++ String c b ≠ "") by (by destruct a).
  split; [by apply truthy_Some|by apply text_Some].
Qed.

(** X16. The admin middleware: an admin request without an Authorization
    header (absent or empty) is answered 401 without its handler running,
    so the database is untouched.  With a header [scheme token] the request
    is served exactly when [jwt.verify] accepts [token]: the scheme word is
    not looked at and anything after a second space is ignored; a header
    without a space hands [undefined] to [jwt.verify].  The public routes
    are served whatever the header. *)
Theorem admin_route_guard (verify : option string → bool) (r : request)
    (d : db) :
  (is_admin_route r = true →
     (∀ auth, truthy auth = false →
        route verify auth r d
        = (Some (reply 401 "Missing authorization header"), fresh_conn d))
     ∧ (∀ scheme tok, no_space scheme = true → no_space tok = true →
        route verify (Some (scheme ++ " " ++ tok)) r d
        = if verify (Some tok) then serve r d
          else (Some (reply 401 "Invalid token"), fresh_conn d))
     ∧ (∀ scheme tok more, no_space scheme = true → no_space tok = true →
        route verify (Some (scheme ++ " " ++ tok ++ " " ++ more)) r d
        = route verify (Some (scheme ++ " " ++ tok)) r d)
     ∧ (∀ w, w ≠ "" → no_space w = true →
        route verify (Some w) r d
        = if verify None then serve r d
          else (Some (reply 401 "Invalid token"), fresh_conn d)))
  ∧ (is_admin_route r = false → ∀ auth, route verify auth r d = serve r d).
Proof.
  unfold route. split; intros ->; [|done].
  assert (Htok : ∀ scheme tok, no_space scheme = true → no_space tok = true →
            token_of (scheme ++ String " " tok) = Some tok).
  { intros scheme tok Hs Ht. unfold token_of.
    by rewrite split_space_app, split_space_no_space. }
  assert (Htok2 : ∀ scheme tok more,
            no_space scheme = true → no_space tok = true →
            token_of (scheme ++ String " " (tok ++ String " " more))
            = Some tok).
  { intros scheme tok more Hs Ht. unfold token_of.
    by rewrite !split_space_app. }
  unfold authenticateAdmin. split; [|split; [|split]].
  - by intros auth ->.
  - intros scheme tok Hs Ht.
    change (scheme ++ " " ++ tok) with (scheme ++ String " " tok).
    destruct (truthy_app scheme tok " ") as [-> ->]. cbn [negb].
    rewrite Htok by done. by destruct (verify (Some tok)).
  - intros scheme tok more Hs Ht.
    change (scheme ++ " " ++ tok ++ " " ++ more)
      with (scheme ++ String " " (tok ++ String " " more)).
    change (scheme ++ " " ++ tok) with (scheme ++ String " " tok).
    destruct (truthy_app scheme (tok ++ String " " more) " ") as [-> ->].
    destruct (truthy_app scheme tok " ") as [-> ->].
    by rewrite Htok2, Htok.
  - intros w Hne Hw. rewrite truthy_Some, text_Some by done. cbn [negb].
    unfold token_of. rewrite split_space_no_space by done.
    change ([w] !! 1%nat) with (@None string).
    by destruct (verify None).
Qed.

Lemma admin_route_guard_witness :
  route (λ t, bool_decide (t = Some "good")) None (DeleteSlot "ts2") seed_db
  = (Some (reply 401 "Missing authorization header"), fresh_conn seed_db)
  ∧ route (λ t, bool_decide (t = Some "good")) (Some "Basic good")
      (DeleteSlot "ts2") seed_db
    = serve (DeleteSlot "ts2") seed_db.
Proof.
  destruct (proj1 (admin_route_guard (λ t, bool_decide (t = Some "good"))
                     (DeleteSlot "ts2") seed_db) eq_refl)
    as (Hmissing & Hscheme & _).
  split.
  - exact (Hmissing None eq_refl).
  - exact (Hscheme "Basic" "good" eq_refl eq_refl).
Defined.

(** ** Interleaved bookings *)

(** X17. While any number of CreateBooking attempts on one free slot run
    interleaved, the committed database is at every moment either the
    database they started from or that database with one attempt's whole
    transaction applied (the slot marked and its booking inserted): no
    interleaving exposes a half-done booking.  A row lock is only ever held
    on that slot and by an attempt that has not answered yet, so once all
    attempts have answered no lock is left. *)
Theorem interleaved_booking_atomic (d : db) (tid : string) (t0 : timeslot)
    (ats : list attempt) (sch : list nat) (st : system) :
  timeslots d !! tid = Some t0 → is_booked t0 = false →
  Forall (attempt_on d tid) ats →
  steps sch (start d (attempt_prog <$> ats)) st →
  (committed (sh st) = d
   ∨ ∃ w a, ats !! w = Some a
       ∧ timeslots (committed (sh st))
         = alter (set_booked true) tid (timeslots d)
       ∧ bookings (committed (sh st))
         = <[a_uuid a := new_booking a]> (bookings d))
  ∧ (∀ k i, slot_locks (sh st) !! k = Some i →
       k = tid ∧ ∃ s, sessions st !! i = Some s ∧ answer s = None)
  ∧ (finished st = true → slot_locks (sh st) = ∅).
Proof.
  intros Hslot Hfree Hwf Hsteps.
  destruct (steps_inv d tid t0 ats Hslot Hfree Hwf _ _ _ _ _ _
              (inv_start d tid t0 ats) Hsteps)
    as (φs & lock & winner & HI & _).
  pose proof HI as [Hlen Hsess Hlocks Hdb Hphase Hholder Hwinner].
  assert (Hheld : ∀ k i, slot_locks (sh st) !! k = Some i →
            k = tid ∧ ∃ s, sessions st !! i = Some s ∧ answer s = None).
  { intros k i Hk. rewrite Hlocks in Hk. destruct lock as [h|]; [|done].
    apply lookup_singleton_Some in Hk as [<- <-]. split; [done|].
    destruct (Hholder h eq_refl) as (φ & Hφ & Hh).
    destruct (session_lookup d tid t0 ats Hwf _ _ _ _ h φ HI Hφ)
      as (a & Ha & Hwfa & Hs).
    exists (session_at t0 a φ). split; [done|].
    destruct (answer (session_at t0 a φ)) as [r|] eqn:Hr; [|done].
    destruct (answer_phase d tid t0 Hfree a φ Hwfa) as [-> | ->];
      [by rewrite Hr|discriminate Hh..]. }
  split; [|split; [exact Hheld|]].
  - rewrite Hdb. destruct (winner ≫= (ats !!.)) as [a|] eqn:Hw; [|by left].
    right. destruct winner as [w|]; [|done]. cbn [mbind option_bind] in Hw.
    exists w, a. split; [done|].
    pose proof (Forall_lookup_1 _ _ _ _ Hwf Hw) as (_ & _ & _ & Hslota & _).
    unfold booked_by, a_slot. by rewrite Hslota.
  - intros Hfin. apply map_empty. intros k.
    destruct (slot_locks (sh st) !! k) as [i|] eqn:Hk; [|done].
    destruct (Hheld k i Hk) as (_ & s & Hs & Hnone).
    unfold finished in Hfin. apply bool_decide_eq_true in Hfin.
    pose proof (Forall_lookup_1 _ _ _ _ Hfin Hs) as [r Hr]. congruence.
Qed.

Lemma interleaved_booking_atomic_witness :
  slot_locks (sh (run_schedule [0; 1; 0; 1; 1; 0; 1; 1; 0; 1; 0; 1; 0; 1]
                    (start seed_db (attempt_prog <$> two_attempts)))) = ∅.
Proof.
  destruct (steps_run_schedule [0; 1; 0; 1; 1; 0; 1; 1; 0; 1; 0; 1; 0; 1]
              (start seed_db (attempt_prog <$> two_attempts))) as [sch Hsch].
  destruct (interleaved_booking_atomic seed_db "ts2"
              (Timeslot "2023-10-15" "09:30" "10:00" false) two_attempts sch
              (run_schedule [0; 1; 0; 1; 1; 0; 1; 1; 0; 1; 0; 1; 0; 1]
                 (start seed_db (attempt_prog <$> two_attempts))))
    as (_ & _ & H).
  - vm_compute. reflexivity.
  - reflexivity.
  - unfold two_attempts.
    apply Forall_cons_2; [|apply Forall_cons_2; [|apply Forall_nil_2]];
      (unfold attempt_on; repeat apply conj; vm_compute; reflexivity).
  - exact Hsch.
  - apply H. vm_compute. reflexivity.
Defined.

(** X18. A CreateBooking request that meets no other session runs, in the
    interleaved semantics with row locks, to the answer, the database and
    the events that the handler gives on its own connection, whichever way
    it ends (missing field, unknown slot, slot already booked, confirmed),
    and it leaves no row lock behind. *)
Theorem lone_booking_matches_handler (rq : booking_request)
    (uuid now : string) (d : db) :
  ∃ sch st,
    steps sch (start d [post_bookings rq uuid now]) st
    ∧ finished st = true
    ∧ answer <$> sessions st = [response_of (CreateBooking rq uuid now) d]
    ∧ committed (sh st) = db_after (CreateBooking rq uuid now) d
    ∧ channel (sh st)
      = emitted_events (events_of (CreateBooking rq uuid now) d)
    ∧ slot_locks (sh st) = ∅.
Proof.
  destruct (steps_run_schedule (replicate 8 0)
              (start d [post_bookings rq uuid now])) as [sch Hsch].
  destruct (alone_agrees rq uuid now d) as (Hans & Hdb & Hch & Hlocks).
  exists sch, (run_schedule (replicate 8 0)
                 (start d [post_bookings rq uuid now])).
  split; [exact Hsch|]. split; [|done].
  destruct (serve_outcome (CreateBooking rq uuid now) d)
    as (_ & resp & Hresp & _).
  rewrite Hresp in Hans. unfold finished. apply bool_decide_eq_true.
  destruct (sessions _) as [|s [|s' ss]]; try discriminate Hans.
  injection Hans as Hs. apply Forall_cons_2; [by rewrite Hs|done].
Qed.

(** * The server's database: parameters and rejected calls *)

(** ** Valid text is all the tables ever hold *)

Lemma valid_text_app (a b : string) :
  valid_text (a ++ b) = valid_text a && valid_text b.
Proof.
  induction a as [|c a IH]; [done|].
  rewrite append_cons. cbn [valid_text]. by rewrite IH, andb_assoc.
Qed.

Lemma valid_text_padStart (n : nat) (s : string) :
  valid_text (padStart n "0" s) = valid_text s.
Proof. unfold padStart. induction (n - utf16_length s) as [|k IH]; done. Qed.

Lemma valid_db_alter_slot (f : timeslot → timeslot) (id : string) (d : db) :
  (∀ t, valid_slot t = true → valid_slot (f t) = true) →
  valid_db d → valid_db (Db (alter f id (timeslots d)) (bookings d)).
Proof.
  intros Hf [Hts Hbs]. split; [|done]. cbn [timeslots].
  intros k t Hk. apply lookup_alter_Some in Hk as [(-> & t0 & Hk & ->)|[_ Hk]].
  - destruct (Hts _ _ Hk). auto.
  - by apply (Hts k).
Qed.

Lemma valid_db_alter_row (f : booking → booking) (id : string) (d : db) :
  (∀ b, valid_row b = true → valid_row (f b) = true) →
  valid_db d → valid_db (Db (timeslots d) (alter f id (bookings d))).
Proof.
  intros Hf [Hts Hbs]. split; [done|]. cbn [bookings].
  intros k b Hk. apply lookup_alter_Some in Hk as [(-> & b0 & Hk & ->)|[_ Hk]].
  - destruct (Hbs _ _ Hk). auto.
  - by apply (Hbs k).
Qed.

Lemma exec_valid {X} (c : cmd X) (w w' : conn) (x : X) :
  valid_conn w → accepted c = true → exec c w = Some (x, w') →
  valid_conn w'.
Proof.
  intros [Hs Hsnap] Hacc Hex. unfold accepted in Hacc.
  destruct c; cbn [exec text_params forallb] in Hex, Hacc;
    unfold read, write in Hex; repeat case_match; simplify_eq/=;
    try (split; done).
  - split; [|done]. cbn. by destruct (snapshot w).
  - split; [|done]. cbn [store]. apply valid_db_alter_slot; [|done].
    by intros [].
  - split; [|done]. cbn [store]. apply valid_db_alter_row; [|done].
    intros [] Hb. unfold valid_row in *. cbn in *.
    repeat (apply andb_true_iff in Hacc as [? Hacc]).
    repeat (apply andb_true_iff in Hb as [Hb ?]).
    by repeat (apply andb_true_iff; split).
  - split; [|done]. cbn [store].
    unfold insert_booking in *. repeat case_match; simplify_eq/=.
    destruct Hs as [Hts Hbs]. split; [done|]. cbn [bookings].
    apply map_Forall_insert_2; [|done].
    repeat (apply andb_true_iff in Hacc as [? Hacc]).
    split; [done|]. unfold valid_row.
    by repeat (apply andb_true_iff; split).
  - split; [|done]. cbn [store].
    unfold insert_timeslot in *. repeat case_match; simplify_eq/=.
    destruct Hs as [Hts Hbs]. split; [|done]. cbn [timeslots].
    apply map_Forall_insert_2; [|done].
    repeat (apply andb_true_iff in Hacc as [? Hacc]).
    split; [done|]. unfold valid_slot.
    by repeat (apply andb_true_iff; split).
  - split; [|done]. cbn [store]. apply valid_db_alter_slot; [|done].
    intros [] Ht. unfold valid_slot in *. cbn in *.
    repeat (apply andb_true_iff in Hacc as [? Hacc]).
    apply andb_true_iff in Ht as [[Hdate _]%andb_true_iff _].
    by repeat (apply andb_true_iff; split).
  - split; [|done]. cbn [store].
    unfold delete_timeslot in *. repeat case_match; simplify_eq/=.
    destruct Hs as [Hts Hbs]. split; [|done]. cbn [timeslots].
    by apply map_Forall_delete.
Qed.

Lemma run_pg_valid {R} (p : prog R) (faults : list bool) (w : conn) :
  valid_conn w → valid_conn (run_pg p faults w).1.2.
Proof.
  revert faults w.
  induction p as [r|X c k IH|body IHb handler IHh]; intros faults w Hw;
    cbn [run_pg].
  - done.
  - unfold exec_pg. destruct (_ || _) eqn:Hc; [done|].
    apply orb_false_iff in Hc as [_ Hacc]. apply negb_false_iff in Hacc.
    destruct (exec c w) as [[x w']|] eqn:Hex; [|done].
    apply IH. by eapply exec_valid.
  - specialize (IHb faults w Hw).
    destruct (run_pg body faults w) as [[[r|] w'] rest]; [done|].
    by apply IHh.
Qed.

Lemma seed_valid : valid_db seed_db.
Proof. apply (bool_decide_unpack _). vm_compute. exact I. Qed.

Lemma serve_pg_valid (connected : bool) (faults : list bool) (r : request)
    (d : db) :
  valid_db d → valid_db (committed_db (serve_pg connected faults r d).2).
Proof.
  intros Hd. unfold serve_pg. destruct (_ && _ && _); [done|].
  destruct (run_pg_valid (handler r) faults (fresh_conn d)) as [Hs Hsnap];
    [by split|].
  unfold committed_db. by destruct (snapshot _).
Qed.

Lemma reachable_pg_valid (d : db) : reachable_pg d → valid_db d.
Proof.
  induction 1 as [|connected faults r d _ IH]; [apply seed_valid|].
  by apply serve_pg_valid.
Qed.

(** ** Without rejected calls and on valid text, the plain run *)

Lemma run_pg_accepted {R} (p : prog R) (w : conn) :
  accepted_run p w = true → run_pg p [] w = (run p w, []).
Proof.
  revert w. induction p as [r|X c k IH|body IHb handler IHh]; intros w;
    cbn [accepted_run run_pg run].
  - done.
  - intros [Hacc Hk]%andb_true_iff. unfold exec_pg, fault_now.
    rewrite andb_false_r, Hacc. cbn [negb orb].
    assert (Hrest : (if awaited c then tail [] else []) = @nil bool)
      by (by destruct (awaited c)).
    rewrite Hrest.
    destruct (exec c w) as [[x w']|]; [by apply IH|done].
  - intros [Hb Hh]%andb_true_iff. rewrite (IHb w Hb).
    destruct (run body w) as [[r|] w']; [done|by apply IHh].
Qed.

Lemma default_or_null (v : option string) : default "" (or_null v) = text v.
Proof.
  destruct v as [s|]; [|done]. unfold or_null, text, or_else. cbn.
  destruct (String.eqb s "") eqn:He; [|done].
  by apply String.eqb_eq in He as ->.
Qed.

Lemma valid_or_else (v : option string) (x : string) :
  valid_field v = true → valid_text x = true →
  valid_text (or_else v x) = true.
Proof.
  unfold valid_field, text, or_else. destruct v as [s|]; [|done].
  by destruct (String.eqb s "").
Qed.

Ltac acc_cbn :=
  cbn [accepted_run accepted text_params forallb run exec store snapshot log
       fresh_conn fst snd default from_option timeslots bookings
       update_is_booked update_status update_times b_timeslot_id full_name
       email phone appointment_notes booking_status created_at slot_date
       start_time end_time valid_text andb app];
  unfold read, write;
  cbn [accepted_run accepted text_params forallb run exec store snapshot log
       fresh_conn fst snd default from_option timeslots bookings
       update_is_booked update_status update_times b_timeslot_id full_name
       email phone appointment_notes booking_status created_at slot_date
       start_time end_time valid_text andb app].

Ltac acc_go :=
  repeat first
    [ progress acc_cbn
    | rewrite default_or_null
    | match goal with H : valid_text _ = true |- _ => rewrite H end ].

Lemma handler_accepted (r : request) (d : db) :
  valid_request r = true → valid_db d →
  accepted_run (handler r) (fresh_conn d) = true.
Proof.
  intros Hr [Hts Hbs].
  destruct r as [rq uuid now|id|rq uuid|id rq|id|month year];
    cbn [valid_request handler] in *.
  - unfold valid_booking_request, valid_field in Hr.
    repeat (apply andb_true_iff in Hr as [Hr ?]).
    unfold post_bookings. destruct (negb _ || _ || _); [done|].
    acc_go.
    destruct (timeslots d !! _) as [t|] eqn:Ht; [|by acc_go].
    destruct (is_booked t); [by acc_go|].
    acc_go. unfold insert_booking. acc_go.
    destruct (bookings d !! uuid); [by acc_go|].
    rewrite lookup_alter_eq, Ht. cbn [fmap option_fmap option_map].
    by acc_go.
  - unfold put_cancel. acc_go.
    destruct (bookings d !! id) as [b|] eqn:Hb; [|by acc_go].
    destruct (Hbs id b Hb) as [_ Hrow]. unfold valid_row in Hrow.
    repeat (apply andb_true_iff in Hrow as [Hrow ?]).
    destruct (String.eqb _ _); [by acc_go|].
    acc_go.
    destruct (alter _ _ _ !! _); acc_go.
    all: done.
  - unfold valid_timeslot_request, valid_field in Hr.
    repeat (apply andb_true_iff in Hr as [Hr ?]).
    unfold post_admin_timeslots. destruct (negb _ || _ || _); [done|].
    acc_go. destruct (0 <? _)%nat; [by acc_go|].
    acc_go. unfold insert_timeslot.
    by destruct (timeslots d !! uuid); acc_go.
  - repeat (apply andb_true_iff in Hr as [Hr ?]).
    unfold put_admin_timeslots. destruct (negb _ && _); [done|].
    acc_go.
    destruct (timeslots d !! id) as [t|] eqn:Ht; [|by acc_go].
    destruct (Hts id t Ht) as [_ Hslot]. unfold valid_slot in Hslot.
    repeat (apply andb_true_iff in Hslot as [Hslot ?]).
    acc_go. rewrite !valid_or_else by done. acc_go.
    destruct (0 <? _)%nat; acc_go; [done|].
    by rewrite !valid_or_else.
  - unfold delete_admin_timeslots. acc_go.
    destruct (0 <? _)%nat; [by acc_go|].
    acc_go. unfold delete_timeslot. by destruct (decide _); acc_go.
  - apply andb_true_iff in Hr as [Hm Hy]. unfold valid_field in Hm, Hy.
    unfold get_calendar. destruct (negb _ || _); [done|].
    acc_cbn. rewrite !valid_text_app, valid_text_padStart, Hm, Hy. done.
Qed.

(** X19. The plain semantics is the server's on well-formed input.  In
    every state the server reaches by serving requests one after the other,
    whatever their parameters and whichever calls are rejected, the tables
    hold valid text only; and in such a state a request whose strings are
    valid text, served with no call rejected, gets the answer, leaves the
    database and emits the events of the plain run: no statement is
    refused for a parameter. *)
Theorem valid_text_served_as_modelled (d : db) (r : request) :
  reachable_pg d →
  valid_db d
  ∧ (valid_request r = true → serve_pg true [] r d = serve r d).
Proof.
  intros Hreach. pose proof (reachable_pg_valid d Hreach) as Hd.
  split; [done|]. intros Hr. unfold serve_pg, serve.
  rewrite andb_false_r.
  by rewrite (run_pg_accepted _ _ (handler_accepted r d Hr Hd)).
Qed.

Lemma valid_text_served_as_modelled_witness :
  serve_pg true [] (CreateBooking jane "u1" "t1") seed_db
  = (Some (Response 200 (BookingConfirmed "u1"
       (BookingDetails "ts2" "Jane Doe" "jane@x.com" "2023-10-15"
          "09:30" "10:00"))),
     (serve (CreateBooking jane "u1" "t1") seed_db).2).
Proof.
  rewrite (proj2 (valid_text_served_as_modelled seed_db
                    (CreateBooking jane "u1" "t1") reach_pg_seed) eq_refl).
  vm_compute. reflexivity.
Defined.

(** ** Rejected calls *)

Ltac pg_cbn :=
  cbn [run_pg awaited exec_pg accepted text_params forallb exec fault_now
       head tail andb orb negb fst snd store snapshot log fresh_conn
       default from_option timeslots bookings update_is_booked update_status
       update_times b_timeslot_id booking_status app committed_db
       emitted_events omap list_omap succeeded status];
  unfold read, write, exec_pg;
  cbn [run_pg awaited exec_pg accepted text_params forallb exec fault_now
       head tail andb orb negb fst snd store snapshot log fresh_conn
       default from_option timeslots bookings update_is_booked update_status
       update_times b_timeslot_id booking_status app committed_db
       emitted_events omap list_omap succeeded status].

Ltac pg_split :=
  match goal with
  | |- context [if ?b then None else _] => destruct b eqn:?
  | |- context [match ?m !! ?k with Some _ => _ | None => _ end] =>
      destruct (m !! k) eqn:?
  | |- context [match insert_booking ?k ?b ?d with
                | Some _ => _ | None => _ end] =>
      destruct (insert_booking k b d) eqn:?
  | |- context [match insert_timeslot ?k ?t ?d with
                | Some _ => _ | None => _ end] =>
      destruct (insert_timeslot k t d) eqn:?
  | |- context [match delete_timeslot ?k ?d with
                | Some _ => _ | None => _ end] =>
      destruct (delete_timeslot k d) eqn:?
  | |- context [if is_booked ?t then _ else _] => destruct (is_booked t)
  | |- context [if String.eqb ?a ?b then _ else _] =>
      destruct (String.eqb a b) eqn:?
  | |- context [if (0 <? ?n)%nat then _ else _] => destruct (0 <? n)%nat
  end.

Ltac pg_go := repeat first [progress pg_cbn | pg_split].

Ltac pg_unchanged :=
  intros Hs; first
    [ discriminate Hs
    | left; split; [first [reflexivity | by apply db_eta]|reflexivity] ].

Ltac pg_accepted :=
  repeat match goal with
  | H : _ || negb _ = false |- _ =>
      apply orb_false_iff in H as [_ H]; apply negb_false_iff in H
  | H : negb _ = false |- _ => apply negb_false_iff in H
  | H : _ && _ = true |- _ => apply andb_true_iff in H as [? ?]
  end;
  cbn [b_timeslot_id full_name email phone appointment_notes booking_status
       created_at slot_date start_time end_time] in *.

Lemma faulty_run_fails_cleanly (faults : list bool) (r : request) (d : db) :
  let out := (run_pg (handler r) faults (fresh_conn d)).1 in
  succeeded out.1 = false →
  (committed_db out.2 = d ∧ emitted_events (log out.2) = [])
  ∨ (∃ id b, r = CancelBooking id ∧ valid_text id = true
       ∧ bookings d !! id = Some b
       ∧ booking_status b ≠ "canceled"
       ∧ committed_db out.2
         = Db (alter (set_booked false) (b_timeslot_id b) (timeslots d))
              (alter (set_status "canceled") id (bookings d))
       ∧ emitted_events (log out.2)
         = [booking_update id (b_timeslot_id b) "canceled"]).
Proof.
  cbn zeta.
  destruct r as [rq uuid now|id|rq uuid|id rq|id|month year];
    cbn [handler].
  - unfold post_bookings. destruct (negb _ || _ || _); [pg_go; pg_unchanged|].
    pg_go; try pg_unchanged.
    all: idtac.
  - unfold put_cancel. pg_go; try pg_unchanged.
    all: intros _; right; eexists id, _; split; [reflexivity|];
      (split; [by pg_accepted|]);
      (split; [eassumption|]); split; [by apply String.eqb_neq|];
      split; reflexivity.
  - unfold post_admin_timeslots.
    destruct (negb _ || _ || _); [pg_go; pg_unchanged|].
    pg_go; pg_unchanged.
  - unfold put_admin_timeslots.
    destruct (negb _ && _); [pg_go; pg_unchanged|].
    pg_go; pg_unchanged.
  - unfold delete_admin_timeslots. pg_go; pg_unchanged.
  - unfold get_calendar. destruct (negb _ || _); [pg_go; pg_unchanged|].
    pg_go; pg_unchanged.
Qed.

(** X1. Failure is clean, with one exception.  Whatever the parameters of
    a request and whichever of its database calls are rejected, when the
    request is not answered with status 200 (an error status, or no answer
    because an exception escaped) the committed database is as it was
    before the request and no event was emitted; unless the request is a
    cancellation of a booking not yet canceled whose transaction was
    committed: its handler re-reads the slot after COMMIT inside the same
    [try], so when that call is rejected the cancellation stays committed
    and its booking-update event sent.  That case exists: with the sixth
    call rejected, cancelling such a booking is answered "Internal server
    error" although the booking is canceled and its slot freed. *)
Theorem failed_request_changes_nothing (d : db) :
  (∀ connected faults r,
     succeeded (serve_pg connected faults r d).1 = false →
     (committed_db (serve_pg connected faults r d).2 = d
      ∧ emitted_events (log (serve_pg connected faults r d).2) = [])
     ∨ (∃ id b, r = CancelBooking id ∧ valid_text id = true
          ∧ bookings d !! id = Some b
          ∧ booking_status b ≠ "canceled"
          ∧ committed_db (serve_pg connected faults r d).2
            = Db (alter (set_booked false) (b_timeslot_id b) (timeslots d))
                 (alter (set_status "canceled") id (bookings d))
          ∧ emitted_events (log (serve_pg connected faults r d).2)
            = [booking_update id (b_timeslot_id b) "canceled"]))
  ∧ (∀ id b,
     bookings d !! id = Some b → booking_status b ≠ "canceled" →
     valid_text id = true → valid_text (b_timeslot_id b) = true →
     serve_pg true [false; false; false; false; false; true]
       (CancelBooking id) d
     = (Some (reply 500 "Internal server error"),
        Conn (Db (alter (set_booked false) (b_timeslot_id b) (timeslots d))
                 (alter (set_status "canceled") id (bookings d)))
          None
          [Began; Committed;
           Emitted (booking_update id (b_timeslot_id b) "canceled");
           RolledBack])).
Proof.
  split.
  - intros connected faults r. unfold serve_pg.
    destruct (_ && _ && _); [by left|].
    apply faulty_run_fails_cleanly.
  - intros id b Hb Hst Hid Hsid. apply String.eqb_neq in Hst.
    unfold serve_pg. cbn [uses_client handler]. unfold put_cancel.
    cbn [answered_at_once andb negb].
    repeat first [progress pg_cbn | rewrite Hid | rewrite Hb | rewrite Hst
                 | rewrite Hsid].
    done.
Qed.

Lemma failed_request_changes_nothing_witness :
  serve_pg true [false; false; false; false; false; true]
    (CancelBooking "booking1") seed_db
  = (Some (reply 500 "Internal server error"),
     Conn (db_after (CancelBooking "booking1") seed_db) None
       [Began; Committed;
        Emitted (booking_update "booking1" "ts1" "canceled"); RolledBack])
  ∧ timeslots (db_after (CancelBooking "booking1") seed_db) !! "ts1"
    = Some (Timeslot "2023-10-15" "09:00" "09:30" false)
  ∧ committed_db
      (serve_pg true [false; false; false; true]
         (CreateBooking jane "u1" "t1") seed_db).2 = seed_db.
Proof.
  split; [|split; [vm_compute; reflexivity|]].
  - rewrite (proj2 (failed_request_changes_nothing seed_db) "booking1"
      (Booking "ts1" "Alice Johnson" "alice.johnson@gmail.com"
         (Some "555-1234") (Some "Consultation appointment") "active"
         "2023-10-15 08:55:00")); [|vm_compute; reflexivity|discriminate
      |reflexivity|reflexivity].
    vm_compute. reflexivity.
  - destruct (proj1 (failed_request_changes_nothing seed_db) true
                [false; false; false; true] (CreateBooking jane "u1" "t1"))
      as [[Hdb _]|(id & b & Hr & _)].
    + vm_compute. reflexivity.
    + exact Hdb.
    + discriminate Hr.
Defined.

Lemma faulty_run_answers (faults : list bool) (r : request) (d : db) :
  uses_client r = false →
  ∃ resp, (run_pg (handler r) faults (fresh_conn d)).1.1 = Some resp
    ∧ (status resp = 200 ∨ status resp = 400 ∨ status resp = 500).
Proof.
  destruct r as [rq uuid now|id|rq uuid|id rq|id|month year];
    cbn [uses_client handler]; intros Hc; try discriminate Hc.
  - unfold post_admin_timeslots.
    destruct (negb _ || _ || _); pg_go; eexists; (split; [reflexivity|]);
      cbn; tauto.
  - unfold put_admin_timeslots.
    destruct (negb _ && _); pg_go; eexists; (split; [reflexivity|]);
      cbn; tauto.
  - unfold delete_admin_timeslots.
    pg_go; eexists; (split; [reflexivity|]); cbn; tauto.
  - unfold get_calendar.
    destruct (negb _ || _); pg_go; eexists; (split; [reflexivity|]);
      cbn; tauto.
Qed.

Lemma quiet_run_answers (r : request) (d : db) :
  ∃ resp, (run_pg (handler r) [] (fresh_conn d)).1.1 = Some resp
    ∧ (status resp = 200 ∨ status resp = 400 ∨ status resp = 500)
    ∧ snapshot (run_pg (handler r) [] (fresh_conn d)).1.2 = None.
Proof.
  destruct r as [rq uuid now|id|rq uuid|id rq|id|month year];
    cbn [handler].
  - unfold post_bookings.
    destruct (negb _ || _ || _); pg_go; eexists; (split; [reflexivity|]);
      (split; [cbn; tauto|reflexivity]).
  - unfold put_cancel.
    pg_go; eexists; (split; [reflexivity|]);
      (split; [cbn; tauto|reflexivity]).
  - unfold post_admin_timeslots.
    destruct (negb _ || _ || _); pg_go; eexists; (split; [reflexivity|]);
      (split; [cbn; tauto|reflexivity]).
  - unfold put_admin_timeslots.
    destruct (negb _ && _); pg_go; eexists; (split; [reflexivity|]);
      (split; [cbn; tauto|reflexivity]).
  - unfold delete_admin_timeslots.
    pg_go; eexists; (split; [reflexivity|]);
      (split; [cbn; tauto|reflexivity]).
  - unfold get_calendar.
    destruct (negb _ || _); pg_go; eexists; (split; [reflexivity|]);
      (split; [cbn; tauto|reflexivity]).
Qed.

(** X2. Which requests are answered.  The handlers that work through the
    pool (slot creation, edit, deletion, the calendar) answer with status
    200, 400 or 500 whatever their parameters and whichever calls are
    rejected.  Every handler answers, with its transaction closed, when no
    call is rejected for a reason outside the tables, a parameter holding
    U+0000 or a violated constraint included.  The two handlers that take a
    client (booking, cancellation) leave the request unanswered when
    [pool.connect()], awaited before their [try], is rejected, and when a
    call of the transaction and then the ROLLBACK of the catch block are
    rejected. *)
Theorem every_request_is_answered (d : db) :
  (∀ connected faults r, uses_client r = false →
     ∃ resp, (serve_pg connected faults r d).1 = Some resp
       ∧ (status resp = 200 ∨ status resp = 400 ∨ status resp = 500))
  ∧ (∀ r,
     ∃ resp, (serve_pg true [] r d).1 = Some resp
       ∧ (status resp = 200 ∨ status resp = 400 ∨ status resp = 500)
       ∧ snapshot (serve_pg true [] r d).2 = None)
  ∧ (∀ faults r, uses_client r = true →
     answered_at_once (handler r) = false →
     serve_pg false faults r d = (None, fresh_conn d))
  ∧ (∀ faults r, uses_client r = true →
     answered_at_once (handler r) = false →
     serve_pg true (true :: true :: faults) r d = (None, fresh_conn d)).
Proof.
  split; [|split; [|split]].
  - intros connected faults r Hc. unfold serve_pg. rewrite Hc.
    cbn [andb]. by apply faulty_run_answers.
  - intros r. unfold serve_pg. rewrite andb_false_r.
    apply quiet_run_answers.
  - intros faults r Hc Hnow. unfold serve_pg. by rewrite Hc, Hnow.
  - intros faults r Hc Hnow. unfold serve_pg. rewrite andb_false_r.
    destruct r as [rq uuid now|id|rq uuid|id rq|id|month year];
      try discriminate Hc; cbn [handler] in *.
    + unfold post_bookings in *.
      destruct (negb _ || _ || _); [discriminate Hnow|].
      by repeat progress pg_cbn.
    + unfold put_cancel. by repeat progress pg_cbn.
Qed.

Lemma every_request_is_answered_witness :
  (serve_pg true [false; true] (DeleteSlot "ts2") seed_db).1
  = Some (reply 500 "Internal server error")
  ∧ serve_pg false [] (CancelBooking "booking1") seed_db
    = (None, fresh_conn seed_db)
  ∧ serve_pg true [true; true] (CreateBooking jane "u1" "t1") seed_db
    = (None, fresh_conn seed_db).
Proof.
  destruct (every_request_is_answered seed_db) as (_ & _ & Hconn & Hroll).
  split; [vm_compute; reflexivity|]. split.
  - apply Hconn; reflexivity.
  - apply Hroll; reflexivity.
Defined.

(** ** Slot creations at the same time *)

(** X20. The overlap check of slot creation does not hold against a
    creation that runs at the same time.  Two creation requests for the
    same date with overlapping intervals, neither in conflict with a stored
    slot, can both be answered with their new id and both slots stored:
    the handler's query and its INSERT are separate statements outside any
    transaction, and when both queries run before either INSERT each finds
    no row.  Served one after the other, the second request is refused. *)
Theorem concurrent_slot_creation_overlaps (d : db)
    (rq1 rq2 : timeslot_request) (u1 u2 : string) :
  truthy (rq_slot_date rq1) = true → truthy (rq_start_time rq1) = true →
  truthy (rq_end_time rq1) = true →
  truthy (rq_slot_date rq2) = true → truthy (rq_start_time rq2) = true →
  truthy (rq_end_time rq2) = true →
  text (rq_slot_date rq1) = text (rq_slot_date rq2) →
  text_lt (text (rq_start_time rq1)) (text (rq_end_time rq2)) = true →
  text_lt (text (rq_start_time rq2)) (text (rq_end_time rq1)) = true →
  count_create_conflicts (text (rq_slot_date rq1)) (text (rq_start_time rq1))
    (text (rq_end_time rq1)) d = 0 →
  count_create_conflicts (text (rq_slot_date rq2)) (text (rq_start_time rq2))
    (text (rq_end_time rq2)) d = 0 →
  timeslots d !! u1 = None → timeslots d !! u2 = None → u1 ≠ u2 →
  let t1 := Timeslot (text (rq_slot_date rq1)) (text (rq_start_time rq1))
              (text (rq_end_time rq1)) false in
  let t2 := Timeslot (text (rq_slot_date rq2)) (text (rq_start_time rq2))
              (text (rq_end_time rq2)) false in
  (∃ sch st,
     steps sch
       (start d [post_admin_timeslots rq1 u1; post_admin_timeslots rq2 u2])
       st
     ∧ finished st = true
     ∧ answer <$> sessions st
       = [Some (Response 200 (TimeslotAdded u1));
          Some (Response 200 (TimeslotAdded u2))]
     ∧ timeslots (committed (sh st)) !! u1 = Some t1
     ∧ timeslots (committed (sh st)) !! u2 = Some t2
     ∧ slot_date t1 = slot_date t2
     ∧ overlaps (start_time t1) (end_time t1) t2 = true)
  ∧ response_of (CreateSlot rq2 u2) (db_after (CreateSlot rq1 u1) d)
    = Some (reply 400 "Overlapping timeslot exists").
Proof.
  intros Hd1 Hs1 He1 Hd2 Hs2 He2 Hdate H12 H21 Hc1 Hc2 Hu1 Hu2 Hne t1 t2.
  split.
  - destruct (steps_run_schedule [0; 1; 0; 1; 0; 1; 0; 1]
                (start d [post_admin_timeslots rq1 u1;
                          post_admin_timeslots rq2 u2])) as [sch Hsch].
    eexists sch, _. split; [exact Hsch|]. clear sch Hsch.
    unfold start, post_admin_timeslots.
    rewrite Hd1, Hs1, He1, Hd2, Hs2, He2. cbn [negb orb fmap list_fmap].
    do 2 alone_step idtac.
    alone_step ltac:(rewrite Hc1; cbn [Nat.ltb Nat.leb]).
    alone_step ltac:(rewrite Hc2; cbn [Nat.ltb Nat.leb]).
    alone_step ltac:(unfold insert_timeslot; cbn [timeslots]; rewrite Hu1).
    alone_step ltac:(unfold insert_timeslot; cbn [timeslots];
                     rewrite lookup_insert_ne, Hu2 by done).
    do 2 alone_step idtac.
    cbn [run_schedule]. unfold finished.
    cbn [sessions sh committed fmap list_fmap answer s_code timeslots].
    split; [by apply bool_decide_eq_true; repeat constructor|].
    split; [done|]. fold t1 t2.
    split; [by rewrite lookup_insert_ne, lookup_insert_eq|].
    split; [by rewrite lookup_insert_eq|].
    split; [done|].
    unfold overlaps, t1, t2. cbn [start_time end_time].
    by rewrite H12, H21.
  - pose proof (create_run rq1 u1 d Hd1 Hs1 He1) as Hrun1. cbn zeta in Hrun1.
    rewrite Hc1, Hu1 in Hrun1. cbn in Hrun1. destruct Hrun1 as [_ Hdb1].
    pose proof (create_run rq2 u2 (db_after (CreateSlot rq1 u1) d)
                  Hd2 Hs2 He2) as Hrun2. cbn zeta in Hrun2.
    assert (Hpos : (0 <? count_create_conflicts (text (rq_slot_date rq2))
                      (text (rq_start_time rq2)) (text (rq_end_time rq2))
                      (db_after (CreateSlot rq1 u1) d))%nat = true).
    { apply create_conflicts_pos. exists u1, t1.
      rewrite Hdb1. cbn [timeslots]. rewrite lookup_insert_eq.
      split; [done|]. split; [exact Hdate|]. split; [exact H21|exact H12]. }
    rewrite Hpos in Hrun2. by destruct Hrun2.
Qed.

Lemma concurrent_slot_creation_overlaps_witness :
  ∃ sch st,
    steps sch
      (start seed_db
         [post_admin_timeslots
            (TimeslotRequest (Some "2023-10-17") (Some "09:00")
               (Some "10:00")) "s1";
          post_admin_timeslots
            (TimeslotRequest (Some "2023-10-17") (Some "09:30")
               (Some "10:30")) "s2"]) st
    ∧ timeslots (committed (sh st)) !! "s1"
      = Some (Timeslot "2023-10-17" "09:00" "10:00" false)
    ∧ timeslots (committed (sh st)) !! "s2"
      = Some (Timeslot "2023-10-17" "09:30" "10:30" false).
Proof.
  destruct (concurrent_slot_creation_overlaps seed_db
              (TimeslotRequest (Some "2023-10-17") (Some "09:00")
                 (Some "10:00"))
              (TimeslotRequest (Some "2023-10-17") (Some "09:30")
                 (Some "10:30")) "s1" "s2")
    as [(sch & st & Hsteps & _ & _ & H1 & H2 & _) _];
    try (vm_compute; reflexivity); [discriminate|].
  exists sch, st. split; [exact Hsteps|]. split; [exact H1|exact H2].
Defined.

(** ** A parameter that is not valid text *)

Lemma valid_field_supplied (v : option string) (x : string) :
  valid_text (or_else v x) = true → valid_field v = true.
Proof.
  unfold valid_field, text, or_else. destruct v as [s|]; [|done].
  by destruct (String.eqb s "").
Qed.

Lemma success_needs_valid_text (faults : list bool) (r : request) (d : db) :
  succeeded (run_pg (handler r) faults (fresh_conn d)).1.1 = true →
  valid_request r = true.
Proof.
  destruct r as [rq uuid now|id|rq uuid|id rq|id|month year];
    cbn [handler valid_request].
  - unfold post_bookings. destruct (negb _ || _ || _); [by pg_go|].
    pg_go; intros Hs; try discriminate Hs. pg_accepted.
    rewrite !default_or_null in *.
    unfold valid_booking_request, valid_field.
    by repeat (apply andb_true_iff; split).
  - unfold put_cancel.
    pg_go; intros Hs; try discriminate Hs; by pg_accepted.
  - unfold post_admin_timeslots. destruct (negb _ || _ || _); [by pg_go|].
    pg_go; intros Hs; try discriminate Hs. pg_accepted.
    unfold valid_timeslot_request, valid_field.
    by repeat (apply andb_true_iff; split).
  - unfold put_admin_timeslots. destruct (negb _ && _); [by pg_go|].
    pg_go; intros Hs; try discriminate Hs. pg_accepted.
    repeat (apply andb_true_iff; split); [done|..];
      by eapply valid_field_supplied.
  - unfold delete_admin_timeslots.
    pg_go; intros Hs; try discriminate Hs; by pg_accepted.
  - unfold get_calendar. destruct (negb _ || _); [by pg_go|].
    pg_go; intros Hs; try discriminate Hs. pg_accepted.
    rewrite !valid_text_app, valid_text_padStart in *. pg_accepted.
    unfold valid_field. by apply andb_true_iff.
Qed.

(** X21. A request with U+0000 in a string that reaches the database is
    never answered with status 200, whichever calls are rejected, and it
    leaves the committed database as it was and emits no event: the
    statement given the string raises, and the handler's catch block rolls
    the transaction back.  So a booking for a free slot whose name holds
    the character is answered "Internal server error" after BEGIN and
    ROLLBACK. *)
Theorem invalid_text_is_refused (connected : bool) (faults : list bool)
    (r : request) (d : db) :
  valid_request r = false →
  succeeded (serve_pg connected faults r d).1 = false
  ∧ committed_db (serve_pg connected faults r d).2 = d
  ∧ emitted_events (log (serve_pg connected faults r d).2) = [].
Proof.
  intros Hbad. unfold serve_pg. destruct (_ && _ && _); [done|].
  assert (Hs : succeeded (run_pg (handler r) faults (fresh_conn d)).1.1
               = false).
  { destruct (succeeded _) eqn:Hs; [|done].
    apply success_needs_valid_text in Hs. congruence. }
  split; [done|].
  destruct (faulty_run_fails_cleanly faults r d Hs)
    as [Hsame|(id & b & -> & Hid & _)]; [done|].
  cbn [valid_request] in Hbad. congruence.
Qed.

Lemma invalid_text_is_refused_witness :
  serve_pg true []
    (CreateBooking
       (BookingRequest (Some "ts2") (Some (String "J" (String Ascii.zero "Doe")))
          (Some "jane@x.com") None None) "u1" "t1") seed_db
  = (Some (reply 500 "Internal server error"),
     Conn seed_db None [Began; RolledBack])
  ∧ committed_db
      (serve_pg true []
         (EditSlot "ts2"
            (TimeslotRequest None (Some (String Ascii.zero "9:00")) None))
         seed_db).2 = seed_db.
Proof.
  split; [vm_compute; reflexivity|].
  exact (proj1 (proj2 (invalid_text_is_refused true []
    (EditSlot "ts2"
       (TimeslotRequest None (Some (String Ascii.zero "9:00")) None))
    seed_db eq_refl))).
Defined.
